(** * OpenBao replication: the synchronization engine of [replication/sync.py]

    A shallow embedding of [ReplicationSynchronizer] over the method
    interface of [OpenBaoClient] ([replication/client.py]).  The two clients
    are state machines behind that interface; a synchronizer method is a
    computation that threads both cluster states, may raise, and emits the
    sequence of client calls and log records it performs. *)

From Stdlib Require Import String Ascii List Bool Arith ZArith Lia.
Import ListNotations.
Local Open Scope string_scope.
Local Open Scope list_scope.

Set Implicit Arguments.
Set Warnings "-register-all".

(** ** Python strings *)

Module PyStr.

(** [s.startswith(pre)] *)
Fixpoint startswith (s pre : string) {struct pre} : bool :=
  match pre with
  | EmptyString => true
  | String c pre' =>
      match s with
      | EmptyString => false
      | String d s' => Ascii.eqb d c && startswith s' pre'
      end
  end.

Definition is_slash (c : ascii) : bool := Ascii.eqb c "/"%char.

(** [s.endswith('/')] *)
Fixpoint endswith_slash (s : string) : bool :=
  match s with
  | EmptyString => false
  | String c EmptyString => is_slash c
  | String _ s' => endswith_slash s'
  end.

(** [s.lstrip('/')] *)
Fixpoint lstrip_slash (s : string) : string :=
  match s with
  | EmptyString => EmptyString
  | String c s' => if is_slash c then lstrip_slash s' else s
  end.

(** [s.rstrip('/')] *)
Fixpoint rstrip_slash (s : string) : string :=
  match s with
  | EmptyString => EmptyString
  | String c s' =>
      match rstrip_slash s' with
      | EmptyString => if is_slash c then EmptyString else String c EmptyString
      | r => String c r
      end
  end.

(** [s.strip('/')] *)
Definition strip_slash (s : string) : string := rstrip_slash (lstrip_slash s).

(** [f"{a}/{b}"] *)
Definition join_slash (a b : string) : string := a ++ "/" ++ b.

End PyStr.
Import PyStr.

(** ** Python values carried by the API ([Any] in the type hints) *)

Inductive pyval : Type :=
| PyNone
| PyBool (b : bool)
| PyInt (z : Z)
| PyStr (s : string)
| PyList (l : list pyval)
| PyDict (d : list (string * pyval)).

(** A [Dict[str, Any]], in insertion order. *)
Definition dict : Type := list (string * pyval).

(** Truth value of an object, as tested by [if x:] and [if not x:]. *)
Definition truthy (v : pyval) : bool :=
  match v with
  | PyNone => false
  | PyBool b => b
  | PyInt z => negb (Z.eqb z 0)
  | PyStr s => negb (String.eqb s "")
  | PyList l => match l with [] => false | _ => true end
  | PyDict d => match d with [] => false | _ => true end
  end.

(** [d.get(k)] on a dict: the value bound to [k], if any. *)
Fixpoint dict_get (d : dict) (k : string) : option pyval :=
  match d with
  | [] => None
  | (k', v) :: d' => if String.eqb k' k then Some v else dict_get d' k
  end.

(** [d.get(k, default)] *)
Definition dict_get_default (d : dict) (k : string) (default : pyval) : pyval :=
  match dict_get d k with
  | Some v => v
  | None => default
  end.

(** ** The client interface

    What a call on an [OpenBaoClient] can do, seen from the synchronizer.
    [health_check] and the mutating methods catch the request errors in
    their bodies and return a [bool]; the list and read methods return the
    decoded payload, which can also fail outside their [except] clause
    (an exception reaches the caller).  Every call may change the state
    behind the client. *)

Inductive reply (A : Type) : Type :=
| Returns (a : A)
| Raises (e : string).
Arguments Raises {A} e.

Record Client (S : Type) : Type := {
  health_check : S -> bool * S;
  list_secrets : string -> S -> reply (list string) * S;
  read_secret : string -> S -> reply (option dict) * S;
  write_secret : string -> dict -> S -> bool * S;
  list_auth_methods : S -> reply dict * S;
  enable_auth_method : string -> pyval -> dict -> S -> bool * S;
  disable_auth_method : string -> S -> bool * S;
  list_secret_engines : S -> reply dict * S;
  enable_secret_engine : string -> pyval -> dict -> S -> bool * S;
  disable_secret_engine : string -> S -> bool * S;
  list_policies : S -> reply (list string) * S;
  read_policy : string -> S -> reply (option string) * S;
  write_policy : string -> string -> S -> bool * S;
  delete_policy : string -> S -> bool * S
}.

(** ** Observable events *)

Inductive target : Type := Primary | Secondary.

Inductive call : Type :=
| HealthCheck
| ListSecrets (path : string)
| ReadSecret (path : string)
| WriteSecret (path : string) (data : dict)
| ListAuthMethods
| EnableAuthMethod (path : string) (auth_type : pyval) (config : dict)
| DisableAuthMethod (path : string)
| ListSecretEngines
| EnableSecretEngine (path : string) (engine_type : pyval) (config : dict)
| DisableSecretEngine (path : string)
| ListPolicies
| ReadPolicy (name : string)
| WritePolicy (name : string) (policy : string)
| DeletePolicy (name : string).

Inductive level : Type := DEBUG | INFO | WARNING | ERROR.

(** What a call gave back. *)
Inductive answer : Type :=
| Bool (b : bool)
| Listing (d : list (string * pyval))
| Keys (ks : list string)
| Policy (p : option string)
| Secret (d : option (list (string * pyval)))
| Raised (e : string).

(** [Call t c a]: the synchronizer called [c] on client [t] and got [a].
    [Log l msg args]: a log record with the text of the f-string and the
    values interpolated into it. *)
Inductive event : Type :=
| Call (t : target) (c : call) (a : answer)
| Log (l : level) (msg : string) (args : list pyval).

Definition trace : Type := list event.

(** A call that changes the cluster it is sent to. *)
Definition mutating (c : call) : bool :=
  match c with
  | WriteSecret _ _ | EnableAuthMethod _ _ _ | DisableAuthMethod _
  | EnableSecretEngine _ _ _ | DisableSecretEngine _
  | WritePolicy _ _ | DeletePolicy _ => true
  | _ => false
  end.

(** ** Computations *)

Inductive result (A : Type) : Type :=
| Ok (a : A)
| Exc (e : string)
| OutOfFuel.
Arguments Exc {A} e.
Arguments OutOfFuel {A}.

Section Synchronizer.

Variables SP SS : Type.
Variable primary : Client SP.
Variable secondary : Client SS.

(** The states behind [self.primary] and [self.secondary]. *)
Record clusters : Type := Clusters { pri : SP; sec : SS }.

Definition M (A : Type) : Type := clusters -> result A * clusters * trace.

Definition ret {A} (a : A) : M A := fun c => (Ok a, c, []).

Definition bind {A B} (m : M A) (f : A -> M B) : M B :=
  fun c =>
    match m c with
    | (Ok a, c1, t1) => let '(r, c2, t2) := f a c1 in (r, c2, t1 ++ t2)
    | (Exc e, c1, t1) => (Exc e, c1, t1)
    | (OutOfFuel, c1, t1) => (OutOfFuel, c1, t1)
    end.

Definition raise {A} (e : string) : M A := fun c => (Exc e, c, []).

Definition out_of_fuel {A} : M A := fun c => (OutOfFuel, c, []).

(** [try: m  except Exception as e: h e] *)
Definition try_except {A} (m : M A) (h : string -> M A) : M A :=
  fun c =>
    match m c with
    | (Exc e, c1, t1) => let '(r, c2, t2) := h e c1 in (r, c2, t1 ++ t2)
    | other => other
    end.

Definition log (l : level) (msg : string) (args : list pyval) : M unit :=
  fun c => (Ok tt, c, [Log l msg args]).

Notation "x <- m ;; k" := (bind m (fun x => k))
  (at level 61, m at next level, right associativity).
Notation "m ;;; k" := (bind m (fun _ => k))
  (at level 61, right associativity).

(** A [bool]-returning client method. *)
Definition call_bool_pri (c : call) (f : SP -> bool * SP) : M bool :=
  fun w => let '(b, s) := f (pri w) in
           (Ok b, Clusters s (sec w), [Call Primary c (Bool b)]).

Definition call_bool_sec (c : call) (f : SS -> bool * SS) : M bool :=
  fun w => let '(b, s) := f (sec w) in
           (Ok b, Clusters (pri w) s, [Call Secondary c (Bool b)]).

(** A list or read method; [wrap] records what it returned. *)
Definition call_read_pri {A} (c : call) (wrap : A -> answer)
           (f : SP -> reply A * SP) : M A :=
  fun w => match f (pri w) with
           | (Returns a, s) =>
               (Ok a, Clusters s (sec w), [Call Primary c (wrap a)])
           | (Raises e, s) =>
               (Exc e, Clusters s (sec w), [Call Primary c (Raised e)])
           end.

Definition call_read_sec {A} (c : call) (wrap : A -> answer)
           (f : SS -> reply A * SS) : M A :=
  fun w => match f (sec w) with
           | (Returns a, s) =>
               (Ok a, Clusters (pri w) s, [Call Secondary c (wrap a)])
           | (Raises e, s) =>
               (Exc e, Clusters (pri w) s, [Call Secondary c (Raised e)])
           end.

(** [for x in xs: ...] over a loop body that updates the local [success]. *)
Fixpoint for_each {A} (xs : list A) (body : A -> bool -> M bool) (success : bool)
  : M bool :=
  match xs with
  | [] => ret success
  | x :: xs' => s <- body x success ;; for_each xs' body s
  end.

(** [config.get(k)] where [config] is a value of the listing: an attribute
    error unless it is a dict. *)
Definition config_get (config : pyval) (k : string) : M (option pyval) :=
  match config with
  | PyDict d => ret (dict_get d k)
  | _ => raise "object has no attribute 'get'"
  end.

Definition config_get_default (config : pyval) (k : string) (default : pyval)
  : M pyval :=
  match config with
  | PyDict d => ret (dict_get_default d k default)
  | _ => raise "object has no attribute 'get'"
  end.

(** *** [ReplicationSynchronizer] *)

(** [self.exclude_paths] *)
Variable exclude_paths : list string.

Fixpoint should_exclude_in (excludes : list string) (path : string) : bool :=
  match excludes with
  | [] => false
  | exclude :: rest =>
      if startswith path exclude then true else should_exclude_in rest path
  end.

Definition should_exclude_path (path : string) : bool :=
  should_exclude_in exclude_paths path.

Definition _health_check : M bool :=
  log INFO "Performing health checks" [] ;;;
  p <- call_bool_pri HealthCheck (health_check primary) ;;
  if negb p then
    log ERROR "Primary OpenBao instance is not healthy" [] ;;; ret false
  else
    s <- call_bool_sec HealthCheck (health_check secondary) ;;
    if negb s then
      log ERROR "Secondary OpenBao instance is not healthy" [] ;;; ret false
    else
      log INFO "Health checks passed" [] ;;; ret true.

(** [policy in system_policies] for [system_policies = {'root', 'default'}] *)
Definition in_system_policies (policy : string) : bool :=
  String.eqb policy "root" || String.eqb policy "default".

Definition clear_engine (item : string * pyval) : M unit :=
  let path := fst item in
  if negb (startswith path "sys/") && negb (startswith path "identity/") then
    log INFO "Disabling secret engine: {path}" [PyStr path] ;;;
    _ <- call_bool_sec (DisableSecretEngine (rstrip_slash path))
           (disable_secret_engine secondary (rstrip_slash path)) ;;
    ret tt
  else ret tt.

Definition clear_auth (item : string * pyval) : M unit :=
  let path := fst item in
  if negb (String.eqb path "token/") && negb (startswith path "sys/") then
    log INFO "Disabling auth method: {path}" [PyStr path] ;;;
    _ <- call_bool_sec (DisableAuthMethod (rstrip_slash path))
           (disable_auth_method secondary (rstrip_slash path)) ;;
    ret tt
  else ret tt.

Definition clear_policy (policy : string) : M unit :=
  if negb (in_system_policies policy) then
    log INFO "Deleting policy: {policy}" [PyStr policy] ;;;
    _ <- call_bool_sec (DeletePolicy policy) (delete_policy secondary policy) ;;
    ret tt
  else ret tt.

(** A [for] loop whose body updates no local. *)
Fixpoint for_each_ {A} (xs : list A) (body : A -> M unit) : M unit :=
  match xs with
  | [] => ret tt
  | x :: xs' => body x ;;; for_each_ xs' body
  end.

Definition _clear_secondary : M bool :=
  log INFO "Clearing secondary cluster data" [] ;;;
  try_except
    (secret_engines <- call_read_sec ListSecretEngines Listing
       (list_secret_engines secondary) ;;
     for_each_ secret_engines clear_engine ;;;
     auth_methods <- call_read_sec ListAuthMethods Listing
       (list_auth_methods secondary) ;;
     for_each_ auth_methods clear_auth ;;;
     policies <- call_read_sec ListPolicies Keys (list_policies secondary) ;;
     for_each_ policies clear_policy ;;;
     log INFO "Secondary cluster cleared successfully" [] ;;;
     ret true)
    (fun e =>
       log ERROR "Failed to clear secondary cluster: {e}" [PyStr e] ;;;
       ret false).

Definition sync_engine (item : string * pyval) (success : bool) : M bool :=
  let '(path, config) := item in
  if should_exclude_path path then
    log DEBUG "Skipping excluded secret engine: {path}" [PyStr path] ;;;
    ret success
  else if startswith path "sys/" || startswith path "identity/" then
    ret success
  else
    engine_type <- config_get config "type" ;;
    match engine_type with
    | Some ty =>
        if negb (truthy ty) then
          log WARNING "No type found for secret engine: {path}" [PyStr path] ;;;
          ret success
        else
          log INFO "Enabling secret engine: {path} (type: {engine_type})"
            [PyStr path; ty] ;;;
          d <- config_get_default config "description" (PyStr "") ;;
          cf <- config_get_default config "config" (PyDict []) ;;
          o <- config_get_default config "options" (PyDict []) ;;
          let engine_config :=
            [("description", d); ("config", cf); ("options", o)] in
          ok <- call_bool_sec
                  (EnableSecretEngine (rstrip_slash path) ty engine_config)
                  (enable_secret_engine secondary (rstrip_slash path) ty
                     engine_config) ;;
          ret (if negb ok then false else success)
    | None =>
        log WARNING "No type found for secret engine: {path}" [PyStr path] ;;;
        ret success
    end.

Definition _sync_secret_engines : M bool :=
  log INFO "Syncing secret engines" [] ;;;
  try_except
    (primary_engines <- call_read_pri ListSecretEngines Listing
       (list_secret_engines primary) ;;
     for_each primary_engines sync_engine true)
    (fun e =>
       log ERROR "Failed to sync secret engines: {e}" [PyStr e] ;;;
       ret false).

Definition sync_auth (item : string * pyval) (success : bool) : M bool :=
  let '(path, config) := item in
  if should_exclude_path path then
    log DEBUG "Skipping excluded auth method: {path}" [PyStr path] ;;;
    ret success
  else if String.eqb path "token/" then
    ret success
  else
    auth_type <- config_get config "type" ;;
    match auth_type with
    | Some ty =>
        if negb (truthy ty) then
          log WARNING "No type found for auth method: {path}" [PyStr path] ;;;
          ret success
        else
          log INFO "Enabling auth method: {path} (type: {auth_type})"
            [PyStr path; ty] ;;;
          d <- config_get_default config "description" (PyStr "") ;;
          cf <- config_get_default config "config" (PyDict []) ;;
          let auth_config := [("description", d); ("config", cf)] in
          ok <- call_bool_sec
                  (EnableAuthMethod (rstrip_slash path) ty auth_config)
                  (enable_auth_method secondary (rstrip_slash path) ty
                     auth_config) ;;
          ret (if negb ok then false else success)
    | None =>
        log WARNING "No type found for auth method: {path}" [PyStr path] ;;;
        ret success
    end.

Definition _sync_auth_methods : M bool :=
  log INFO "Syncing auth methods" [] ;;;
  try_except
    (primary_auth <- call_read_pri ListAuthMethods Listing
       (list_auth_methods primary) ;;
     for_each primary_auth sync_auth true)
    (fun e =>
       log ERROR "Failed to sync auth methods: {e}" [PyStr e] ;;;
       ret false).

Definition sync_policy (policy_name : string) (success : bool) : M bool :=
  if in_system_policies policy_name then ret success
  else
    policy_content <- call_read_pri (ReadPolicy policy_name) Policy
                        (read_policy primary policy_name) ;;
    match policy_content with
    | None =>
        log WARNING "Could not read policy: {policy_name}"
          [PyStr policy_name] ;;;
        ret success
    | Some content =>
        log INFO "Syncing policy: {policy_name}" [PyStr policy_name] ;;;
        ok <- call_bool_sec (WritePolicy policy_name content)
                (write_policy secondary policy_name content) ;;
        ret (if negb ok then false else success)
    end.

Definition _sync_policies : M bool :=
  log INFO "Syncing policies" [] ;;;
  try_except
    (primary_policies <- call_read_pri ListPolicies Keys (list_policies primary) ;;
     for_each primary_policies sync_policy true)
    (fun e =>
       log ERROR "Failed to sync policies: {e}" [PyStr e] ;;;
       ret false).

(** [if secret_data:] on an [Optional[Dict[str, Any]]] *)
Definition secret_truthy (secret_data : option dict) : bool :=
  match secret_data with
  | None => false
  | Some d => truthy (PyDict d)
  end.

(** The body of the [for key in keys] loop of [_sync_secrets_recursive];
    [recurse] is the method itself, one level deeper. *)
Definition sync_key (recurse : string -> string -> M bool)
           (mount_path sub_path full_path key : string) (success : bool)
  : M bool :=
  let current_path := strip_slash (join_slash full_path key) in
  if endswith_slash key then
    r <- recurse mount_path (strip_slash (join_slash sub_path key)) ;;
    ret (if negb r then false else success)
  else
    log DEBUG "Syncing secret: {current_path}" [PyStr current_path] ;;;
    secret_data <- call_read_pri (ReadSecret current_path) Secret
                     (read_secret primary current_path) ;;
    match secret_data with
    | Some d =>
        if secret_truthy secret_data then
          ok <- call_bool_sec (WriteSecret current_path d)
                  (write_secret secondary current_path d) ;;
          if negb ok then
            log ERROR "Failed to write secret: {current_path}"
              [PyStr current_path] ;;;
            ret false
          else ret success
        else
          log WARNING "Could not read secret: {current_path}"
            [PyStr current_path] ;;;
          ret success
    | None =>
        log WARNING "Could not read secret: {current_path}"
          [PyStr current_path] ;;;
        ret success
    end.

(** [fuel] bounds the depth of the recursion; the method proper has no
    bound of its own. *)
Fixpoint _sync_secrets_recursive (fuel : nat) (mount_path sub_path : string)
  : M bool :=
  match fuel with
  | O => out_of_fuel
  | S fuel' =>
      let full_path := rstrip_slash (join_slash mount_path sub_path) in
      try_except
        (keys <- call_read_pri (ListSecrets full_path) Keys
                   (list_secrets primary full_path) ;;
         for_each keys
           (sync_key (_sync_secrets_recursive fuel') mount_path sub_path
              full_path)
           true)
        (fun e =>
           log ERROR "Failed to sync secrets in path {full_path}: {e}"
             [PyStr full_path; PyStr e] ;;;
           ret false)
  end.

Definition sync_mount (fuel : nat) (item : string * pyval) (success : bool)
  : M bool :=
  let mount_path := fst item in
  if should_exclude_path mount_path then ret success
  else if startswith mount_path "sys/" || startswith mount_path "identity/"
  then ret success
  else
    log INFO "Syncing secrets from mount: {mount_path}" [PyStr mount_path] ;;;
    r <- _sync_secrets_recursive fuel (rstrip_slash mount_path) "" ;;
    ret (if negb r then false else success).

Definition _sync_secrets (fuel : nat) : M bool :=
  log INFO "Syncing secrets" [] ;;;
  try_except
    (secret_engines <- call_read_pri ListSecretEngines Listing
       (list_secret_engines primary) ;;
     for_each secret_engines (sync_mount fuel) true)
    (fun e =>
       log ERROR "Failed to sync secrets: {e}" [PyStr e] ;;;
       ret false).

Definition full_sync (fuel : nat) : M bool :=
  log INFO "Starting full synchronization" [] ;;;
  h <- _health_check ;;
  if negb h then ret false
  else
    cleared <- _clear_secondary ;;
    if negb cleared then ret false
    else
      let success := true in
      r1 <- _sync_secret_engines ;;
      let success := andb success r1 in
      r2 <- _sync_auth_methods ;;
      let success := andb success r2 in
      r3 <- _sync_policies ;;
      let success := andb success r3 in
      r4 <- _sync_secrets fuel ;;
      let success := andb success r4 in
      (if success
       then log INFO "Full synchronization completed successfully" []
       else log ERROR "Full synchronization completed with errors" []) ;;;
      ret success.

End Synchronizer.

Arguments Clusters {SP SS} pri sec.
Arguments pri {SP SS} c.
Arguments sec {SP SS} c.

(** ** Projections of a run *)

Definition res_of {A S} (x : result A * S * trace) : result A := fst (fst x).
Definition st_of {A S} (x : result A * S * trace) : S := snd (fst x).
Definition tr_of {A S} (x : result A * S * trace) : trace := snd x.

(** The calls of a trace sent to one client, with what they returned. *)
Fixpoint calls_to (t : target) (tr : trace) : list (call * answer) :=
  match tr with
  | [] => []
  | Call t' c a :: tr' =>
      match t, t' with
      | Primary, Primary | Secondary, Secondary => (c, a) :: calls_to t tr'
      | _, _ => calls_to t tr'
      end
  | Log _ _ _ :: tr' => calls_to t tr'
  end.

(** The mutating calls among them. *)
Definition mutations (cs : list (call * answer)) : list (call * answer) :=
  filter (fun x => mutating (fst x)) cs.

(** ** The secret hierarchy behind a mount

    The tree that the primary presents through [list_secrets] and
    [read_secret]: a leaf holds what reading it returns, an interior node
    holds the entries that listing it returns. *)

Inductive entry : Type :=
| Leaf (key : string) (data : option dict)
| Dir (key : string) (children : list entry).

Definition entry_key (e : entry) : string :=
  match e with
  | Leaf k _ => k
  | Dir k _ => k
  end.

Fixpoint depth (e : entry) : nat :=
  match e with
  | Leaf _ _ => 0
  | Dir _ ch => S (fold_right (fun e acc => Nat.max (depth e) acc) 0 ch)
  end.

Definition depth_all (es : list entry) : nat :=
  fold_right (fun e acc => Nat.max (depth e) acc) 0 es.

(** The paths that [_sync_secrets_recursive] computes: [full_path],
    [current_path], and the [sub_path] it passes down. *)
Definition full_path_of (mount_path sub_path : string) : string :=
  rstrip_slash (join_slash mount_path sub_path).

Definition current_path_of (full_path key : string) : string :=
  strip_slash (join_slash full_path key).

Definition sub_path_of (sub_path key : string) : string :=
  strip_slash (join_slash sub_path key).

Section Hierarchy.

Variable SP : Type.
Variable primary : Client SP.

(** In state [s] the primary serves entry [e] of the node at
    [mount_path]/[sub_path], and answering leaves [s] as it is. *)
Fixpoint presents_entry (s : SP) (mount_path sub_path : string) (e : entry)
  : Prop :=
  match e with
  | Leaf k d =>
      endswith_slash k = false /\
      read_secret primary
        (current_path_of (full_path_of mount_path sub_path) k) s
      = (Returns d, s)
  | Dir k ch =>
      let sub' := sub_path_of sub_path k in
      endswith_slash k = true /\
      list_secrets primary (full_path_of mount_path sub') s
      = (Returns (map entry_key ch), s) /\
      fold_right (fun e acc => presents_entry s mount_path sub' e /\ acc)
        True ch
  end.

Definition presents_all (s : SP) (mount_path sub_path : string)
           (es : list entry) : Prop :=
  fold_right (fun e acc => presents_entry s mount_path sub_path e /\ acc)
    True es.

(** The node at [mount_path]/[sub_path] lists as [es]. *)
Definition presents (s : SP) (mount_path sub_path : string) (es : list entry)
  : Prop :=
  list_secrets primary (full_path_of mount_path sub_path) s
  = (Returns (map entry_key es), s) /\
  presents_all s mount_path sub_path es.

End Hierarchy.

(** The calls one traversal of an entry sends to the primary ... *)
Fixpoint primary_calls (mount_path sub_path : string) (e : entry) : list call :=
  match e with
  | Leaf k _ =>
      [ReadSecret (current_path_of (full_path_of mount_path sub_path) k)]
  | Dir k ch =>
      let sub' := sub_path_of sub_path k in
      ListSecrets (full_path_of mount_path sub')
        :: flat_map (primary_calls mount_path sub') ch
  end.

(** ... and to the secondary. *)
Fixpoint secondary_calls (mount_path sub_path : string) (e : entry) : list call :=
  match e with
  | Leaf k d =>
      match d with
      | Some data =>
          if secret_truthy d
          then [WriteSecret
                  (current_path_of (full_path_of mount_path sub_path) k) data]
          else []
      | None => []
      end
  | Dir k ch => flat_map (secondary_calls mount_path (sub_path_of sub_path k)) ch
  end.

(** The paths of the leaves below an entry, left to right. *)
Fixpoint leaf_paths (mount_path sub_path : string) (e : entry) : list string :=
  match e with
  | Leaf k _ => [current_path_of (full_path_of mount_path sub_path) k]
  | Dir k ch => flat_map (leaf_paths mount_path (sub_path_of sub_path k)) ch
  end.

(** The paths read, and the paths written, in a list of calls. *)
Definition read_paths (cs : list call) : list string :=
  flat_map (fun c => match c with ReadSecret p => [p] | _ => [] end) cs.

Definition secret_paths (cs : list call) : list string :=
  flat_map (fun c => match c with
                     | ReadSecret p | ListSecrets p | WriteSecret p _ => [p]
                     | _ => []
                     end) cs.

(** The mounts that [_sync_secrets] and [_sync_secret_engines] go on to. *)
Definition included (exclude_paths : list string) (path : string) : bool :=
  negb (should_exclude_path exclude_paths path)
  && negb (startswith path "sys/" || startswith path "identity/").

(** ** An in-memory cluster

    A stand-in for a cluster behind the client interface, for running the
    synchronizer on concrete states.  [outage] is the number of coming
    mutating requests that fail before the cluster answers again. *)

Module InMemory.

Record cluster : Type := Cluster {
  healthy : bool;
  mounts : reply dict;
  auths : reply dict;
  policies : reply (list (string * string));
  listing : list (string * list string);
  secrets : list (string * dict);
  outage : nat
}.

Fixpoint lookup {V} (k : string) (m : list (string * V)) : option V :=
  match m with
  | [] => None
  | (k', v) :: m' => if String.eqb k' k then Some v else lookup k m'
  end.

Fixpoint remove {V} (k : string) (m : list (string * V)) : list (string * V) :=
  match m with
  | [] => []
  | (k', v) :: m' =>
      if String.eqb k' k then remove k m' else (k', v) :: remove k m'
  end.

Fixpoint upsert {V} (k : string) (v : V) (m : list (string * V))
  : list (string * V) :=
  match m with
  | [] => [(k, v)]
  | (k', v') :: m' =>
      if String.eqb k' k then (k, v) :: m' else (k', v') :: upsert k v m'
  end.

Definition on_reply {A} (f : A -> A) (r : reply A) : reply A :=
  match r with
  | Returns a => Returns (f a)
  | Raises e => Raises e
  end.

Definition map_reply {A B} (f : A -> B) (r : reply A) : reply B :=
  match r with
  | Returns a => Returns (f a)
  | Raises e => Raises e
  end.

(** A mutating request: refused while the outage lasts. *)
Definition mutate (f : cluster -> cluster) (s : cluster) : bool * cluster :=
  match outage s with
  | O => (true, f s)
  | S n => (false, Cluster (healthy s) (mounts s) (auths s) (policies s)
                     (listing s) (secrets s) n)
  end.

Definition set_mounts (f : dict -> dict) (s : cluster) : cluster :=
  Cluster (healthy s) (on_reply f (mounts s)) (auths s) (policies s)
    (listing s) (secrets s) (outage s).

Definition set_auths (f : dict -> dict) (s : cluster) : cluster :=
  Cluster (healthy s) (mounts s) (on_reply f (auths s)) (policies s)
    (listing s) (secrets s) (outage s).

Definition set_policies (f : list (string * string) -> list (string * string))
           (s : cluster) : cluster :=
  Cluster (healthy s) (mounts s) (auths s) (on_reply f (policies s))
    (listing s) (secrets s) (outage s).

Definition set_secrets (f : list (string * dict) -> list (string * dict))
           (s : cluster) : cluster :=
  Cluster (healthy s) (mounts s) (auths s) (policies s)
    (listing s) (f (secrets s)) (outage s).

Definition mount_entry (ty : pyval) (config : dict) : pyval :=
  PyDict (("type", ty) :: config).

Definition client : Client cluster := {|
  health_check := fun s => (healthy s, s);
  list_secrets := fun path s =>
    (Returns (match lookup path (listing s) with
              | Some keys => keys
              | None => []
              end), s);
  read_secret := fun path s => (Returns (lookup path (secrets s)), s);
  write_secret := fun path data => mutate (set_secrets (upsert path data));
  list_auth_methods := fun s => (auths s, s);
  enable_auth_method := fun path ty config =>
    mutate (set_auths (upsert (path ++ "/") (mount_entry ty config)));
  disable_auth_method := fun path => mutate (set_auths (remove (path ++ "/")));
  list_secret_engines := fun s => (mounts s, s);
  enable_secret_engine := fun path ty config =>
    mutate (set_mounts (upsert (path ++ "/") (mount_entry ty config)));
  disable_secret_engine := fun path =>
    mutate (set_mounts (remove (path ++ "/")));
  list_policies := fun s => (map_reply (map fst) (policies s), s);
  read_policy := fun name s =>
    (map_reply (lookup name) (policies s), s);
  write_policy := fun name policy => mutate (set_policies (upsert name policy));
  delete_policy := fun name => mutate (set_policies (remove name))
|}.

(** A healthy cluster with nothing mounted. *)
Definition empty : cluster :=
  Cluster true (Returns []) (Returns []) (Returns []) [] [] 0.

Definition kv (description : string) : pyval :=
  PyDict [("type", PyStr "kv"); ("description", PyStr description)].

End InMemory.


(** ** Invariants of a run

    [sat R P m]: from every state, [m] ends in a state related to the
    initial one by [R], having emitted only events that satisfy [P]. *)

Definition sat {SP SS A} (R : clusters SP SS -> clusters SP SS -> Prop)
           (P : event -> Prop) (m : M SP SS A) : Prop :=
  forall c, R c (st_of (m c)) /\ Forall P (tr_of (m c)).

(** The list, read and health-check methods of a client leave the state
    behind it as it is. *)
Record read_only {S} (C : Client S) : Prop := {
  ro_health_check : forall s, snd (health_check C s) = s;
  ro_list_secrets : forall p s, snd (list_secrets C p s) = s;
  ro_read_secret : forall p s, snd (read_secret C p s) = s;
  ro_list_auth_methods : forall s, snd (list_auth_methods C s) = s;
  ro_list_secret_engines : forall s, snd (list_secret_engines C s) = s;
  ro_list_policies : forall s, snd (list_policies C s) = s;
  ro_read_policy : forall n s, snd (read_policy C n s) = s
}.

(** When the reads of the primary change nothing, its state stays. *)
Definition keeps {SP SS} (primary : Client SP) (w w' : clusters SP SS) : Prop :=
  read_only primary -> pri w' = pri w.

(** No constraint between the states of a run. *)
Definition any_state {SP SS} (w w' : clusters SP SS) : Prop := True.

(** An event that is not a mutating call on the primary. *)
Definition spares_primary (ev : event) : Prop :=
  match ev with
  | Call Primary c _ => mutating c = false
  | _ => True
  end.

(** A computation that does not run out of fuel. *)
Definition halts {SP SS A} (m : M SP SS A) : Prop :=
  forall c, res_of (m c) <> OutOfFuel.

(** The calls of [_health_check] and [_clear_secondary] on the secondary. *)
Definition reset_call (c : call) : bool :=
  match c with
  | HealthCheck | ListSecretEngines | ListAuthMethods | ListPolicies
  | DisableSecretEngine _ | DisableAuthMethod _ | DeletePolicy _ => true
  | _ => false
  end.

(** An event of the reset: a log record or one of those calls, none on the
    primary. *)
Definition reset_event (ev : event) : Prop :=
  match ev with
  | Call Secondary c _ => reset_call c = true
  | Call Primary _ _ => False
  | Log _ _ _ => True
  end.

(** How [full_sync] ends after the four phases, from their results. *)
Definition conjunction (b1 b2 b3 : bool) (r4 : result bool) : result bool :=
  match r4 with
  | Ok b4 => Ok (b1 && b2 && b3 && b4)
  | Exc e => Exc e
  | OutOfFuel => OutOfFuel
  end.

Definition closing_log (b1 b2 b3 : bool) (r4 : result bool) : trace :=
  match r4 with
  | Ok b4 =>
      if b1 && b2 && b3 && b4
      then [Log INFO "Full synchronization completed successfully" []]
      else [Log ERROR "Full synchronization completed with errors" []]
  | _ => []
  end.

(** ** Sample clusters *)

Module Sample.
Import InMemory.

Definition primary_cluster : cluster :=
  Cluster true
    (Returns [("secret/", kv "application secrets");
              ("sys/", PyDict [("type", PyStr "system")])])
    (Returns [("token/", PyDict [("type", PyStr "token")]);
              ("approle/", PyDict [("type", PyStr "approle")])])
    (Returns [("root", ""); ("default", "path {}"); ("ops", "path ops {}")])
    [("secret", ["a"; "b/"]); ("secret/b", ["c"])]
    [("secret/a", [("value", PyStr "1")]);
     ("secret/b/c", [("value", PyStr "2")])]
    0.

Definition secondary_cluster : cluster :=
  Cluster true
    (Returns [("old/", kv "left over");
              ("sys/", PyDict [("type", PyStr "system")]);
              ("identity/", PyDict [("type", PyStr "identity")])])
    (Returns [("token/", PyDict [("type", PyStr "token")]);
              ("ldap/", PyDict [("type", PyStr "ldap")])])
    (Returns [("root", ""); ("default", "path {}"); ("custom1", "path x {}")])
    [] [] 0.

Definition world : clusters cluster cluster :=
  Clusters primary_cluster secondary_cluster.

Definition E : list string := ["sys/"; "identity/"].

(** The same secondary, answering its mounts listing with a malformed
    payload. *)
Definition broken_secondary : cluster :=
  Cluster true (Raises "'NoneType' object has no attribute 'items'")
    (auths secondary_cluster) (policies secondary_cluster) [] [] 0.

(** The same secondary, unhealthy. *)
Definition sick_secondary : cluster :=
  Cluster false (mounts secondary_cluster)
    (auths secondary_cluster) (policies secondary_cluster) [] [] 0.

Definition run := full_sync client client E 4 world.

(** The hierarchy behind the mounts of the primary. *)
Definition tree (path : string) : list entry :=
  if String.eqb path "secret/" then
    [Leaf "a" (Some [("value", PyStr "1")]);
     Dir "b/" [Leaf "c" (Some [("value", PyStr "2")])]]
  else [].

(** The same secondary, refusing the next mutating request. *)
Definition flaky_secondary : cluster :=
  Cluster true (Returns []) (Returns []) (Returns []) [] [] 1.

End Sample.

(** ** Protected objects *)

(** A system mount: the [sys/] and [identity/] prefixes. *)
Definition engine_protected (path : string) : bool :=
  startswith path "sys/" || startswith path "identity/".

(** The auth methods that [_clear_secondary] keeps. *)
Definition auth_protected (path : string) : bool :=
  String.eqb path "token/" || startswith path "sys/".







(** ** What the configuration replicators apply *)

(** The events of the engine loop over the listing [L]: log records, and
    an enable for a listed mount that is neither excluded nor a system
    mount. *)
Definition engine_applied (E : list string) (L : dict) (ev : event) : Prop :=
  match ev with
  | Log _ _ _ => True
  | Call Secondary (EnableSecretEngine p _ _) _ =>
      exists path v,
        In (path, v) L /\ p = rstrip_slash path /\
        engine_protected path = false /\ should_exclude_path E path = false
  | _ => False
  end.

(** The same for the auth loop, which keeps off [token/]. *)
Definition auth_applied (E : list string) (L : dict) (ev : event) : Prop :=
  match ev with
  | Log _ _ _ => True
  | Call Secondary (EnableAuthMethod p _ _) _ =>
      exists path v,
        In (path, v) L /\ p = rstrip_slash path /\
        String.eqb path "token/" = false /\ should_exclude_path E path = false
  | _ => False
  end.

(** The policy loop reads and writes listed policies other than [root]
    and [default]. *)
Definition policy_applied (L : list string) (ev : event) : Prop :=
  match ev with
  | Log _ _ _ => True
  | Call Primary (ReadPolicy n) _ => In n L /\ in_system_policies n = false
  | Call Secondary (WritePolicy n _) _ => In n L /\ in_system_policies n = false
  | _ => False
  end.

(** The reading of "no protected object is applied": none of the mounts
    and auth methods that the primary lists under [sys/], of its
    [identity/] mounts and of its [token/] auth method gets an enable, and
    [root] and [default] get no write. *)
Definition applies_no_protected (tr : trace) : Prop :=
  (forall L path v ty cfg a,
      In (Call Primary ListSecretEngines (Listing L)) tr -> In (path, v) L ->
      engine_protected path = true ->
      ~ In (Call Secondary (EnableSecretEngine (rstrip_slash path) ty cfg) a)
          tr) /\
  (forall L path v ty cfg a,
      In (Call Primary ListAuthMethods (Listing L)) tr -> In (path, v) L ->
      startswith path "sys/" = true \/ path = "token/" ->
      ~ In (Call Secondary (EnableAuthMethod (rstrip_slash path) ty cfg) a)
          tr) /\
  (forall name doc a,
      in_system_policies name = true ->
      ~ In (Call Secondary (WritePolicy name doc) a) tr).

Module SampleAuth.
Import InMemory.

(** A primary with an auth method mounted under [sys/]. *)
Definition primary_cluster : cluster :=
  Cluster true (Returns [])
    (Returns [("token/", PyDict [("type", PyStr "token")]);
              ("sys/ldap/", PyDict [("type", PyStr "ldap")])])
    (Returns []) [] [] 0.

Definition world : clusters cluster cluster :=
  Clusters primary_cluster empty.

End SampleAuth.

(** ** Running the reset twice *)

(** The reading of "a second reset is a no-op": after a first reset that
    returned true, a second one returns true and either sends no disable
    and no delete, or leaves the secondary as it found it. *)
Definition second_reset_is_noop {SP SS} (secondary : Client SS)
           (c : clusters SP SS) : Prop :=
  let first := _clear_secondary secondary c in
  let second := _clear_secondary secondary (st_of first) in
  res_of first = Ok true ->
  res_of second = Ok true /\
  (mutations (calls_to Secondary (tr_of second)) = [] \/
   sec (st_of second) = sec (st_of first)).

Module SampleFlaky.
Import InMemory.

(** A secondary with one user mount, whose next mutating request fails. *)
Definition secondary_cluster : cluster :=
  Cluster true (Returns [("old/", kv "left over")]) (Returns []) (Returns [])
    [] [] 1.

Definition world : clusters cluster cluster :=
  Clusters empty secondary_cluster.

End SampleFlaky.

Module SampleEmptySecret.
Import InMemory.

(** A primary that holds a secret with an empty payload. *)
Definition primary_cluster : cluster :=
  Cluster true (Returns [("secret/", kv "")]) (Returns []) (Returns [])
    [("secret", ["empty"; "gone"])] [("secret/empty", [])] 0.

Definition world : clusters cluster cluster :=
  Clusters primary_cluster empty.

End SampleEmptySecret.

(** ** What a best-effort phase attempts *)

(** The call returned [True]. *)
Definition succeeded (x : call * answer) : bool :=
  match snd x with
  | Bool b => b
  | _ => false
  end.

(** [config.get('type')], when it is there and truthy. *)
Definition type_of (d : dict) : option pyval :=
  match dict_get d "type" with
  | Some ty => if truthy ty then Some ty else None
  | None => None
  end.

(** The enable that [_sync_secret_engines] sends for one listed mount. *)
Definition engine_enable (E : list string) (item : string * pyval) : list call :=
  let '(path, config) := item in
  if included E path then
    match config with
    | PyDict d =>
        match type_of d with
        | Some ty =>
            [EnableSecretEngine (rstrip_slash path) ty
               [("description", dict_get_default d "description" (PyStr ""));
                ("config", dict_get_default d "config" (PyDict []));
                ("options", dict_get_default d "options" (PyDict []))]]
        | None => []
        end
    | _ => []
    end
  else [].





(** A listed value on which [config.get] works. *)
Definition is_dict (v : pyval) : Prop :=
  match v with
  | PyDict _ => True
  | _ => False
  end.

(** The reading of "no excluded path is touched": no secret path listed,
    read or written in the trace starts with a member of [E]. *)
Definition touches_no_excluded_path (E : list string) (tr : trace) : Prop :=
  forall p,
    In p (secret_paths (map fst (calls_to Primary tr)
                        ++ map fst (calls_to Secondary tr))) ->
    should_exclude_path E p = false.

(** The calls of the traversal of one mount whose root lists as [es]. *)
Definition mount_primary_calls (E : list string)
           (tree : string -> list entry) (item : string * pyval) : list call :=
  if included E (fst item) then
    ListSecrets (full_path_of (rstrip_slash (fst item)) "")
      :: flat_map (primary_calls (rstrip_slash (fst item)) "")
           (tree (fst item))
  else [].

Definition mount_secondary_calls (E : list string)
           (tree : string -> list entry) (item : string * pyval) : list call :=
  if included E (fst item) then
    flat_map (secondary_calls (rstrip_slash (fst item)) "") (tree (fst item))
  else [].

Definition mount_leaf_paths (E : list string)
           (tree : string -> list entry) (item : string * pyval)
  : list string :=
  if included E (fst item) then
    flat_map (leaf_paths (rstrip_slash (fst item)) "") (tree (fst item))
  else [].

(** ** Further behaviour of the synchronizer *)




Module SampleUntyped.
Import InMemory.

(** A primary whose first mount has no type and whose second mount is
    listed with a string where its description record should be. *)
Definition primary_cluster : cluster :=
  Cluster true
    (Returns [("kv/", PyDict [("description", PyStr "no type")]);
              ("odd/", PyStr "not a record");
              ("late/", kv "never reached")])
    (Returns []) (Returns []) [] [] 0.

Definition world : clusters cluster cluster :=
  Clusters primary_cluster empty.

End SampleUntyped.

(** ** Paths *)

(** A path with no slash at either end. *)
Definition clean (s : string) : Prop :=
  startswith s "/" = false /\ endswith_slash s = false.

(** * Configuration ([replication/config.py]) *)

Module Config.

(** [d[k] = v]: an existing key keeps its place, a new one goes last. *)
Fixpoint dict_set (d : dict) (k : string) (v : pyval) : dict :=
  match d with
  | [] => [(k, v)]
  | (k', v') :: d' =>
      if String.eqb k' k then (k, v) :: d' else (k', v') :: dict_set d' k v
  end.

Definition _load_default_config : dict :=
  [("primary", PyDict [("url", PyStr "https://localhost:8201");
                       ("token", PyStr "")]);
   ("secondary", PyDict [("url", PyStr "https://localhost:8202");
                         ("token", PyStr "")]);
   ("replication", PyDict [("sync_interval", PyInt 300);
                           ("verify_ssl", PyBool false);
                           ("timeout", PyInt 30);
                           ("exclude_paths",
                            PyList [PyStr "sys/"; PyStr "identity/"])]);
   ("logging", PyDict [("level", PyStr "INFO");
                       ("file", PyStr "replication.log")])].

(** [_merge_config(base, override)] for an [override] that is a dict;
    the result is [base] after the call. *)
Fixpoint merge_into (override : pyval) (base : dict) {struct override} : dict :=
  match override with
  | PyDict items =>
      (fix loop (items : list (string * pyval)) (base : dict) {struct items}
         : dict :=
         match items with
         | [] => base
         | (key, value) :: rest =>
             loop rest
               (match dict_get base key, value with
                | Some (PyDict b), PyDict _ =>
                    dict_set base key (PyDict (merge_into value b))
                | _, _ => dict_set base key value
                end)
         end) items base
  | _ => base
  end.

Definition _merge_config (base override : dict) : dict :=
  merge_into (PyDict override) base.

(** What one item of the override does to [base]. *)
Definition merge_item (base : dict) (key : string) (value : pyval) : dict :=
  match dict_get base key, value with
  | Some (PyDict b), PyDict o => dict_set base key (PyDict (_merge_config b o))
  | _, _ => dict_set base key value
  end.

(** [get] along [keys], from [value] on. *)
Fixpoint get_from (value : pyval) (keys : list string) : reply pyval :=
  match keys with
  | [] => Returns value
  | key :: rest =>
      match value with
      | PyDict d =>
          match dict_get d key with
          | None | Some PyNone => Returns PyNone
          | Some v => get_from v rest
          end
      | _ => Raises "object has no attribute 'get'"
      end
  end.

Definition get (config : dict) (keys : list string) : reply pyval :=
  get_from (PyDict config) keys.

Definition required_fields : list (string * string) :=
  [("primary", "url"); ("primary", "token");
   ("secondary", "url"); ("secondary", "token")].

Fixpoint validate_fields (config : dict) (fields : list (string * string))
  : reply bool :=
  match fields with
  | [] => Returns true
  | (section, key) :: rest =>
      match get config [section; key] with
      | Raises e => Raises e
      | Returns v =>
          if negb (truthy v)
          then Raises ("Missing required configuration: "
                         ++ section ++ "." ++ key)
          else validate_fields config rest
      end
  end.

Definition validate (config : dict) : reply bool :=
  validate_fields config required_fields.

Definition env_mappings : list (string * (string * string)) :=
  [("OPENBAO_PRIMARY_URL", ("primary", "url"));
   ("OPENBAO_PRIMARY_TOKEN", ("primary", "token"));
   ("OPENBAO_SECONDARY_URL", ("secondary", "url"));
   ("OPENBAO_SECONDARY_TOKEN", ("secondary", "token"));
   ("OPENBAO_SYNC_INTERVAL", ("replication", "sync_interval"));
   ("OPENBAO_VERIFY_SSL", ("replication", "verify_ssl"));
   ("OPENBAO_TIMEOUT", ("replication", "timeout"));
   ("OPENBAO_LOG_LEVEL", ("logging", "level"));
   ("OPENBAO_LOG_FILE", ("logging", "file"))].

(** [x in xs] on strings. *)
Definition str_in (x : string) (xs : list string) : bool :=
  existsb (String.eqb x) xs.

(** [config[section][key] = value] *)
Definition set_nested (config : dict) (section key : string) (value : pyval)
  : reply dict :=
  match dict_get config section with
  | None => Raises ("KeyError: " ++ section)
  | Some (PyDict d) =>
      Returns (dict_set config section (PyDict (dict_set d key value)))
  | Some _ => Raises "object does not support item assignment"
  end.

Section Environment.

(** [os.getenv], once [load_dotenv()] has run. *)
Variable getenv : string -> option string.
(** [int(s)]: [None] when it raises [ValueError]. *)
Variable py_int : string -> option Z.
(** [s.lower()] *)
Variable py_lower : string -> string.
(** The parsed content of a file, for the paths that exist:
    [yaml.safe_load(open(path))]. *)
Variable read_yaml : string -> option (reply pyval).

(** The value that [_load_env_config] stores for [env_var]. *)
Definition env_value (env_var value : string) : reply pyval :=
  if str_in env_var ["OPENBAO_SYNC_INTERVAL"; "OPENBAO_TIMEOUT"] then
    match py_int value with
    | Some n => Returns (PyInt n)
    | None => Raises "invalid literal for int()"
    end
  else if String.eqb env_var "OPENBAO_VERIFY_SSL" then
    Returns (PyBool (str_in (py_lower value) ["true"; "1"; "yes"; "on"]))
  else Returns (PyStr value).

Fixpoint load_env (mappings : list (string * (string * string)))
         (config : dict) : reply dict :=
  match mappings with
  | [] => Returns config
  | (env_var, (section, key)) :: rest =>
      match getenv env_var with
      | Some value =>
          match env_value env_var value with
          | Raises e => Raises e
          | Returns v =>
              match set_nested config section key v with
              | Raises e => Raises e
              | Returns config' => load_env rest config'
              end
          end
      | None => load_env rest config
      end
  end.

Definition _load_env_config (config : dict) : reply dict :=
  load_env env_mappings config.

(** [ReplicationConfig(config_file)]: the [config] attribute of the new
    object. *)
Definition __init__ (config_file : option string) : reply dict :=
  let config := _load_default_config in
  let exists_ :=
    match config_file with
    | Some path => if String.eqb path "" then None else read_yaml path
    | None => None
    end in
  match exists_ with
  | Some (Raises e) => Raises e
  | Some (Returns (PyDict file_config)) =>
      _load_env_config (_merge_config config file_config)
  | Some (Returns _) => Raises "object has no attribute 'items'"
  | None => _load_env_config config
  end.

End Environment.

(** A dict whose keys are pairwise distinct, at every depth reached
    through dict values. *)
Fixpoint well_formed (v : pyval) : Prop :=
  match v with
  | PyDict d =>
      NoDup (map fst d) /\
      (fix all (d : list (string * pyval)) : Prop :=
         match d with
         | [] => True
         | (_, v) :: d' => well_formed v /\ all d'
         end) d
  | _ => True
  end.

(** A sample environment and a sample file. *)
Definition sample_env (name : string) : option string :=
  if String.eqb name "OPENBAO_PRIMARY_TOKEN" then Some "s.primary"
  else if String.eqb name "OPENBAO_SECONDARY_TOKEN" then Some "s.secondary"
  else if String.eqb name "OPENBAO_VERIFY_SSL" then Some "yes"
  else if String.eqb name "OPENBAO_TIMEOUT" then Some "10"
  else None.

Definition sample_int (s : string) : option Z :=
  if String.eqb s "10" then Some 10%Z
  else if String.eqb s "60" then Some 60%Z
  else None.

Definition sample_lower (s : string) : string := s.

Definition sample_file : dict :=
  [("primary", PyDict [("url", PyStr "https://bao-a:8200")]);
   ("replication", PyDict [("exclude_paths", PyList [PyStr "sys/"]);
                           ("timeout", PyInt 5)]);
   ("notes", PyStr "managed by ops")].

Definition sample_yaml (path : string) : option (reply pyval) :=
  if String.eqb path "config.yaml" then Some (Returns (PyDict sample_file))
  else None.

End Config.

(** * The client over its transport ([replication/client.py])

    [OpenBaoClient] above a [requests] session.  The session is a state
    machine that answers a request with a response or raises; a response
    carries its status code, its text and what [response.json()] gives.
    The methods return what the Python methods return, as Python values. *)

Module OpenBaoClient.

(** The exceptions that matter to the [except] clauses of the client. *)
Inductive error : Type :=
| RequestException (msg : string)
| OtherException (msg : string).

Inductive outcome (A : Type) : Type :=
| Value (a : A)
| Failed (e : error).
Arguments Failed {A} e.

Record response : Type := {
  status_code : Z;
  text : string;
  json : outcome pyval
}.

(** The keyword arguments that the methods pass down. *)
Record kwargs : Type := {
  kw_params : option dict;
  kw_json : option dict;
  kw_verify : option bool;
  kw_timeout : option Z
}.

Definition no_kwargs : kwargs := Build_kwargs None None None None.

(** A request as the session receives it. *)
Record request : Type := {
  r_method : string;
  r_url : string;
  r_headers : list (string * string);
  r_params : option dict;
  r_json : option dict;
  r_verify : bool;
  r_timeout : Z
}.

Inductive hevent : Type :=
| Sent (r : request)
| Logged (l : level) (msg : string) (args : list pyval).

(** The attributes of a client object. *)
Record client : Type := {
  url : string;
  token : string;
  verify_ssl : bool;
  timeout : Z
}.

(** [OpenBaoClient(url, token, verify_ssl, timeout)] *)
Definition __init__ (url token : string) (verify_ssl : bool) (timeout : Z)
  : client :=
  Build_client (rstrip_slash url) token verify_ssl timeout.

(** The headers that [__init__] puts on the session. *)
Definition session_headers (c : client) : list (string * string) :=
  [("X-Vault-Token", token c); ("Content-Type", "application/json")].

(** [response.raise_for_status()] raises for the client and server error
    codes. *)
Definition raises_for_status (status : Z) : bool :=
  ((400 <=? status) && (status <? 600))%Z.

Section Transport.

(** The state behind the session. *)
Variable S : Type.
(** [session.request(method, url, **kwargs)] *)
Variable send : request -> S -> outcome response * S.
(** [urllib.parse.urljoin] *)
Variable urljoin : string -> string -> string.

Variable self : client.

Definition H (A : Type) : Type := S -> outcome A * S * list hevent.

Definition hret {A} (a : A) : H A := fun s => (Value a, s, []).

Definition hfail {A} (e : error) : H A := fun s => (Failed e, s, []).

Definition hbind {A B} (m : H A) (f : A -> H B) : H B :=
  fun s =>
    match m s with
    | (Value a, s1, t1) => let '(r, s2, t2) := f a s1 in (r, s2, t1 ++ t2)
    | (Failed e, s1, t1) => (Failed e, s1, t1)
    end.

Definition hlog (l : level) (msg : string) (args : list pyval) : H unit :=
  fun s => (Value tt, s, [Logged l msg args]).

(** [try: m  except requests.exceptions.RequestException as e: h e] *)
Definition except_request {A} (m : H A) (h : string -> H A) : H A :=
  fun s =>
    match m s with
    | (Failed (RequestException e), s1, t1) =>
        let '(r, s2, t2) := h e s1 in (r, s2, t1 ++ t2)
    | other => other
    end.

Notation "x <- m ;; k" := (hbind m (fun x => k))
  (at level 61, m at next level, right associativity).
Notation "m ;;; k" := (hbind m (fun _ => k))
  (at level 61, right associativity).

(** [kwargs.setdefault(...)] twice, and the call on the session. *)
Definition build_request (method path : string) (kw : kwargs) : request :=
  {| r_method := method;
     r_url := urljoin (url self ++ "/") (lstrip_slash path);
     r_headers := session_headers self;
     r_params := kw_params kw;
     r_json := kw_json kw;
     r_verify := match kw_verify kw with
                 | Some v => v
                 | None => verify_ssl self
                 end;
     r_timeout := match kw_timeout kw with
                  | Some t => t
                  | None => timeout self
                  end |}.

Definition session_request (r : request) : H response :=
  fun s => let '(o, s') := send r s in (o, s', [Sent r]).

(** The error of [raise_for_status()] is a request error; of its text,
    which only the log records show, the model keeps the class name. *)
Definition _make_request (method path : string) (kw : kwargs) : H response :=
  let r := build_request method path kw in
  hlog DEBUG "{method} {url}" [PyStr method; PyStr (r_url r)] ;;;
  resp <- session_request r ;;
  if (400 <=? status_code resp)%Z then
    hlog ERROR
      "Request failed: {method} {url} - {response.status_code} - {response.text}"
      [PyStr method; PyStr (r_url r); PyInt (status_code resp);
       PyStr (text resp)] ;;;
    if raises_for_status (status_code resp)
    then hfail (RequestException "HTTPError")
    else hret resp
  else hret resp.

(** [if data:] on an [Optional[Dict]] *)
Definition data_truthy (data : option dict) : bool :=
  match data with
  | Some (_ :: _) => true
  | _ => false
  end.

Definition with_json (data : option dict) (kw : kwargs) : kwargs :=
  if data_truthy data
  then Build_kwargs (kw_params kw) data (kw_verify kw) (kw_timeout kw)
  else kw.

Definition get (path : string) (kw : kwargs) : H response :=
  _make_request "GET" path kw.

Definition post (path : string) (data : option dict) (kw : kwargs)
  : H response :=
  _make_request "POST" path (with_json data kw).

Definition put (path : string) (data : option dict) (kw : kwargs)
  : H response :=
  _make_request "PUT" path (with_json data kw).

Definition delete (path : string) (kw : kwargs) : H response :=
  _make_request "DELETE" path kw.

(** [response.json()] *)
Definition json_of (resp : response) : H pyval :=
  fun s => (json resp, s, []).

(** [v.get(k, default)]: an attribute error unless [v] is a dict. *)
Definition py_get (v : pyval) (k : string) (default : pyval) : H pyval :=
  match v with
  | PyDict d => hret (dict_get_default d k default)
  | _ => hfail (OtherException "object has no attribute 'get'")
  end.

Definition list_secrets (path : string) : H pyval :=
  except_request
    (resp <- get ("v1/" ++ path)
               (Build_kwargs (Some [("list", PyStr "true")]) None None None) ;;
     data <- json_of resp ;;
     d <- py_get data "data" (PyDict []) ;;
     py_get d "keys" (PyList []))
    (fun e =>
       hlog WARNING "Failed to list secrets at {path}: {e}"
         [PyStr path; PyStr e] ;;;
       hret (PyList [])).

Definition read_secret (path : string) : H pyval :=
  except_request
    (resp <- get ("v1/" ++ path) no_kwargs ;;
     json_of resp)
    (fun e =>
       hlog WARNING "Failed to read secret at {path}: {e}"
         [PyStr path; PyStr e] ;;;
       hret PyNone).

Definition write_secret (path : string) (data : dict) : H bool :=
  except_request
    (_ <- post ("v1/" ++ path) (Some data) no_kwargs ;;
     hret true)
    (fun e =>
       hlog ERROR "Failed to write secret to {path}: {e}"
         [PyStr path; PyStr e] ;;;
       hret false).

Definition delete_secret (path : string) : H bool :=
  except_request
    (_ <- delete ("v1/" ++ path) no_kwargs ;;
     hret true)
    (fun e =>
       hlog WARNING "Failed to delete secret at {path}: {e}"
         [PyStr path; PyStr e] ;;;
       hret false).

Definition list_auth_methods : H pyval :=
  except_request
    (resp <- get "v1/sys/auth" no_kwargs ;;
     data <- json_of resp ;;
     py_get data "data" (PyDict []))
    (fun e =>
       hlog ERROR "Failed to list auth methods: {e}" [PyStr e] ;;;
       hret (PyDict [])).

(** [data.update(config)] *)
Fixpoint dict_update (data config : dict) : dict :=
  match config with
  | [] => data
  | (k, v) :: rest => dict_update (Config.dict_set data k v) rest
  end.

(** The body of an enable request. *)
Definition enable_data (type : pyval) (config : option dict) : dict :=
  let data := [("type", type)] in
  if data_truthy config
  then match config with
       | Some cfg => dict_update data cfg
       | None => data
       end
  else data.

Definition enable_auth_method (path : string) (auth_type : pyval)
           (config : option dict) : H bool :=
  except_request
    (_ <- post ("v1/sys/auth/" ++ path)
            (Some (enable_data auth_type config)) no_kwargs ;;
     hret true)
    (fun e =>
       hlog ERROR "Failed to enable auth method {path}: {e}"
         [PyStr path; PyStr e] ;;;
       hret false).

Definition disable_auth_method (path : string) : H bool :=
  except_request
    (_ <- delete ("v1/sys/auth/" ++ path) no_kwargs ;;
     hret true)
    (fun e =>
       hlog WARNING "Failed to disable auth method {path}: {e}"
         [PyStr path; PyStr e] ;;;
       hret false).

Definition list_secret_engines : H pyval :=
  except_request
    (resp <- get "v1/sys/mounts" no_kwargs ;;
     data <- json_of resp ;;
     py_get data "data" (PyDict []))
    (fun e =>
       hlog ERROR "Failed to list secret engines: {e}" [PyStr e] ;;;
       hret (PyDict [])).

Definition enable_secret_engine (path : string) (engine_type : pyval)
           (config : option dict) : H bool :=
  except_request
    (_ <- post ("v1/sys/mounts/" ++ path)
            (Some (enable_data engine_type config)) no_kwargs ;;
     hret true)
    (fun e =>
       hlog ERROR "Failed to enable secret engine {path}: {e}"
         [PyStr path; PyStr e] ;;;
       hret false).

Definition disable_secret_engine (path : string) : H bool :=
  except_request
    (_ <- delete ("v1/sys/mounts/" ++ path) no_kwargs ;;
     hret true)
    (fun e =>
       hlog WARNING "Failed to disable secret engine {path}: {e}"
         [PyStr path; PyStr e] ;;;
       hret false).

Definition list_policies : H pyval :=
  except_request
    (resp <- get "v1/sys/policies/acl" no_kwargs ;;
     data <- json_of resp ;;
     d <- py_get data "data" (PyDict []) ;;
     py_get d "keys" (PyList []))
    (fun e =>
       hlog ERROR "Failed to list policies: {e}" [PyStr e] ;;;
       hret (PyList [])).

Definition read_policy (name : string) : H pyval :=
  except_request
    (resp <- get ("v1/sys/policies/acl/" ++ name) no_kwargs ;;
     data <- json_of resp ;;
     d <- py_get data "data" (PyDict []) ;;
     py_get d "policy" (PyStr ""))
    (fun e =>
       hlog WARNING "Failed to read policy {name}: {e}"
         [PyStr name; PyStr e] ;;;
       hret PyNone).

Definition write_policy (name policy : string) : H bool :=
  except_request
    (_ <- put ("v1/sys/policies/acl/" ++ name)
            (Some [("policy", PyStr policy)]) no_kwargs ;;
     hret true)
    (fun e =>
       hlog ERROR "Failed to write policy {name}: {e}"
         [PyStr name; PyStr e] ;;;
       hret false).

Definition delete_policy (name : string) : H bool :=
  except_request
    (_ <- delete ("v1/sys/policies/acl/" ++ name) no_kwargs ;;
     hret true)
    (fun e =>
       hlog WARNING "Failed to delete policy {name}: {e}"
         [PyStr name; PyStr e] ;;;
       hret false).

Definition health_check : H bool :=
  except_request
    (resp <- get "v1/sys/health" no_kwargs ;;
     hret (Z.eqb (status_code resp) 200))
    (fun e => hret false).

(** The method that a call of the synchronizer invokes, with its result
    as a Python value. *)
Definition as_bool (m : H bool) : H pyval := b <- m ;; hret (PyBool b).

Definition perform (c : call) : H pyval :=
  match c with
  | HealthCheck => as_bool health_check
  | ListSecrets path => list_secrets path
  | ReadSecret path => read_secret path
  | WriteSecret path data => as_bool (write_secret path data)
  | ListAuthMethods => list_auth_methods
  | EnableAuthMethod path ty config =>
      as_bool (enable_auth_method path ty (Some config))
  | DisableAuthMethod path => as_bool (disable_auth_method path)
  | ListSecretEngines => list_secret_engines
  | EnableSecretEngine path ty config =>
      as_bool (enable_secret_engine path ty (Some config))
  | DisableSecretEngine path => as_bool (disable_secret_engine path)
  | ListPolicies => list_policies
  | ReadPolicy name => read_policy name
  | WritePolicy name policy => as_bool (write_policy name policy)
  | DeletePolicy name => as_bool (delete_policy name)
  end.

End Transport.

(** The requests of a trace. *)
Definition sent (tr : list hevent) : list request :=
  flat_map (fun ev => match ev with Sent r => [r] | _ => [] end) tr.

(** A response that [_make_request] hands back. *)
Definition accepted (resp : response) : bool :=
  negb ((400 <=? status_code resp)%Z && raises_for_status (status_code resp)).

(** A sample session: it answers every request with the status and the
    document that its state holds, and counts the requests. *)
Definition sample_send (status : Z) (doc : outcome pyval)
           (r : request) (n : nat) : outcome response * nat :=
  (Value (Build_response status "" doc), S n).

Definition sample_down (r : request) (n : nat) : outcome response * nat :=
  (Failed (RequestException "connection refused"), S n).

Definition sample_urljoin (base path : string) : string := base ++ path.

Definition sample_client : client :=
  __init__ "https://bao-a:8200/" "s.token" false 30.

End OpenBaoClient.

(** * The command line ([openbao_replication.py])

    The configuration that [main] settles before it creates the clients:
    the [ReplicationConfig] object, the overrides from the parameters that
    click hands to [main], and [validate()]. *)

Module Main.

Inductive action : Type := sync | monitor | health.

(** The parameters of [main], as click gives them: the flag
    [--verify-ssl/--no-verify-ssl] is a [bool], [--sync-interval] an [int]
    and [--log-level] one of the four choices (each with a default); the
    other options are a string or [None]. *)
Record params : Type := {
  config : option string;
  p_action : action;
  primary_url : option string;
  primary_token : option string;
  secondary_url : option string;
  secondary_token : option string;
  verify_ssl : bool;
  sync_interval : Z;
  log_level : level;
  log_file : option string;
  dry_run : bool
}.

Definition level_name (l : level) : string :=
  match l with
  | DEBUG => "DEBUG"
  | INFO => "INFO"
  | WARNING => "WARNING"
  | ERROR => "ERROR"
  end.

(** [if x:] on a string or [None] *)
Definition given (x : option string) : bool :=
  match x with
  | Some s => negb (String.eqb s "")
  | None => false
  end.

Definition rbind {A B} (r : reply A) (f : A -> reply B) : reply B :=
  match r with
  | Returns a => f a
  | Raises e => Raises e
  end.

(** [if x: replication_config.config[section][key] = x] *)
Definition set_if_given (cfg : dict) (section key : string)
           (x : option string) : reply dict :=
  match x with
  | Some s =>
      if given x then Config.set_nested cfg section key (PyStr s)
      else Returns cfg
  | None => Returns cfg
  end.

Section Environment.

Variable getenv : string -> option string.
Variable py_int : string -> option Z.
Variable py_lower : string -> string.
Variable read_yaml : string -> option (reply pyval).

(** [main], from the loading of the configuration to [validate()]:
    the [config] attribute that the rest of [main] reads, or the
    exception that ends the run.  [verify_ssl is not None] holds of a
    [bool] and [if log_level:] of each of the four choices, so these two
    assignments always run; [if sync_interval:] fails for 0 only. *)
Definition main_configuration (p : params) : reply dict :=
  rbind (if given (config p)
         then Config.__init__ getenv py_int py_lower read_yaml (config p)
         else Config.__init__ getenv py_int py_lower read_yaml None)
    (fun c0 =>
  rbind (set_if_given c0 "primary" "url" (primary_url p)) (fun c1 =>
  rbind (set_if_given c1 "primary" "token" (primary_token p)) (fun c2 =>
  rbind (set_if_given c2 "secondary" "url" (secondary_url p)) (fun c3 =>
  rbind (set_if_given c3 "secondary" "token" (secondary_token p)) (fun c4 =>
  rbind (Config.set_nested c4 "replication" "verify_ssl"
           (PyBool (verify_ssl p))) (fun c5 =>
  rbind (if Z.eqb (sync_interval p) 0 then Returns c5
         else Config.set_nested c5 "replication" "sync_interval"
                (PyInt (sync_interval p))) (fun c6 =>
  rbind (Config.set_nested c6 "logging" "level"
           (PyStr (level_name (log_level p)))) (fun c7 =>
  rbind (set_if_given c7 "logging" "file" (log_file p)) (fun c8 =>
  rbind (Config.validate c8) (fun _ => Returns c8)))))))))).

End Environment.

(** A sample command line: the defaults of click and a secondary token. *)
Definition sample_params : params :=
  {| config := Some "config.yaml";
     p_action := sync;
     primary_url := None;
     primary_token := None;
     secondary_url := Some "https://bao-b:8200";
     secondary_token := None;
     verify_ssl := false;
     sync_interval := 300;
     log_level := INFO;
     log_file := None;
     dry_run := false |}.

End Main.

(** * Where the written data comes from

    [sourced_after seen tr]: every secret and every policy that [tr]
    writes to the secondary was read from the primary, under the same
    name and with the same content, earlier in [tr] or in [seen]. *)

Definition sourced_after (seen tr : trace) : Prop :=
  forall pre post c a,
    tr = pre ++ Call Secondary c a :: post ->
    match c with
    | WriteSecret path data =>
        In (Call Primary (ReadSecret path) (Secret (Some data))) (seen ++ pre)
    | WritePolicy name content =>
        In (Call Primary (ReadPolicy name) (Policy (Some content)))
           (seen ++ pre)
    | _ => True
    end.

Definition sourced {SP SS A} (m : M SP SS A) : Prop :=
  forall w, sourced_after [] (tr_of (m w)).

(** A call that hands data over. *)
Definition writes_data (c : call) : bool :=
  match c with
  | WriteSecret _ _ | WritePolicy _ _ => true
  | _ => false
  end.

(** * Properties *)

(** ** Path filter *)

Lemma startswith_iff (s pre : string) :
  startswith s pre = true <-> exists rest, s = (pre ++ rest)%string.
Proof.
  revert s. induction pre as [|c pre IH]; intros s; simpl.
  - split; [intros _; exists s; reflexivity | reflexivity].
  - destruct s as [|d s].
    + split; [discriminate | intros [rest H]; discriminate].
    + rewrite andb_true_iff, Ascii.eqb_eq, IH. split.
      * intros [-> [rest ->]]. exists rest. reflexivity.
      * intros [rest H]. injection H as -> ->. split; [reflexivity | eauto].
Qed.

Lemma should_exclude_in_iff (excludes : list string) (path : string) :
  should_exclude_in excludes path = true <->
  exists exclude, In exclude excludes /\ startswith path exclude = true.
Proof.
  induction excludes as [|e es IH]; simpl.
  - split; [discriminate | intros [x [[] _]]].
  - destruct (startswith path e) eqn:He.
    + split; [intros _; exists e; auto | reflexivity].
    + rewrite IH. split.
      * intros [x [Hin Hx]]. exists x. auto.
      * intros [x [[<- | Hin] Hx]]; [congruence | exists x; auto].
Qed.

(** C1: [should_exclude_path] answers true exactly when the path is some
    member of the exclusion set followed by a remainder, character for
    character; on an empty exclusion set it answers false for every path. *)
Theorem should_exclude_path_prefix (E : list string) (P : string) :
  (should_exclude_path E P = true <->
   exists e rest, In e E /\ P = (e ++ rest)%string) /\
  should_exclude_path [] P = false.
Proof.
  split; [| reflexivity].
  unfold should_exclude_path. rewrite should_exclude_in_iff. split.
  - intros [e [Hin Hpre]]. apply startswith_iff in Hpre as [rest ->].
    exists e, rest. auto.
  - intros [e [rest [Hin ->]]]. exists e. split; [assumption |].
    apply startswith_iff. eauto.
Qed.

(** The match is case-sensitive and the path is not normalised. *)
Example should_exclude_path_samples :
  should_exclude_path ["sys/"; "identity/"] "sys/auth" = true /\
  should_exclude_path ["sys/"; "identity/"] "identity/entity" = true /\
  should_exclude_path ["sys/"; "identity/"] "secret/myapp" = false /\
  should_exclude_path ["sys/"; "identity/"] "SYS/auth" = false /\
  should_exclude_path ["sys/"; "identity/"] "/sys/auth" = false /\
  should_exclude_path ["sys/"; "identity/"] "sys" = false.
Proof. repeat split. Qed.

(** ** Invariants of a run *)

Section Sat.

Variables SP SS : Type.
Variable R : clusters SP SS -> clusters SP SS -> Prop.
Variable P : event -> Prop.
Local Abbreviation sat := (sat R P).
Hypothesis R_refl : forall c, R c c.
Hypothesis R_trans : forall a b c, R a b -> R b c -> R a c.

Lemma sat_ret {A} (a : A) : sat (ret a).
Proof. intros c. split; [apply R_refl | constructor]. Qed.

Lemma sat_raise {A} (e : string) : sat (@raise SP SS A e).
Proof. intros c. split; [apply R_refl | constructor]. Qed.

Lemma sat_out_of_fuel {A} : sat (@out_of_fuel SP SS A).
Proof. intros c. split; [apply R_refl | constructor]. Qed.

Lemma sat_log l msg args : P (Log l msg args) -> sat (log l msg args).
Proof. intros H c. split; [apply R_refl | repeat constructor; exact H]. Qed.

Lemma sat_bind {A B} (m : M SP SS A) (f : A -> M SP SS B) :
  sat m -> (forall a, sat (f a)) -> sat (bind m f).
Proof.
  intros Hm Hf c. unfold bind. specialize (Hm c).
  destruct (m c) as [[r c1] t1]. unfold st_of, tr_of in *. simpl in Hm.
  destruct Hm as [HR HP]. destruct r as [a | e |]; simpl; auto.
  specialize (Hf a c1). destruct (f a c1) as [[r2 c2] t2]. simpl in *.
  destruct Hf as [HR2 HP2]. split; [eauto | apply Forall_app; auto].
Qed.

Lemma sat_try_except {A} (m : M SP SS A) (h : string -> M SP SS A) :
  sat m -> (forall e, sat (h e)) -> sat (try_except m h).
Proof.
  intros Hm Hh c. unfold try_except. specialize (Hm c).
  destruct (m c) as [[r c1] t1]. unfold st_of, tr_of in *. simpl in Hm.
  destruct Hm as [HR HP]. destruct r as [a | e |]; simpl; auto.
  specialize (Hh e c1). destruct (h e c1) as [[r2 c2] t2]. simpl in *.
  destruct Hh as [HR2 HP2]. split; [eauto | apply Forall_app; auto].
Qed.

Lemma sat_for_each {A} (xs : list A) (body : A -> bool -> M SP SS bool) :
  (forall x s, sat (body x s)) -> forall s, sat (for_each xs body s).
Proof.
  intros Hb. induction xs as [|x xs IH]; intros s; simpl.
  - apply sat_ret.
  - apply sat_bind; auto.
Qed.

Lemma sat_for_each_ {A} (xs : list A) (body : A -> M SP SS unit) :
  (forall x, sat (body x)) -> sat (for_each_ xs body).
Proof.
  intros Hb. induction xs as [|x xs IH]; simpl.
  - apply sat_ret.
  - apply sat_bind; auto.
Qed.

Lemma sat_call_bool_pri c f :
  (forall w, R w (Clusters (snd (f (pri w))) (sec w))) ->
  (forall ok, P (Call Primary c ok)) ->
  sat (call_bool_pri c f).
Proof.
  intros HR HP w. unfold call_bool_pri. specialize (HR w).
  destruct (f (pri w)) as [b s]. split; [exact HR | repeat constructor; auto].
Qed.

Lemma sat_call_bool_sec c f :
  (forall w, R w (Clusters (pri w) (snd (f (sec w))))) ->
  (forall ok, P (Call Secondary c ok)) ->
  sat (call_bool_sec c f).
Proof.
  intros HR HP w. unfold call_bool_sec. specialize (HR w).
  destruct (f (sec w)) as [b s]. split; [exact HR | repeat constructor; auto].
Qed.

Lemma sat_call_read_pri {A} c wrap (f : SP -> reply A * SP) :
  (forall w, R w (Clusters (snd (f (pri w))) (sec w))) ->
  (forall ok, P (Call Primary c ok)) ->
  sat (call_read_pri c wrap f).
Proof.
  intros HR HP w. unfold call_read_pri. specialize (HR w).
  destruct (f (pri w)) as [[a | e] s]; (split; [exact HR | repeat constructor; auto]).
Qed.

Lemma sat_call_read_sec {A} c wrap (f : SS -> reply A * SS) :
  (forall w, R w (Clusters (pri w) (snd (f (sec w))))) ->
  (forall ok, P (Call Secondary c ok)) ->
  sat (call_read_sec c wrap f).
Proof.
  intros HR HP w. unfold call_read_sec. specialize (HR w).
  destruct (f (sec w)) as [[a | e] s]; (split; [exact HR | repeat constructor; auto]).
Qed.

Lemma sat_config_get config k : sat (config_get config k).
Proof. destruct config; simpl; first [apply sat_ret | apply sat_raise]. Qed.

Lemma sat_config_get_default config k d : sat (config_get_default config k d).
Proof. destruct config; simpl; first [apply sat_ret | apply sat_raise]. Qed.

End Sat.

(** One step of a syntax-directed proof of [sat]; [side] closes the
    conditions on [R] and [P]. *)
Ltac sat_step side :=
  first
    [ apply sat_ret; side
    | apply sat_raise; side
    | apply sat_out_of_fuel; side
    | apply sat_config_get; side
    | apply sat_config_get_default; side
    | apply sat_log; side
    | apply sat_call_bool_pri; side
    | apply sat_call_bool_sec; side
    | apply sat_call_read_pri; side
    | apply sat_call_read_sec; side
    | apply sat_bind; [side .. | idtac | intros ?]
    | apply sat_try_except; [side .. | idtac | intros ?]
    | apply sat_for_each; [side .. | intros ? ?]
    | apply sat_for_each_; [side .. | intros ?]
    | match goal with
      | |- sat _ _ (if ?b then _ else _) => destruct b eqn:?
      | |- sat _ _ (match ?x with _ => _ end) => destruct x eqn:?
      | |- sat _ _ (let '(_, _) := ?x in _) => destruct x eqn:?
      end ].

Ltac sat_auto side := repeat sat_step side.

(** ** The primary is only read *)

Section PrimaryUntouched.

Variables SP SS : Type.
Variable primary : Client SP.
Variable secondary : Client SS.
Variable exclude_paths : list string.

Local Abbreviation keeps := (keeps (SS:=SS) primary).

Lemma keeps_trans a b c : keeps a b -> keeps b c -> keeps a c.
Proof. unfold keeps. intros Hab Hbc Hro. rewrite (Hbc Hro). exact (Hab Hro). Qed.

Local Ltac side :=
  try solve
    [ assumption
    | exact keeps_trans
    | exact I
    | reflexivity
    | intros; exact I
    | intros; reflexivity
    | unfold keeps; intros; congruence
    | unfold keeps; intros; simpl;
      match goal with
      | H : read_only _ |- _ => destruct H; auto
      end ].

Lemma sat_sync_secrets_recursive fuel : forall mount_path sub_path,
  sat keeps spares_primary
    (_sync_secrets_recursive primary secondary fuel mount_path sub_path).
Proof.
  induction fuel as [|fuel IH]; intros mount_path sub_path; simpl.
  - sat_auto side.
  - unfold sync_key. sat_auto side. apply IH.
Qed.

Lemma sat_full_sync fuel :
  sat keeps spares_primary (full_sync primary secondary exclude_paths fuel).
Proof.
  unfold full_sync, _health_check, _clear_secondary, _sync_secret_engines,
    _sync_auth_methods, _sync_policies, _sync_secrets, clear_engine, clear_auth,
    clear_policy, sync_engine, sync_auth, sync_policy, sync_mount.
  sat_auto side. apply sat_sync_secrets_recursive.
Qed.

End PrimaryUntouched.

(** C9: in a pass, every mutating call goes to the secondary, so the
    primary only receives health checks, listings and reads; when those
    leave the primary's state as it is, the pass ends with the primary in
    the state it started from. *)
Theorem full_sync_only_reads_primary
        (SP SS : Type) (primary : Client SP) (secondary : Client SS)
        (E : list string) (fuel : nat) (c : clusters SP SS) :
  (forall t cl ok,
      In (Call t cl ok) (tr_of (full_sync primary secondary E fuel c)) ->
      mutating cl = true -> t = Secondary) /\
  mutations (calls_to Primary (tr_of (full_sync primary secondary E fuel c)))
  = [] /\
  (read_only primary ->
   pri (st_of (full_sync primary secondary E fuel c)) = pri c).
Proof.
  destruct (sat_full_sync primary secondary E fuel c) as [Hkeep Hcalls].
  split; [| split].
  - intros t cl ok Hin Hmut. rewrite Forall_forall in Hcalls.
    specialize (Hcalls _ Hin). destruct t; [| reflexivity].
    simpl in Hcalls. congruence.
  - induction Hcalls as [|ev tr Hev _ IH]; [reflexivity |].
    destruct ev as [[|] cl ok | l msg args]; simpl in *; auto.
    unfold mutations in *. simpl. rewrite Hev. exact IH.
  - exact Hkeep.
Qed.

Lemma in_memory_read_only : read_only InMemory.client.
Proof. constructor; intros; reflexivity. Qed.

Lemma full_sync_only_reads_primary_witness :
  pri (st_of Sample.run) = Sample.primary_cluster.
Proof.
  apply (full_sync_only_reads_primary InMemory.client InMemory.client
           Sample.E 4 Sample.world).
  exact in_memory_read_only.
Defined.

(** ** Computations that halt *)

Section Halts.

Variables SP SS : Type.

Local Abbreviation halts := (@halts SP SS).

Lemma halts_ret {A} (a : A) : halts (ret a).
Proof. intros c. discriminate. Qed.

Lemma halts_raise {A} (e : string) : halts (@raise SP SS A e).
Proof. intros c. discriminate. Qed.

Lemma halts_log l msg args : halts (log l msg args).
Proof. intros c. discriminate. Qed.

Lemma halts_bind {A B} (m : M SP SS A) (f : A -> M SP SS B) :
  halts m -> (forall a, halts (f a)) -> halts (bind m f).
Proof.
  intros Hm Hf c. unfold bind. specialize (Hm c).
  destruct (m c) as [[[a | e |] c1] t1]; unfold res_of in *; simpl in *;
    try discriminate; try congruence.
  specialize (Hf a c1). destruct (f a c1) as [[r2 c2] t2]. exact Hf.
Qed.

Lemma halts_try_except {A} (m : M SP SS A) (h : string -> M SP SS A) :
  halts m -> (forall e, halts (h e)) -> halts (try_except m h).
Proof.
  intros Hm Hh c. unfold try_except. specialize (Hm c).
  destruct (m c) as [[[a | e |] c1] t1]; unfold res_of in *; simpl in *;
    try discriminate; try congruence.
  specialize (Hh e c1). destruct (h e c1) as [[r2 c2] t2]. exact Hh.
Qed.

Lemma halts_for_each {A} (xs : list A) (body : A -> bool -> M SP SS bool) :
  (forall x s, halts (body x s)) -> forall s, halts (for_each xs body s).
Proof.
  intros Hb. induction xs as [|x xs IH]; intros s; simpl.
  - apply halts_ret.
  - apply halts_bind; auto.
Qed.

Lemma halts_for_each_ {A} (xs : list A) (body : A -> M SP SS unit) :
  (forall x, halts (body x)) -> halts (for_each_ xs body).
Proof.
  intros Hb. induction xs as [|x xs IH]; simpl.
  - apply halts_ret.
  - apply halts_bind; auto.
Qed.

Lemma halts_call_bool_pri c f : halts (call_bool_pri (SS:=SS) c f).
Proof. intros w. unfold call_bool_pri. destruct (f (pri w)). discriminate. Qed.

Lemma halts_call_bool_sec c f : halts (call_bool_sec (SP:=SP) c f).
Proof. intros w. unfold call_bool_sec. destruct (f (sec w)). discriminate. Qed.

Lemma halts_call_read_pri {A} c wrap (f : SP -> reply A * SP) :
  halts (call_read_pri (SS:=SS) c wrap f).
Proof.
  intros w. unfold call_read_pri. destruct (f (pri w)) as [[a | e] s]; discriminate.
Qed.

Lemma halts_call_read_sec {A} c wrap (f : SS -> reply A * SS) :
  halts (call_read_sec (SP:=SP) c wrap f).
Proof.
  intros w. unfold call_read_sec. destruct (f (sec w)) as [[a | e] s]; discriminate.
Qed.

Lemma halts_config_get config k : halts (config_get config k).
Proof. destruct config; simpl; first [apply halts_ret | apply halts_raise]. Qed.

Lemma halts_config_get_default config k d :
  halts (config_get_default config k d).
Proof. destruct config; simpl; first [apply halts_ret | apply halts_raise]. Qed.

(** A [try] whose handler returns a boolean returns a boolean, once its
    body halts. *)
Lemma try_except_returns (m : M SP SS bool) (h : string -> M SP SS bool) :
  halts m -> (forall e c, exists b, res_of (h e c) = Ok b) ->
  forall c, exists b, res_of (try_except m h c) = Ok b.
Proof.
  intros Hm Hh c. unfold try_except. specialize (Hm c).
  destruct (m c) as [[[a | e |] c1] t1]; unfold res_of in *; simpl in *.
  - eauto.
  - destruct (Hh e c1) as [b Hb]. destruct (h e c1) as [[r2 c2] t2].
    simpl in Hb. eauto.
  - congruence.
Qed.

End Halts.

Ltac halts_step :=
  first
    [ apply halts_ret | apply halts_raise | apply halts_log
    | apply halts_config_get | apply halts_config_get_default
    | apply halts_call_bool_pri | apply halts_call_bool_sec
    | apply halts_call_read_pri | apply halts_call_read_sec
    | apply halts_bind; [| intros ?]
    | apply halts_try_except; [| intros ?]
    | apply halts_for_each; intros ? ?
    | apply halts_for_each_; intros ?
    | match goal with
      | |- halts (if ?b then _ else _) => destruct b
      | |- halts (match ?x with _ => _ end) => destruct x
      end ].

Ltac halts_auto := repeat halts_step.

(** ** The orchestrator *)

Section Orchestrator.

Variables SP SS : Type.
Variable primary : Client SP.
Variable secondary : Client SS.
Variable E : list string.

Local Ltac handler_returns :=
  intros ? ?; exists false; reflexivity.

Lemma sync_secret_engines_returns c :
  exists b, res_of (_sync_secret_engines primary secondary E c) = Ok b.
Proof.
  unfold _sync_secret_engines, bind at 1, log at 1.
  match goal with
  | |- context [try_except ?m ?h c] =>
      destruct (@try_except_returns SP SS m h) with (c := c) as [b Hb];
      [| handler_returns
       | exists b; destruct (try_except m h c) as [[r c'] t]; exact Hb]
  end.
  unfold sync_engine. halts_auto.
Qed.

Lemma sync_auth_methods_returns c :
  exists b, res_of (_sync_auth_methods primary secondary E c) = Ok b.
Proof.
  unfold _sync_auth_methods, bind at 1, log at 1.
  match goal with
  | |- context [try_except ?m ?h c] =>
      destruct (@try_except_returns SP SS m h) with (c := c) as [b Hb];
      [| handler_returns
       | exists b; destruct (try_except m h c) as [[r c'] t]; exact Hb]
  end.
  unfold sync_auth. halts_auto.
Qed.

Lemma sync_policies_returns c :
  exists b, res_of (_sync_policies primary secondary c) = Ok b.
Proof.
  unfold _sync_policies, bind at 1, log at 1.
  match goal with
  | |- context [try_except ?m ?h c] =>
      destruct (@try_except_returns SP SS m h) with (c := c) as [b Hb];
      [| handler_returns
       | exists b; destruct (try_except m h c) as [[r c'] t]; exact Hb]
  end.
  unfold sync_policy. halts_auto.
Qed.


(** [full_sync] in terms of the runs of its parts. *)
Lemma full_sync_unfold fuel c :
  full_sync primary secondary E fuel c =
  let start := Log INFO "Starting full synchronization" [] in
  match _health_check primary secondary c with
  | (Ok true, c1, t1) =>
      match _clear_secondary secondary c1 with
      | (Ok true, c2, t2) =>
          match _sync_secret_engines primary secondary E c2 with
          | (Ok b1, c3, t3) =>
              match _sync_auth_methods primary secondary E c3 with
              | (Ok b2, c4, t4) =>
                  match _sync_policies primary secondary c4 with
                  | (Ok b3, c5, t5) =>
                      match _sync_secrets primary secondary E fuel c5 with
                      | (r4, c6, t6) =>
                          (conjunction b1 b2 b3 r4, c6,
                           start :: t1 ++ t2 ++ t3 ++ t4 ++ t5 ++ t6
                                 ++ closing_log b1 b2 b3 r4)
                      end
                  | (Exc e, c5, t5) =>
                      (Exc e, c5, start :: t1 ++ t2 ++ t3 ++ t4 ++ t5)
                  | (OutOfFuel, c5, t5) =>
                      (OutOfFuel, c5, start :: t1 ++ t2 ++ t3 ++ t4 ++ t5)
                  end
              | (Exc e, c4, t4) => (Exc e, c4, start :: t1 ++ t2 ++ t3 ++ t4)
              | (OutOfFuel, c4, t4) =>
                  (OutOfFuel, c4, start :: t1 ++ t2 ++ t3 ++ t4)
              end
          | (Exc e, c3, t3) => (Exc e, c3, start :: t1 ++ t2 ++ t3)
          | (OutOfFuel, c3, t3) => (OutOfFuel, c3, start :: t1 ++ t2 ++ t3)
          end
      | (Ok false, c2, t2) => (Ok false, c2, start :: t1 ++ t2)
      | (Exc e, c2, t2) => (Exc e, c2, start :: t1 ++ t2)
      | (OutOfFuel, c2, t2) => (OutOfFuel, c2, start :: t1 ++ t2)
      end
  | (Ok false, c1, t1) => (Ok false, c1, start :: t1)
  | (Exc e, c1, t1) => (Exc e, c1, start :: t1)
  | (OutOfFuel, c1, t1) => (OutOfFuel, c1, start :: t1)
  end.
Proof.
  unfold full_sync. unfold bind at 1. unfold log at 1. cbv zeta.
  unfold bind at 1.
  destruct (_health_check primary secondary c) as [[[[|] | e |] c1] t1];
    simpl; try rewrite app_nil_r; try reflexivity.
  unfold bind at 1.
  destruct (_clear_secondary secondary c1) as [[[[|] | e |] c2] t2];
    simpl; try rewrite app_nil_r; try reflexivity.
  unfold bind at 1.
  destruct (_sync_secret_engines primary secondary E c2)
    as [[[b1 | e |] c3] t3]; simpl; try reflexivity.
  unfold bind at 1.
  destruct (_sync_auth_methods primary secondary E c3)
    as [[[b2 | e |] c4] t4]; simpl; try reflexivity.
  unfold bind at 1.
  destruct (_sync_policies primary secondary c4)
    as [[[b3 | e |] c5] t5]; simpl; try reflexivity.
  unfold bind at 1.
  destruct (_sync_secrets primary secondary E fuel c5)
    as [[[b4 | e |] c6] t6]; simpl; try rewrite app_nil_r; try reflexivity.
  unfold bind, log. destruct (b1 && b2 && b3 && b4); reflexivity.
Qed.

End Orchestrator.

Section OrchestratorClaims.

Variables SP SS : Type.
Variable primary : Client SP.
Variable secondary : Client SS.
Variable E : list string.

Lemma calls_to_app t tr1 tr2 :
  calls_to t (tr1 ++ tr2) = calls_to t tr1 ++ calls_to t tr2.
Proof.
  induction tr1 as [|[t' c ok | l msg args] tr1 IH]; simpl; auto.
  destruct t, t'; simpl; congruence.
Qed.

(** [_health_check], call by call. *)
Lemma health_check_run (c : clusters SP SS) :
  _health_check primary secondary c =
  let '(p, s1) := health_check primary (pri c) in
  let intro := Log INFO "Performing health checks" [] in
  if p then
    let '(q, s2) := health_check secondary (sec c) in
    if q then
      (Ok true, Clusters s1 s2,
       [intro; Call Primary HealthCheck (Bool true); Call Secondary HealthCheck (Bool true);
        Log INFO "Health checks passed" []])
    else
      (Ok false, Clusters s1 s2,
       [intro; Call Primary HealthCheck (Bool true); Call Secondary HealthCheck (Bool false);
        Log ERROR "Secondary OpenBao instance is not healthy" []])
  else
    (Ok false, Clusters s1 (sec c),
     [intro; Call Primary HealthCheck (Bool false);
      Log ERROR "Primary OpenBao instance is not healthy" []]).
Proof.
  unfold _health_check, bind, log, call_bool_pri, call_bool_sec, ret. simpl.
  destruct (health_check primary (pri c)) as [[|] s1]; simpl; [| reflexivity].
  destruct (health_check secondary (sec c)) as [[|] s2]; reflexivity.
Qed.

Lemma sat_clear_secondary :
  sat any_state reset_event (_clear_secondary (SP:=SP) secondary).
Proof.
  unfold _clear_secondary, clear_engine, clear_auth, clear_policy.
  sat_auto ltac:(try solve [exact I | intros; exact I | intros; reflexivity]).
Qed.

Lemma reset_events_calls tr :
  Forall reset_event tr ->
  calls_to Primary tr = [] /\
  Forall (fun x => reset_call (fst x) = true) (calls_to Secondary tr).
Proof.
  induction 1 as [|[[|] c ok | l msg args] tr Hev _ [IH1 IH2]]; simpl in *;
    auto; try contradiction;
    try (split; [assumption | constructor; assumption]).
Qed.

Lemma sync_secrets_never_raises fuel (c : clusters SP SS) e :
  res_of (_sync_secrets primary secondary E fuel c) <> Exc e.
Proof.
  unfold _sync_secrets, bind at 1, log at 1, try_except. simpl.
  match goal with
  | |- context [bind ?m ?f c] => destruct (bind m f c) as [[[b | e' |] c1] t1]
  end; unfold res_of; simpl; discriminate.
Qed.

End OrchestratorClaims.

(** C3: when the health check of the primary or of the secondary fails,
    [full_sync] returns false and sends no mutating call to the secondary;
    when the reset fails, [full_sync] returns false right after it: the
    pass consists of the health checks and the reset, the primary has only
    been health-checked and the secondary has received listings, disables
    and deletes but no enable and no write. *)
Theorem full_sync_short_circuits
        (SP SS : Type) (primary : Client SP) (secondary : Client SS)
        (E : list string) (fuel : nat) (c : clusters SP SS) :
  let run := full_sync primary secondary E fuel c in
  let h := _health_check primary secondary c in
  let r := _clear_secondary secondary (st_of h) in
  (fst (health_check primary (pri c)) = false \/
   fst (health_check secondary (sec c)) = false ->
   res_of run = Ok false /\ mutations (calls_to Secondary (tr_of run)) = []) /\
  (res_of h = Ok true -> res_of r = Ok false ->
   run = (Ok false, st_of r,
          Log INFO "Starting full synchronization" [] :: tr_of h ++ tr_of r) /\
   calls_to Primary (tr_of run) = [(HealthCheck, Bool true)] /\
   Forall (fun x => reset_call (fst x) = true)
     (calls_to Secondary (tr_of run))).
Proof.
  intros run h r. subst run h r. rewrite full_sync_unfold.
  rewrite health_check_run. cbv zeta. split.
  - intros Hfail.
    destruct (health_check primary (pri c)) as [[|] s1];
      destruct (health_check secondary (sec c)) as [[|] s2];
      simpl in Hfail; try (split; reflexivity).
    destruct Hfail; discriminate.
  - destruct (health_check primary (pri c)) as [[|] s1]; simpl;
      [| discriminate].
    destruct (health_check secondary (sec c)) as [[|] s2]; simpl;
      [| discriminate].
    intros _ Hr. unfold res_of, st_of, tr_of in *. simpl in *.
    pose proof (sat_clear_secondary (SP:=SP) secondary (Clusters s1 s2))
      as [_ Hev]. unfold tr_of in Hev.
    destruct (_clear_secondary secondary (Clusters s1 s2))
      as [[[[|] | e |] c2] t2]; simpl in *; try discriminate.
    apply reset_events_calls in Hev as [Hp Hs].
    split; [reflexivity |]. rewrite Hp. split; [reflexivity |].
    constructor; [reflexivity | exact Hs].
Qed.

(** The reset of the sample pass fails when the secondary answers its
    mounts listing with a malformed payload. *)
Lemma full_sync_short_circuits_witness :
  res_of (full_sync InMemory.client InMemory.client Sample.E 4
            (Clusters Sample.primary_cluster Sample.sick_secondary))
  = Ok false /\
  calls_to Primary
    (tr_of (full_sync InMemory.client InMemory.client Sample.E 4
              (Clusters Sample.primary_cluster Sample.broken_secondary)))
  = [(HealthCheck, Bool true)].
Proof.
  split.
  - apply (full_sync_short_circuits InMemory.client InMemory.client Sample.E 4
             (Clusters Sample.primary_cluster Sample.sick_secondary)).
    right. reflexivity.
  - apply (full_sync_short_circuits InMemory.client InMemory.client Sample.E 4
             (Clusters Sample.primary_cluster Sample.broken_secondary));
      reflexivity.
Defined.

(** C4: once the health checks and the reset have succeeded, the four
    phases run in the order engines, auth methods, policies, secrets, each
    from the state the previous one left, whatever the earlier ones
    returned; the first three always return a boolean, and [full_sync]
    returns the conjunction of the four results (and runs out of fuel
    exactly when the secrets phase does). *)
Theorem full_sync_runs_all_phases
        (SP SS : Type) (primary : Client SP) (secondary : Client SS)
        (E : list string) (fuel : nat) (c : clusters SP SS) :
  let run := full_sync primary secondary E fuel c in
  let h := _health_check primary secondary c in
  let r := _clear_secondary secondary (st_of h) in
  let p1 := _sync_secret_engines primary secondary E (st_of r) in
  let p2 := _sync_auth_methods primary secondary E (st_of p1) in
  let p3 := _sync_policies primary secondary (st_of p2) in
  let p4 := _sync_secrets primary secondary E fuel (st_of p3) in
  res_of h = Ok true -> res_of r = Ok true ->
  exists b1 b2 b3,
    res_of p1 = Ok b1 /\ res_of p2 = Ok b2 /\ res_of p3 = Ok b3 /\
    (forall e, res_of p4 <> Exc e) /\
    res_of run = conjunction b1 b2 b3 (res_of p4) /\
    st_of run = st_of p4 /\
    tr_of run =
      Log INFO "Starting full synchronization" []
      :: tr_of h ++ tr_of r ++ tr_of p1 ++ tr_of p2 ++ tr_of p3 ++ tr_of p4
         ++ closing_log b1 b2 b3 (res_of p4).
Proof.
  intros run h r p1 p2 p3 p4 Hh Hr. subst run.
  rewrite full_sync_unfold. cbv zeta.
  pose proof (sync_secrets_never_raises primary secondary E fuel (st_of p3))
    as Hp4. fold p4 in Hp4.
  destruct (sync_secret_engines_returns primary secondary E (st_of r))
    as [b1 Hb1].
  destruct (sync_auth_methods_returns primary secondary E (st_of p1))
    as [b2 Hb2].
  destruct (sync_policies_returns primary secondary (st_of p2)) as [b3 Hb3].
  fold p1 in Hb1. fold p2 in Hb2. fold p3 in Hb3.
  exists b1, b2, b3.
  revert Hp4. subst p4 p3. revert Hb3. subst p2. revert Hb2. subst p1.
  revert Hb1. subst r. revert Hr. subst h. revert Hh.
  destruct (_health_check primary secondary c) as [[rh c1] t1].
  unfold res_of, st_of, tr_of. simpl. intros ->.
  destruct (_clear_secondary secondary c1) as [[rr c2] t2]. simpl. intros ->.
  destruct (_sync_secret_engines primary secondary E c2) as [[r1 c3] t3].
  simpl. intros ->.
  destruct (_sync_auth_methods primary secondary E c3) as [[r2 c4] t4].
  simpl. intros ->.
  destruct (_sync_policies primary secondary c4) as [[r3 c5] t5].
  simpl. intros ->.
  destruct (_sync_secrets primary secondary E fuel c5) as [[r4 c6] t6].
  simpl. intros Hp4. repeat split; auto.
Qed.

Lemma full_sync_runs_all_phases_witness :
  exists b1 b2 b3, res_of Sample.run = conjunction b1 b2 b3 (Ok true).
Proof.
  destruct (full_sync_runs_all_phases InMemory.client InMemory.client
              Sample.E 4 Sample.world)
    as [b1 [b2 [b3 [_ [_ [_ [_ [H _]]]]]]]]; [reflexivity | reflexivity |].
  exists b1, b2, b3. exact H.
Defined.

(** ** Cluster reset *)

Section ClusterReset.

Variables SP SS : Type.
Variable secondary : Client SS.

Local Abbreviation W := (clusters SP SS).

Lemma engine_guard path :
  negb (startswith path "sys/") && negb (startswith path "identity/")
  = negb (engine_protected path).
Proof. unfold engine_protected. symmetry. apply negb_orb. Qed.

Lemma auth_guard path :
  negb (String.eqb path "token/") && negb (startswith path "sys/")
  = negb (auth_protected path).
Proof. unfold auth_protected. symmetry. apply negb_orb. Qed.




End ClusterReset.

Lemma bind_ok {SP SS A B} (m : M SP SS A) (f : A -> M SP SS B) c a c1 t1 :
  m c = (Ok a, c1, t1) ->
  bind m f c = (let '(r, c2, t2) := f a c1 in (r, c2, t1 ++ t2)).
Proof. intros H. unfold bind. rewrite H. reflexivity. Qed.







(** ** Configuration replicators *)

Section Replicators.

Variables SP SS : Type.
Variable primary : Client SP.
Variable secondary : Client SS.
Variable E : list string.

Local Abbreviation W := (clusters SP SS).

Lemma sat_for_each_in {A} (R : W -> W -> Prop) (P : event -> Prop)
      (xs : list A) (body : A -> bool -> M SP SS bool) :
  (forall c, R c c) -> (forall a b c, R a b -> R b c -> R a c) ->
  (forall x, In x xs -> forall s, sat R P (body x s)) ->
  forall s, sat R P (for_each xs body s).
Proof.
  intros Hrefl Htrans. induction xs as [|x xs IH]; intros Hb s; simpl.
  - apply sat_ret; assumption.
  - apply sat_bind; [assumption | apply Hb; left; reflexivity |].
    intros s'. apply IH. intros y Hy. apply Hb. right. exact Hy.
Qed.

(** The events of a phase of the shape
    [try: L = list(); loop(L)  except: log; return False]. *)
Lemma phase_events {A} c (wrap : A -> answer) (f : SP -> reply A * SP)
      (loop : A -> M SP SS bool) msg (w : W) ev :
  In ev (tr_of (try_except (bind (call_read_pri c wrap f) loop)
                  (fun e => bind (log ERROR msg [PyStr e])
                              (fun _ => ret false)) w)) ->
  (exists l m a, ev = Log l m a) \/
  (exists a, ev = Call Primary c a) \/
  (exists L s,
      f (pri w) = (Returns L, s) /\
      In (Call Primary c (wrap L))
        (tr_of (try_except (bind (call_read_pri c wrap f) loop)
                  (fun e => bind (log ERROR msg [PyStr e])
                              (fun _ => ret false)) w)) /\
      In ev (tr_of (loop L (Clusters s (sec w))))).
Proof.
  unfold try_except, bind, call_read_pri, log, ret, tr_of.
  destruct (f (pri w)) as [[L | e] s]; simpl.
  - destruct (loop L (Clusters s (sec w))) as [[[b | e |] c1] t1] eqn:Hloop;
      simpl.
    + intros [<- | Hin]; [right; left; eauto |].
      right; right. exists L, s. rewrite Hloop. simpl. auto.
    + rewrite ?app_nil_r. intros [<- | Hin]; [right; left; eauto |].
      apply in_app_or in Hin as [Hin | [<- | []]]; [| left; eauto].
      right; right. exists L, s. rewrite Hloop. simpl. auto.
    + intros [<- | Hin]; [right; left; eauto |].
      right; right. exists L, s. rewrite Hloop. simpl. auto.
  - intros [<- | [<- | []]]; [right; left; eauto | left; eauto].
Qed.

Local Ltac triv := try solve [exact I | intros; exact I].

Lemma sat_engine_loop (L : dict) s :
  sat (@any_state SP SS) (engine_applied E L)
    (for_each L (sync_engine secondary E) s).
Proof.
  apply sat_for_each_in; triv. intros [path config] Hin s'.
  unfold sync_engine. sat_auto triv.
  intros ?. simpl. exists path, config. unfold engine_protected. auto.
Qed.

Lemma sat_auth_loop (L : dict) s :
  sat (@any_state SP SS) (auth_applied E L)
    (for_each L (sync_auth secondary E) s).
Proof.
  apply sat_for_each_in; triv. intros [path config] Hin s'.
  unfold sync_auth. sat_auto triv.
  intros ?. simpl. exists path, config. auto.
Qed.

Lemma sat_policy_loop (L : list string) s :
  sat (@any_state SP SS) (policy_applied L)
    (for_each L (sync_policy primary secondary) s).
Proof.
  apply sat_for_each_in; triv. intros name Hin s'.
  unfold sync_policy. sat_auto triv; intros ?; simpl; auto.
Qed.

End Replicators.

Lemma tr_log_bind {SP SS A} l msg args (k : M SP SS A) c :
  tr_of (bind (log l msg args) (fun _ => k) c) = Log l msg args :: tr_of (k c).
Proof.
  unfold bind, log, tr_of. simpl. destruct (k c) as [[r c2] t2]. reflexivity.
Qed.

(** C6, as the code has it: whatever the exclusion set, every enable that
    the engine replicator sends is for a mount of the primary's listing
    outside the [sys/] and [identity/] prefixes, every enable that the
    auth replicator sends is for a listed auth method other than
    [token/], and every policy that the policy replicator writes is a
    listed one other than [root] and [default]; each of these objects is
    also outside the exclusion set, where the replicator consults it. *)
Theorem replicators_skip_protected
        (SP SS : Type) (primary : Client SP) (secondary : Client SS)
        (E : list string) (c : clusters SP SS) :
  (forall p ty cfg a,
      In (Call Secondary (EnableSecretEngine p ty cfg) a)
        (tr_of (_sync_secret_engines primary secondary E c)) ->
      exists L path v,
        In (Call Primary ListSecretEngines (Listing L))
          (tr_of (_sync_secret_engines primary secondary E c)) /\
        In (path, v) L /\ p = rstrip_slash path /\
        engine_protected path = false /\ should_exclude_path E path = false) /\
  (forall p ty cfg a,
      In (Call Secondary (EnableAuthMethod p ty cfg) a)
        (tr_of (_sync_auth_methods primary secondary E c)) ->
      exists L path v,
        In (Call Primary ListAuthMethods (Listing L))
          (tr_of (_sync_auth_methods primary secondary E c)) /\
        In (path, v) L /\ p = rstrip_slash path /\
        path <> "token/" /\ should_exclude_path E path = false) /\
  (forall name doc a,
      In (Call Secondary (WritePolicy name doc) a)
        (tr_of (_sync_policies primary secondary c)) ->
      exists L,
        In (Call Primary ListPolicies (Keys L))
          (tr_of (_sync_policies primary secondary c)) /\
        In name L /\ in_system_policies name = false).
Proof.
  split; [| split].
  - intros p ty cfg a. unfold _sync_secret_engines. rewrite tr_log_bind.
    intros [Hin | Hin]; [discriminate |].
    apply phase_events in Hin
      as [[l [m [x H]]] | [[x H] | [L [s [_ [Hlist Hin]]]]]];
      try discriminate.
    pose proof (sat_engine_loop secondary E L true (Clusters s (sec c)))
      as [_ Hall].
    rewrite Forall_forall in Hall. apply Hall in Hin.
    destruct Hin as [path [v [H1 [H2 [H3 H4]]]]].
    exists L, path, v. repeat split; auto. right. exact Hlist.
  - intros p ty cfg a. unfold _sync_auth_methods. rewrite tr_log_bind.
    intros [Hin | Hin]; [discriminate |].
    apply phase_events in Hin
      as [[l [m [x H]]] | [[x H] | [L [s [_ [Hlist Hin]]]]]];
      try discriminate.
    pose proof (sat_auth_loop secondary E L true (Clusters s (sec c)))
      as [_ Hall].
    rewrite Forall_forall in Hall. apply Hall in Hin.
    destruct Hin as [path [v [H1 [H2 [H3 H4]]]]].
    exists L, path, v. repeat split; auto; [right; exact Hlist |].
    intros ->. discriminate H3.
  - intros name doc a. unfold _sync_policies. rewrite tr_log_bind.
    intros [Hin | Hin]; [discriminate |].
    apply phase_events in Hin
      as [[l [m [x H]]] | [[x H] | [L [s [_ [Hlist Hin]]]]]];
      try discriminate.
    pose proof (sat_policy_loop primary secondary L true (Clusters s (sec c)))
      as [_ Hall].
    rewrite Forall_forall in Hall. apply Hall in Hin.
    destruct Hin as [H1 H2].
    exists L. repeat split; auto. right. exact Hlist.
Qed.

Lemma replicators_skip_protected_witness :
  exists (L : dict) path v,
    In (path, v) L /\ "secret" = rstrip_slash path /\
    engine_protected path = false.
Proof.
  destruct (replicators_skip_protected InMemory.client InMemory.client
              Sample.E Sample.world) as [H _].
  destruct (H "secret" (PyStr "kv")
              [("description", PyStr "application secrets");
               ("config", PyDict []); ("options", PyDict [])] (Bool true))
    as [L [path [v [_ [H1 [H2 [H3 _]]]]]]].
  - vm_compute. auto 30.
  - exists L, path, v. auto.
Defined.

(** With an empty exclusion set, the auth replicator enables the auth
    method that the primary lists at [sys/ldap/]. *)
Lemma sync_auth_methods_enables_sys_auth :
  ~ applies_no_protected
      (tr_of (_sync_auth_methods InMemory.client InMemory.client []
                SampleAuth.world)).
Proof.
  intros [_ [H _]].
  apply (H [("token/", PyDict [("type", PyStr "token")]);
            ("sys/ldap/", PyDict [("type", PyStr "ldap")])]
           "sys/ldap/" (PyDict [("type", PyStr "ldap")]) (PyStr "ldap")
           [("description", PyStr ""); ("config", PyDict [])] (Bool true)).
  - vm_compute. auto.
  - right. left. reflexivity.
  - left. reflexivity.
  - vm_compute. auto 6.
Qed.

(** ** A second reset *)

Section SecondReset.

Variables SP SS : Type.
Variable secondary : Client SS.

Local Abbreviation W := (clusters SP SS).

Lemma call_read_sec_returns {A} c (wrap : A -> answer)
      (f : SS -> reply A * SS) (w : W) a s :
  f (sec w) = (Returns a, s) ->
  call_read_sec c wrap f w
  = (Ok a, Clusters (pri w) s, [Call Secondary c (wrap a)]).
Proof. intros H. unfold call_read_sec. rewrite H. reflexivity. Qed.

Lemma clear_engines_noop (L : dict) (w : W) :
  Forall (fun item => engine_protected (fst item) = true) L ->
  for_each_ L (clear_engine secondary) w = (Ok tt, w, []).
Proof.
  induction 1 as [|[path config] L Hp _ IH]; simpl; [reflexivity |].
  unfold bind, clear_engine at 1. cbn [fst] in *.
  rewrite engine_guard, Hp. simpl. rewrite IH. reflexivity.
Qed.

Lemma clear_auths_noop (L : dict) (w : W) :
  Forall (fun item => auth_protected (fst item) = true) L ->
  for_each_ L (clear_auth secondary) w = (Ok tt, w, []).
Proof.
  induction 1 as [|[path config] L Hp _ IH]; simpl; [reflexivity |].
  unfold bind, clear_auth at 1. cbn [fst] in *.
  rewrite auth_guard, Hp. simpl. rewrite IH. reflexivity.
Qed.

Lemma clear_policies_noop (L : list string) (w : W) :
  Forall (fun name => in_system_policies name = true) L ->
  for_each_ L (clear_policy secondary) w = (Ok tt, w, []).
Proof.
  induction 1 as [|name L Hp _ IH]; simpl; [reflexivity |].
  unfold bind, clear_policy at 1. rewrite Hp. simpl. rewrite IH. reflexivity.
Qed.

(** A reset of a secondary that lists protected objects only. *)
Lemma clear_secondary_noop (w : W) L1 s1 L2 s2 L3 s3 :
  list_secret_engines secondary (sec w) = (Returns L1, s1) ->
  list_auth_methods secondary s1 = (Returns L2, s2) ->
  list_policies secondary s2 = (Returns L3, s3) ->
  Forall (fun item => engine_protected (fst item) = true) L1 ->
  Forall (fun item => auth_protected (fst item) = true) L2 ->
  Forall (fun name => in_system_policies name = true) L3 ->
  _clear_secondary (SP:=SP) secondary w =
  (Ok true, Clusters (pri w) s3,
   [Log INFO "Clearing secondary cluster data" [];
    Call Secondary ListSecretEngines (Listing L1);
    Call Secondary ListAuthMethods (Listing L2);
    Call Secondary ListPolicies (Keys L3);
    Log INFO "Secondary cluster cleared successfully" []]).
Proof.
  intros H1 H2 H3 P1 P2 P3.
  unfold _clear_secondary, try_except, bind, log.
  rewrite (call_read_sec_returns _ _ _ _ H1).
  rewrite (clear_engines_noop _ P1).
  rewrite (call_read_sec_returns _ _ _ (Clusters (pri w) s1) H2).
  rewrite (clear_auths_noop _ P2).
  rewrite (call_read_sec_returns _ _ _ (Clusters (pri w) s2) H3).
  rewrite (clear_policies_noop _ P3).
  reflexivity.
Qed.

End SecondReset.

(** C8, as the code has it: when, after a first reset, the secondary
    lists protected objects only (every disable and delete of the first
    run took effect), a second reset returns true and sends no disable and
    no delete: its calls are the three listings. *)
Theorem second_reset_sends_nothing
        (SP SS : Type) (secondary : Client SS) (c : clusters SP SS)
        (L1 L2 : dict) (L3 : list string) (s1 s2 s3 : SS) :
  let first := _clear_secondary secondary c in
  let second := _clear_secondary secondary (st_of first) in
  list_secret_engines secondary (sec (st_of first)) = (Returns L1, s1) ->
  list_auth_methods secondary s1 = (Returns L2, s2) ->
  list_policies secondary s2 = (Returns L3, s3) ->
  Forall (fun item => engine_protected (fst item) = true) L1 ->
  Forall (fun item => auth_protected (fst item) = true) L2 ->
  Forall (fun name => in_system_policies name = true) L3 ->
  res_of second = Ok true /\
  mutations (calls_to Secondary (tr_of second)) = [] /\
  calls_to Secondary (tr_of second)
  = [(ListSecretEngines, Listing L1); (ListAuthMethods, Listing L2);
     (ListPolicies, Keys L3)] /\
  st_of second = Clusters (pri (st_of first)) s3.
Proof.
  intros first second H1 H2 H3 P1 P2 P3. subst second.
  rewrite (clear_secondary_noop (SP:=SP) secondary (st_of first)
             H1 H2 H3 P1 P2 P3).
  repeat split.
Qed.

Lemma second_reset_sends_nothing_witness :
  mutations
    (calls_to Secondary
       (tr_of (_clear_secondary InMemory.client
                 (st_of (_clear_secondary InMemory.client Sample.world)))))
  = [].
Proof.
  eapply (second_reset_sends_nothing InMemory.client Sample.world);
    try (vm_compute; reflexivity);
    vm_compute; repeat constructor.
Defined.

(** A secondary whose first disable request fails: the first reset
    returns true all the same, and the second one disables the mount. *)
Lemma second_reset_disables_again :
  ~ second_reset_is_noop InMemory.client SampleFlaky.world.
Proof.
  intros H. destruct (H eq_refl) as [_ [H1 | H2]].
  - vm_compute in H1. discriminate H1.
  - vm_compute in H2. discriminate H2.
Qed.

(** ** Secret tree replicator *)

(** C10: at a leaf, a read that returns an empty mapping is handled as a
    read that returns nothing: the loop body sends no write (its only call
    is the read), logs the warning, leaves the secondary as it is and
    hands back [success] unchanged. *)
Theorem empty_secret_is_skipped
        (SP SS : Type) (primary : Client SP) (secondary : Client SS)
        (recurse : string -> string -> M SP SS bool)
        (mount_path sub_path full_path key : string) (success : bool)
        (c : clusters SP SS) (data : option dict) (s : SP) :
  let current_path := strip_slash (join_slash full_path key) in
  endswith_slash key = false ->
  data = None \/ data = Some [] ->
  read_secret primary current_path (pri c) = (Returns data, s) ->
  sync_key primary secondary recurse mount_path sub_path full_path key
    success c
  = (Ok success, Clusters s (sec c),
     [Log DEBUG "Syncing secret: {current_path}" [PyStr current_path];
      Call Primary (ReadSecret current_path) (Secret data);
      Log WARNING "Could not read secret: {current_path}"
        [PyStr current_path]]).
Proof.
  intros current_path Hleaf Hdata Hread. subst current_path.
  unfold sync_key. rewrite Hleaf.
  unfold bind, log, call_read_pri. rewrite Hread.
  destruct Hdata as [-> | ->]; reflexivity.
Qed.

Lemma empty_secret_is_skipped_witness :
  sync_key InMemory.client InMemory.client
    (_sync_secrets_recursive InMemory.client InMemory.client 2)
    "secret" "" "secret" "empty" true SampleEmptySecret.world
  = (Ok true, SampleEmptySecret.world,
     [Log DEBUG "Syncing secret: {current_path}" [PyStr "secret/empty"];
      Call Primary (ReadSecret "secret/empty") (Secret (Some []));
      Log WARNING "Could not read secret: {current_path}"
        [PyStr "secret/empty"]]).
Proof.
  apply (empty_secret_is_skipped InMemory.client InMemory.client
           (_sync_secrets_recursive InMemory.client InMemory.client 2)
           "secret" "" "secret" "empty" true SampleEmptySecret.world
           (data := Some []) (s := SampleEmptySecret.primary_cluster)).
  - reflexivity.
  - right. reflexivity.
  - reflexivity.
Defined.

(** In a whole pass over that mount, the empty secret and the missing one
    yield the same events, and nothing is written. *)
Example sync_secrets_empty_and_absent :
  _sync_secrets InMemory.client InMemory.client [] 3 SampleEmptySecret.world
  = (Ok true, SampleEmptySecret.world,
     [Log INFO "Syncing secrets" [];
      Call Primary ListSecretEngines
        (Listing [("secret/", InMemory.kv "")]);
      Log INFO "Syncing secrets from mount: {mount_path}" [PyStr "secret/"];
      Call Primary (ListSecrets "secret") (Keys ["empty"; "gone"]);
      Log DEBUG "Syncing secret: {current_path}" [PyStr "secret/empty"];
      Call Primary (ReadSecret "secret/empty") (Secret (Some []));
      Log WARNING "Could not read secret: {current_path}"
        [PyStr "secret/empty"];
      Log DEBUG "Syncing secret: {current_path}" [PyStr "secret/gone"];
      Call Primary (ReadSecret "secret/gone") (Secret None);
      Log WARNING "Could not read secret: {current_path}"
        [PyStr "secret/gone"]]).
Proof. reflexivity. Qed.

(** ** Best-effort loops *)

Section BestEffort.

Variables SP SS : Type.
Variable primary : Client SP.
Variable secondary : Client SS.
Variable E : list string.

Local Abbreviation W := (clusters SP SS).

(** A loop whose body, whatever its calls return, sends the calls expected
    for its item and folds their success into [success], does so for the
    whole list. *)
Lemma for_each_best_effort {A} (body : A -> bool -> M SP SS bool)
      (exp_pri exp_sec : A -> list call) (s0 : SP) (xs : list A) :
  (forall x success (w : W),
      In x xs -> pri w = s0 ->
      exists s' t,
        body x success w
        = (Ok (success && forallb succeeded (calls_to Secondary t)),
           Clusters s0 s', t) /\
        map fst (calls_to Primary t) = exp_pri x /\
        map fst (calls_to Secondary t) = exp_sec x) ->
  forall success (w : W),
    pri w = s0 ->
    exists s' t,
      for_each xs body success w
      = (Ok (success && forallb succeeded (calls_to Secondary t)),
         Clusters s0 s', t) /\
      map fst (calls_to Primary t) = flat_map exp_pri xs /\
      map fst (calls_to Secondary t) = flat_map exp_sec xs.
Proof.
  induction xs as [|x xs IH]; intros Hbody success w Hw.
  - exists (sec w), []. simpl. unfold ret. rewrite andb_true_r.
    destruct w as [p s]. simpl in Hw. subst p. auto.
  - destruct (Hbody x success w (or_introl eq_refl) Hw)
      as [s1 [t1 [Hrun [Hp1 Hs1]]]].
    destruct (IH (fun y b w' Hy => Hbody y b w' (or_intror Hy))
                (success && forallb succeeded (calls_to Secondary t1))
                (Clusters s0 s1) eq_refl)
      as [s2 [t2 [Hrest [Hp2 Hs2]]]].
    exists s2, (t1 ++ t2). simpl for_each.
    rewrite (@bind_ok _ _ _ _ _ _ _ _ _ _ Hrun), Hrest.
    rewrite !calls_to_app, !map_app, forallb_app, andb_assoc, Hp1, Hp2, Hs1, Hs2.
    auto.
Qed.

Lemma for_each_map {A B} (f : A -> B) (xs : list A)
      (body : B -> bool -> M SP SS bool) success (w : W) :
  for_each (map f xs) body success w
  = for_each xs (fun x => body (f x)) success w.
Proof.
  revert success w. induction xs as [|x xs IH]; intros success w; simpl;
    [reflexivity |].
  unfold bind. destruct (body (f x) success w) as [[[b | e |] c1] t1];
    try reflexivity.
  rewrite IH. reflexivity.
Qed.

(** A phase whose listing returns [L] is its loop over [L], after the
    opening log record and the listing call. *)
Lemma phase_run {A} intro c (wrap : A -> answer) (f : SP -> reply A * SP)
      (loop : A -> M SP SS bool) h (w : W) L s0 r w' t :
  f (pri w) = (Returns L, s0) ->
  loop L (Clusters s0 (sec w)) = (Ok r, w', t) ->
  bind (log INFO intro [])
    (fun _ => try_except (bind (call_read_pri c wrap f) loop) h) w
  = (Ok r, w', Log INFO intro [] :: Call Primary c (wrap L) :: t).
Proof.
  intros Hf Hloop. unfold bind, log, try_except, call_read_pri.
  rewrite Hf, Hloop. reflexivity.
Qed.

Lemma step_intro (run : result bool * W * trace) success s0 exp_p exp_s
      r s' t :
  run = (Ok r, Clusters s0 s', t) ->
  r = success && forallb succeeded (calls_to Secondary t) ->
  map fst (calls_to Primary t) = exp_p ->
  map fst (calls_to Secondary t) = exp_s ->
  exists s' t,
    run = (Ok (success && forallb succeeded (calls_to Secondary t)),
           Clusters s0 s', t) /\
    map fst (calls_to Primary t) = exp_p /\
    map fst (calls_to Secondary t) = exp_s.
Proof. intros -> -> <- <-. eauto. Qed.

Local Ltac skipped :=
  eapply step_intro;
  [ unfold bind, log, ret; simpl; reflexivity
  | simpl; rewrite andb_true_r; reflexivity
  | reflexivity
  | reflexivity ].

Local Ltac applied :=
  eapply step_intro;
  [ reflexivity
  | simpl; rewrite ?andb_true_r;
    repeat match goal with
           | b : bool |- _ => destruct b
           end; reflexivity
  | reflexivity
  | reflexivity ].

(** One listed mount in [_sync_secret_engines]. *)
Lemma sync_engine_step item success (w : W) :
  (included E (fst item) = true -> is_dict (snd item)) ->
  exists s' t,
    sync_engine secondary E item success w
    = (Ok (success && forallb succeeded (calls_to Secondary t)),
       Clusters (pri w) s', t) /\
    map fst (calls_to Primary t) = [] /\
    map fst (calls_to Secondary t) = engine_enable E item.
Proof.
  destruct item as [path config]. destruct w as [p s].
  cbn [fst snd pri]. intros Hdict.
  unfold sync_engine, engine_enable, included in *.
  fold (engine_protected path) in *.
  destruct (should_exclude_path E path); [skipped |].
  destruct (engine_protected path); [skipped |].
  simpl negb. cbn [andb].
  destruct config as [| b | z | str | l | d];
    try (exfalso; exact (Hdict eq_refl)).
  unfold config_get, config_get_default, type_of.
  unfold bind at 1, ret at 1. cbn beta iota.
  destruct (dict_get d "type") as [ty |]; [| skipped].
  destruct (truthy ty); [| skipped].
  unfold bind, log, ret, call_bool_sec. simpl.
  match goal with
  | |- context [enable_secret_engine secondary ?p ?t ?c ?s] =>
      destruct (enable_secret_engine secondary p t c s) as [ok s2]
  end.
  applied.
Qed.



End BestEffort.

(** ** Traversal of a secret hierarchy *)

Section Traversal.

Variables SP SS : Type.
Variable primary : Client SP.
Variable secondary : Client SS.

Local Abbreviation W := (clusters SP SS).

Lemma presents_all_in s mount sub es e :
  presents_all primary s mount sub es -> In e es ->
  presents_entry primary s mount sub e.
Proof.
  induction es as [|x es IH]; simpl; [intros _ [] |].
  intros [Hx Hes] [<- | Hin]; auto.
Qed.

Lemma depth_in es e : In e es -> depth e <= depth_all es.
Proof.
  induction es as [|x es IH]; simpl; [intros [] |].
  intros [<- | Hin]; [lia | specialize (IH Hin); lia].
Qed.

Local Ltac skipped :=
  eapply step_intro;
  [ unfold bind, log, ret; simpl; reflexivity
  | simpl; rewrite andb_true_r; reflexivity
  | reflexivity
  | reflexivity ].

Local Ltac applied :=
  eapply step_intro;
  [ reflexivity
  | simpl; rewrite ?andb_true_r;
    repeat match goal with
           | b : bool |- _ => destruct b
           end; reflexivity
  | reflexivity
  | reflexivity ].

(** One key of the listing, given what the recursion does on the
    interior nodes below. *)
Lemma sync_key_step (recurse : string -> string -> M SP SS bool)
      mount sub e success (w : W) :
  presents_entry primary (pri w) mount sub e ->
  (forall k ch,
      e = Dir k ch ->
      exists s' t,
        recurse mount (sub_path_of sub k) w
        = (Ok (forallb succeeded (calls_to Secondary t)),
           Clusters (pri w) s', t) /\
        map fst (calls_to Primary t)
        = ListSecrets (full_path_of mount (sub_path_of sub k))
            :: flat_map (primary_calls mount (sub_path_of sub k)) ch /\
        map fst (calls_to Secondary t)
        = flat_map (secondary_calls mount (sub_path_of sub k)) ch) ->
  exists s' t,
    sync_key primary secondary recurse mount sub (full_path_of mount sub)
      (entry_key e) success w
    = (Ok (success && forallb succeeded (calls_to Secondary t)),
       Clusters (pri w) s', t) /\
    map fst (calls_to Primary t) = primary_calls mount sub e /\
    map fst (calls_to Secondary t) = secondary_calls mount sub e.
Proof.
  destruct w as [p s]. cbn [pri]. destruct e as [k d | k ch]; simpl.
  - intros [Hleaf Hread] _. unfold sync_key. rewrite Hleaf.
    unfold bind at 1, log at 1. cbn beta iota.
    unfold bind at 1, call_read_pri. cbn [pri sec].
    unfold current_path_of in Hread. rewrite Hread.
    destruct d as [[|kv data] |]; [skipped | | skipped].
    cbn [secret_truthy truthy]. unfold bind, log, ret, call_bool_sec.
    cbn [pri sec].
    match goal with
    | |- context [write_secret secondary ?a ?b ?c] =>
        destruct (write_secret secondary a b c) as [[|] s2]
    end; applied.
  - intros [Hdir _] Hrec. unfold sync_key. rewrite Hdir.
    destruct (Hrec k ch eq_refl) as [s' [t [Hrun [Hp Hs]]]].
    unfold sub_path_of in Hrun.
    rewrite (@bind_ok _ _ _ _ _ _ _ _ _ _ Hrun). unfold ret.
    eapply step_intro; [reflexivity | | |].
    + rewrite app_nil_r.
      destruct (forallb succeeded (calls_to Secondary t)), success;
        reflexivity.
    + rewrite app_nil_r. exact Hp.
    + rewrite app_nil_r. exact Hs.
Qed.

(** The traversal of a node that the primary presents as [es], with fuel
    beyond the depth of [es]: it returns, having sent the primary a
    listing for each interior node and a read for each leaf, and the
    secondary a write for each leaf that holds data; its result is the
    conjunction of what the writes returned. *)
Lemma sync_secrets_recursive_run fuel :
  forall mount sub es (w : W),
    presents primary (pri w) mount sub es ->
    depth_all es < fuel ->
    exists s' t,
      _sync_secrets_recursive primary secondary fuel mount sub w
      = (Ok (forallb succeeded (calls_to Secondary t)),
         Clusters (pri w) s', t) /\
      map fst (calls_to Primary t)
      = ListSecrets (full_path_of mount sub)
          :: flat_map (primary_calls mount sub) es /\
      map fst (calls_to Secondary t)
      = flat_map (secondary_calls mount sub) es.
Proof.
  induction fuel as [|fuel IH]; intros mount sub es w [Hlist Hall] Hdepth;
    [lia |].
  destruct
    (@for_each_best_effort SP SS entry
       (fun e => sync_key primary secondary
                   (_sync_secrets_recursive primary secondary fuel)
                   mount sub (full_path_of mount sub) (entry_key e))
       (primary_calls mount sub) (secondary_calls mount sub) (pri w) es)
    with (success := true) (w := Clusters (pri w) (sec w))
    as [s' [t [Hrun [Hp Hs]]]].
  - intros e success w' Hin Hw'. rewrite <- Hw'.
    apply sync_key_step.
    + rewrite Hw'. eapply presents_all_in; eassumption.
    + intros k ch ->. apply IH.
      * pose proof (presents_all_in _ _ _ _ _ Hall Hin) as [_ [Hl Hc]].
        rewrite Hw'. split; assumption.
      * apply depth_in in Hin. simpl in Hin. unfold depth_all. lia.
  - reflexivity.
  - exists s', (Call Primary (ListSecrets (full_path_of mount sub))
                  (Keys (map entry_key es)) :: t).
    split; [| split].
    + simpl. unfold try_except, bind at 1, call_read_pri.
      fold (full_path_of mount sub). rewrite Hlist.
      rewrite for_each_map, Hrun. reflexivity.
    + simpl. rewrite Hp. reflexivity.
    + simpl. exact Hs.
Qed.

End Traversal.

Section Phases.

Variables SP SS : Type.
Variable primary : Client SP.
Variable secondary : Client SS.
Variable E : list string.

Local Abbreviation W := (clusters SP SS).




(** One listed mount in [_sync_secrets]. *)
Lemma sync_mount_step fuel tree item success (w : W) :
  (included E (fst item) = true ->
   presents primary (pri w) (rstrip_slash (fst item)) "" (tree (fst item)) /\
   depth_all (tree (fst item)) < fuel) ->
  exists s' t,
    sync_mount primary secondary E fuel item success w
    = (Ok (success && forallb succeeded (calls_to Secondary t)),
       Clusters (pri w) s', t) /\
    map fst (calls_to Primary t) = mount_primary_calls E tree item /\
    map fst (calls_to Secondary t) = mount_secondary_calls E tree item.
Proof.
  destruct item as [path config]. cbn [fst]. intros Htree.
  unfold sync_mount, mount_primary_calls, mount_secondary_calls, included in *.
  cbn [fst]. fold (engine_protected path) in *.
  destruct (should_exclude_path E path).
  { destruct w as [p s]. eapply step_intro;
      [reflexivity | simpl; rewrite andb_true_r; reflexivity
      | reflexivity | reflexivity]. }
  destruct (engine_protected path).
  { destruct w as [p s]. eapply step_intro;
      [reflexivity | simpl; rewrite andb_true_r; reflexivity
      | reflexivity | reflexivity]. }
  destruct (Htree eq_refl) as [Hpres Hdepth].
  destruct (@sync_secrets_recursive_run _ _ primary secondary fuel _ _ _ w
              Hpres Hdepth)
    as [s' [t [Hrun [Hp Hs]]]].
  simpl negb. cbn [andb].
  unfold bind at 1, log at 1. cbn beta iota.
  rewrite (@bind_ok _ _ _ _ _ _ _ _ _ _ Hrun). unfold ret.
  eapply step_intro; [reflexivity | | |].
  - simpl. rewrite app_nil_r.
    destruct (forallb succeeded (calls_to Secondary t)), success; reflexivity.
  - simpl. rewrite app_nil_r. exact Hp.
  - simpl. rewrite app_nil_r. exact Hs.
Qed.

Lemma sync_secrets_run fuel tree (c : W) L :
  list_secret_engines primary (pri c) = (Returns L, pri c) ->
  (forall item,
      In item L -> included E (fst item) = true ->
      presents primary (pri c) (rstrip_slash (fst item)) ""
        (tree (fst item)) /\
      depth_all (tree (fst item)) < fuel) ->
  exists s' t,
    _sync_secrets primary secondary E fuel c
    = (Ok (forallb succeeded (calls_to Secondary t)),
       Clusters (pri c) s', t) /\
    map fst (calls_to Primary t)
    = ListSecretEngines :: flat_map (mount_primary_calls E tree) L /\
    map fst (calls_to Secondary t)
    = flat_map (mount_secondary_calls E tree) L.
Proof.
  intros Hlist Htree.
  destruct
    (@for_each_best_effort SP SS _ (sync_mount primary secondary E fuel)
       (mount_primary_calls E tree) (mount_secondary_calls E tree) (pri c) L)
    with (success := true) (w := Clusters (pri c) (sec c))
    as [s' [t [Hrun [Hp Hs]]]].
  - intros item success w Hin Hw. rewrite <- Hw.
    apply sync_mount_step. rewrite Hw. auto.
  - reflexivity.
  - exists s', (Log INFO "Syncing secrets" []
               :: Call Primary ListSecretEngines (Listing L) :: t).
    split; [| split].
    + unfold _sync_secrets.
      rewrite (phase_run _ _ _ _ _ _ _ Hlist Hrun). reflexivity.
    + simpl. rewrite Hp. reflexivity.
    + simpl. exact Hs.
Qed.

End Phases.


Lemma sample_presents :
  presents InMemory.client Sample.primary_cluster "secret" ""
    (Sample.tree "secret/").
Proof. vm_compute. repeat split. Qed.


Example failed_write_is_followed_by_the_next :
  let r := _sync_secrets_recursive InMemory.client InMemory.client 3
             "secret" ""
             (Clusters Sample.primary_cluster Sample.flaky_secondary) in
  calls_to Secondary (tr_of r)
  = [(WriteSecret "secret/a" [("value", PyStr "1")], Bool false);
     (WriteSecret "secret/b/c" [("value", PyStr "2")], Bool true)] /\
  res_of r = Ok false.
Proof. split; reflexivity. Qed.

(** ** Leaves are read once *)

Lemma read_paths_app cs1 cs2 :
  read_paths (cs1 ++ cs2) = read_paths cs1 ++ read_paths cs2.
Proof. unfold read_paths. apply flat_map_app. Qed.

Lemma read_paths_primary_calls mount :
  forall e sub, read_paths (primary_calls mount sub e) = leaf_paths mount sub e.
Proof.
  fix IH 1. intros [k d | k ch] sub; simpl; [reflexivity |].
  change (read_paths (flat_map (primary_calls mount (sub_path_of sub k)) ch)
          = flat_map (leaf_paths mount (sub_path_of sub k)) ch).
  induction ch as [|e ch IHch]; simpl; [reflexivity |].
  rewrite read_paths_app, IH, IHch. reflexivity.
Qed.

Lemma read_paths_mount_calls E tree L :
  read_paths (flat_map (mount_primary_calls E tree) L)
  = flat_map (mount_leaf_paths E tree) L.
Proof.
  induction L as [|item L IH]; simpl; [reflexivity |].
  rewrite read_paths_app, IH. f_equal.
  unfold mount_primary_calls, mount_leaf_paths.
  destruct (included E (fst item)); [| reflexivity].
  change (read_paths (flat_map (primary_calls (rstrip_slash (fst item)) "")
                        (tree (fst item)))
          = flat_map (leaf_paths (rstrip_slash (fst item)) "")
              (tree (fst item))).
  induction (tree (fst item)) as [|e es IHes]; simpl; [reflexivity |].
  rewrite read_paths_app, read_paths_primary_calls, IHes. reflexivity.
Qed.

(** C5, as the code has it: on a primary that presents a finite hierarchy
    behind each mount that is neither excluded nor a system mount, a pass
    of [_sync_secrets] with fuel beyond its depth returns, reads each leaf
    of each of those hierarchies once, in listing order, and sends no
    listing, read or write below any other mount.  The exclusion set is
    consulted for the mount paths only. *)
Theorem sync_secrets_reads_each_leaf_once
        (SP SS : Type) (primary : Client SP) (secondary : Client SS)
        (E : list string) (fuel : nat) (c : clusters SP SS)
        (L : dict) (tree : string -> list entry) :
  list_secret_engines primary (pri c) = (Returns L, pri c) ->
  (forall item,
      In item L -> included E (fst item) = true ->
      presents primary (pri c) (rstrip_slash (fst item)) ""
        (tree (fst item)) /\
      depth_all (tree (fst item)) < fuel) ->
  let r := _sync_secrets primary secondary E fuel c in
  (exists b, res_of r = Ok b) /\
  read_paths (map fst (calls_to Primary (tr_of r)))
  = flat_map (mount_leaf_paths E tree) L /\
  map fst (calls_to Primary (tr_of r))
  = ListSecretEngines :: flat_map (mount_primary_calls E tree) L /\
  map fst (calls_to Secondary (tr_of r))
  = flat_map (mount_secondary_calls E tree) L.
Proof.
  intros Hlist Htree r. subst r.
  destruct (@sync_secrets_run _ _ primary secondary E fuel tree c L Hlist Htree)
    as [s' [t [-> [Hp Hs]]]].
  unfold res_of, tr_of. simpl. rewrite Hp.
  split; [eauto |]. split; [| split; [reflexivity | exact Hs]].
  apply read_paths_mount_calls.
Qed.

Lemma sync_secrets_reads_each_leaf_once_witness :
  read_paths
    (map fst (calls_to Primary
                (tr_of (_sync_secrets InMemory.client InMemory.client
                          Sample.E 3 Sample.world))))
  = ["secret/a"; "secret/b/c"].
Proof.
  apply (@sync_secrets_reads_each_leaf_once _ _ InMemory.client
           InMemory.client Sample.E 3 Sample.world
           [("secret/", InMemory.kv "application secrets");
            ("sys/", PyDict [("type", PyStr "system")])]
           Sample.tree).
  - reflexivity.
  - intros item [<- | [<- | []]] Hinc.
    + split; [exact sample_presents | vm_compute; lia].
    + discriminate Hinc.
Defined.

(** The traversal of a mount [secret/] with keys [a] and [b/], [b/]
    holding [c]: one listing for [secret] and one for
    [secret/b], one read and one write for each of the two leaves. *)
Example sync_secrets_scenario :
  let r := _sync_secrets InMemory.client InMemory.client Sample.E 3
             Sample.world in
  map fst (calls_to Primary (tr_of r))
  = [ListSecretEngines; ListSecrets "secret"; ReadSecret "secret/a";
     ListSecrets "secret/b"; ReadSecret "secret/b/c"] /\
  map fst (calls_to Secondary (tr_of r))
  = [WriteSecret "secret/a" [("value", PyStr "1")];
     WriteSecret "secret/b/c" [("value", PyStr "2")]] /\
  res_of r = Ok true.
Proof. repeat split. Qed.

(** With [secret/b/] in the exclusion set, the pass over the mount
    [secret/] still lists [secret/b] and reads and writes [secret/b/c]. *)
Lemma sync_secrets_reads_below_excluded_prefix :
  ~ touches_no_excluded_path ["secret/b/"]
      (tr_of (_sync_secrets InMemory.client InMemory.client ["secret/b/"] 3
                Sample.world)).
Proof.
  intros H. specialize (H "secret/b/c").
  assert (Hin : In "secret/b/c"
                  (secret_paths
                     (map fst (calls_to Primary
                        (tr_of (_sync_secrets InMemory.client InMemory.client
                                  ["secret/b/"] 3 Sample.world)))
                      ++ map fst (calls_to Secondary
                        (tr_of (_sync_secrets InMemory.client InMemory.client
                                  ["secret/b/"] 3 Sample.world)))))).
  { vm_compute. auto 10. }
  specialize (H Hin). vm_compute in H. discriminate H.
Qed.

(** * Further properties of the synchronizer *)

Section NeverRaises.

Variables SP SS : Type.
Variable primary : Client SP.
Variable secondary : Client SS.
Variable E : list string.



End NeverRaises.


Section ResetResult.

Variables SP SS : Type.
Variable secondary : Client SS.

Local Abbreviation W := (clusters SP SS).

Local Ltac triv := try solve [exact I | intros; exact I].






End ResetResult.


(** A reset whose only disable request is refused returns true. *)
Example clear_secondary_ignores_refusal :
  let r := _clear_secondary InMemory.client SampleFlaky.world in
  res_of r = Ok true /\
  calls_to Secondary (tr_of r)
  = [(ListSecretEngines, Listing [("old/", InMemory.kv "left over")]);
     (DisableSecretEngine "old", Bool false);
     (ListAuthMethods, Listing []); (ListPolicies, Keys [])].
Proof. split; reflexivity. Qed.

(** X3: a listed mount or auth method that is neither excluded nor
    protected and whose record holds no truthy [type] is passed over: the
    loop body sends no call, logs one warning and hands back [success] as
    it got it. *)
Theorem untyped_object_is_skipped
        (SP SS : Type) (secondary : Client SS) (E : list string)
        (path : string) (d : dict) (success : bool) (c : clusters SP SS) :
  should_exclude_path E path = false ->
  type_of d = None ->
  (engine_protected path = false ->
   sync_engine secondary E (path, PyDict d) success c
   = (Ok success, c,
      [Log WARNING "No type found for secret engine: {path}" [PyStr path]]))
  /\
  (String.eqb path "token/" = false ->
   sync_auth secondary E (path, PyDict d) success c
   = (Ok success, c,
      [Log WARNING "No type found for auth method: {path}" [PyStr path]])).
Proof.
  intros Hex Hty. unfold type_of in Hty. split; intros Hp.
  - unfold sync_engine. rewrite Hex. fold (engine_protected path). rewrite Hp.
    unfold config_get, bind at 1, ret at 1. cbn beta iota.
    destruct (dict_get d "type") as [ty |]; [| reflexivity].
    destruct (truthy ty); [discriminate | reflexivity].
  - unfold sync_auth. rewrite Hex, Hp.
    unfold config_get, bind at 1, ret at 1. cbn beta iota.
    destruct (dict_get d "type") as [ty |]; [| reflexivity].
    destruct (truthy ty); [discriminate | reflexivity].
Qed.

Lemma untyped_object_is_skipped_witness :
  sync_engine InMemory.client [] ("kv/", PyDict [("description", PyStr "x")])
    true SampleUntyped.world
  = (Ok true, SampleUntyped.world,
     [Log WARNING "No type found for secret engine: {path}" [PyStr "kv/"]]).
Proof.
  apply (untyped_object_is_skipped InMemory.client []
           "kv/" [("description", PyStr "x")] true SampleUntyped.world);
    reflexivity.
Defined.

Section Abort.

Variables SP SS : Type.
Variable primary : Client SP.
Variable secondary : Client SS.
Variable E : list string.

Local Abbreviation W := (clusters SP SS).

Lemma bind_assoc {A B C} (m : M SP SS A) (f : A -> M SP SS B)
      (g : B -> M SP SS C) (w : W) :
  bind (bind m f) g w = bind m (fun a => bind (f a) g) w.
Proof.
  unfold bind. destruct (m w) as [[[a | e |] c1] t1]; try reflexivity.
  destruct (f a c1) as [[[b | e |] c2] t2]; try reflexivity.
  destruct (g b c2) as [[r c3] t3]. rewrite app_assoc. reflexivity.
Qed.

Lemma bind_ext {A B} (m : M SP SS A) (f g : A -> M SP SS B) (w : W) :
  (forall a c, f a c = g a c) -> bind m f w = bind m g w.
Proof.
  intros H. unfold bind. destruct (m w) as [[[a | e |] c1] t1]; try reflexivity.
  rewrite H. reflexivity.
Qed.

Lemma for_each_app {A} (xs ys : list A) (body : A -> bool -> M SP SS bool)
      success (w : W) :
  for_each (xs ++ ys) body success w
  = bind (for_each xs body success) (fun s => for_each ys body s) w.
Proof.
  revert success w. induction xs as [|x xs IH]; intros success w; simpl.
  - unfold bind, ret. destruct (for_each ys body success w) as [[r c] t].
    reflexivity.
  - rewrite bind_assoc. apply bind_ext. intros s c. apply IH.
Qed.

(** The engine loop over a listing whose first record that is not a dict
    sits behind the well-formed records [pre]. *)
Lemma sync_engines_abort (c : W) pre path v post s :
  list_secret_engines primary (pri c) = (Returns (pre ++ (path, v) :: post), s) ->
  Forall (fun item => included E (fst item) = true -> is_dict (snd item)) pre ->
  included E path = true ->
  ~ is_dict v ->
  exists s' t e,
    _sync_secret_engines primary secondary E c
    = (Ok false, Clusters s s',
       Log INFO "Syncing secret engines" []
       :: Call Primary ListSecretEngines (Listing (pre ++ (path, v) :: post))
       :: t ++ [Log ERROR "Failed to sync secret engines: {e}" [PyStr e]]) /\
    map fst (calls_to Secondary t) = flat_map (engine_enable E) pre /\
    calls_to Primary t = [].
Proof.
  intros Hlist Hpre Hinc Hv. rewrite Forall_forall in Hpre.
  destruct
    (@for_each_best_effort SP SS _ (sync_engine secondary E)
       (fun _ => []) (engine_enable E) s pre)
    with (success := true) (w := Clusters s (sec c))
    as [s' [t [Hrun [Hp Hs]]]].
  { intros item success w Hin <-. apply sync_engine_step. auto. }
  { reflexivity. }
  assert (Hbad : forall success (w : W),
             sync_engine secondary E (path, v) success w
             = (Exc "object has no attribute 'get'", w, [])).
  { intros success w. unfold sync_engine.
    unfold included in Hinc. apply andb_true_iff in Hinc as [H1 H2].
    rewrite negb_true_iff in H1, H2. rewrite H1, H2.
    destruct v; try reflexivity. exfalso. apply Hv. exact I. }
  exists s', t, "object has no attribute 'get'". split; [| split].
  - unfold _sync_secret_engines, bind at 1, log at 1, try_except.
    cbn beta iota. unfold bind at 1, call_read_pri. rewrite Hlist.
    rewrite for_each_app. rewrite (@bind_ok _ _ _ _ _ _ _ _ _ _ Hrun).
    assert (Hrest : forall success (w : W),
               for_each ((path, v) :: post) (sync_engine secondary E) success w
               = (Exc "object has no attribute 'get'", w, [])).
    { intros success w. cbn [for_each]. unfold bind. rewrite Hbad.
      reflexivity. }
    rewrite Hrest. unfold bind, log, ret.
    simpl. rewrite app_nil_r. reflexivity.
  - exact Hs.
  - destruct (calls_to Primary t); [reflexivity |].
    exfalso. clear - Hp. induction pre; simpl in Hp; auto; discriminate.
Qed.

End Abort.

(** X4: when a listed mount that is neither excluded nor a system mount
    comes with something other than a record, [_sync_secret_engines]
    stops there: it has enabled the mounts listed before it, enables none
    of those listed after it, logs the failure and returns false. *)
Theorem sync_secret_engines_stops_at_malformed
        (SP SS : Type) (primary : Client SP) (secondary : Client SS)
        (E : list string) (c : clusters SP SS)
        (pre post : dict) (path : string) (v : pyval) (s : SP) :
  list_secret_engines primary (pri c)
  = (Returns (pre ++ (path, v) :: post), s) ->
  Forall (fun item => included E (fst item) = true -> is_dict (snd item)) pre ->
  included E path = true ->
  ~ is_dict v ->
  let r := _sync_secret_engines primary secondary E c in
  res_of r = Ok false /\
  map fst (calls_to Secondary (tr_of r)) = flat_map (engine_enable E) pre.
Proof.
  intros Hlist Hpre Hinc Hv r. subst r.
  destruct (@sync_engines_abort _ _ primary secondary E c pre path v post s
              Hlist Hpre Hinc Hv) as [s' [t [e [-> [Hs Hp]]]]].
  unfold res_of, tr_of. simpl. split; [reflexivity |].
  rewrite calls_to_app. simpl. rewrite app_nil_r. exact Hs.
Qed.

Lemma sync_secret_engines_stops_at_malformed_witness :
  let r := _sync_secret_engines InMemory.client InMemory.client []
             SampleUntyped.world in
  res_of r = Ok false /\ map fst (calls_to Secondary (tr_of r)) = [].
Proof.
  apply (@sync_secret_engines_stops_at_malformed _ _ InMemory.client
           InMemory.client [] SampleUntyped.world
           [("kv/", PyDict [("description", PyStr "no type")])]
           [("late/", InMemory.kv "never reached")]
           "odd/" (PyStr "not a record") SampleUntyped.primary_cluster).
  - reflexivity.
  - repeat constructor.
  - reflexivity.
  - intros H. exact H.
Defined.

(** ** Paths of the traversal *)

Lemma rstrip_slash_fixed s : endswith_slash s = false -> rstrip_slash s = s.
Proof.
  induction s as [|c s IH]; [reflexivity |].
  destruct s as [|d s'].
  - simpl. intros ->. reflexivity.
  - intros H. change (endswith_slash (String d s') = false) in H.
    change (rstrip_slash (String c (String d s')))
      with (match rstrip_slash (String d s') with
            | EmptyString =>
                if is_slash c then EmptyString else String c EmptyString
            | r => String c r
            end).
    rewrite (IH H). reflexivity.
Qed.

Lemma rstrip_slash_ends s : endswith_slash (rstrip_slash s) = false.
Proof.
  induction s as [|c s IH]; [reflexivity |]. simpl.
  destruct (rstrip_slash s) as [|d r] eqn:Hr.
  - destruct (is_slash c) eqn:Hc; [reflexivity | simpl; exact Hc].
  - exact IH.
Qed.

Lemma rstrip_slash_app a b :
  rstrip_slash b <> "" -> rstrip_slash (a ++ b) = (a ++ rstrip_slash b)%string.
Proof.
  intros Hb. induction a as [|c a IH]; [reflexivity |]. simpl. rewrite IH.
  destruct (a ++ rstrip_slash b)%string as [|d r] eqn:Hr; [| reflexivity].
  exfalso. apply Hb. destruct a; simpl in Hr; [exact Hr | discriminate].
Qed.

Lemma rstrip_slash_app_slash s : rstrip_slash (s ++ "/") = rstrip_slash s.
Proof.
  induction s as [|c s IH]; [reflexivity |]. simpl. rewrite IH. reflexivity.
Qed.

Lemma string_app_assoc (a b c : string) :
  ((a ++ b) ++ c = a ++ (b ++ c))%string.
Proof. induction a as [|x a IH]; simpl; [reflexivity | rewrite IH; reflexivity]. Qed.

Lemma endswith_slash_cons c s :
  s <> "" -> endswith_slash (String c s) = endswith_slash s.
Proof. destruct s; [congruence | reflexivity]. Qed.

Lemma lstrip_slash_fixed s : startswith s "/" = false -> lstrip_slash s = s.
Proof.
  destruct s as [|c s]; [reflexivity |]. simpl. unfold is_slash.
  rewrite andb_true_r. intros ->. reflexivity.
Qed.

Lemma startswith_slash_app a b :
  a <> "" -> startswith (a ++ b) "/" = startswith a "/".
Proof. destruct a; [congruence | reflexivity]. Qed.

Lemma startswith_slash_rstrip key :
  startswith key "/" = false -> rstrip_slash key <> "" ->
  startswith (rstrip_slash key) "/" = false.
Proof.
  destruct key as [|d k]; [reflexivity |]. simpl.
  destruct (rstrip_slash k) as [|x r].
  - destruct (is_slash d); [congruence | simpl; auto].
  - simpl. auto.
Qed.

(** X5: the traversal of a mount starts by listing the mount path without
    its trailing slashes, whatever the mount path is. *)
Theorem root_listing_path (mount_path : string) :
  full_path_of (rstrip_slash mount_path) "" = rstrip_slash mount_path.
Proof.
  unfold full_path_of, join_slash.
  change (rstrip_slash mount_path ++ "/" ++ "")%string
    with (rstrip_slash mount_path ++ "/")%string.
  rewrite rstrip_slash_app_slash.
  apply rstrip_slash_fixed, rstrip_slash_ends.
Qed.

(** X6: below a listed path that is not empty and has no leading slash,
    a leaf key that is not empty (a key without trailing slash) is read
    and written at [full_path/key]. *)
Theorem leaf_path_is_joined (full_path key : string) :
  full_path <> "" ->
  startswith full_path "/" = false ->
  key <> "" ->
  endswith_slash key = false ->
  current_path_of full_path key = (full_path ++ "/" ++ key)%string.
Proof.
  intros Hfull Hlead Hkey Hleaf. unfold current_path_of, strip_slash, join_slash.
  rewrite lstrip_slash_fixed by (rewrite startswith_slash_app; assumption).
  rewrite rstrip_slash_app.
  - f_equal. apply rstrip_slash_fixed.
    change ("/" ++ key)%string with (String "/" key).
    rewrite endswith_slash_cons; assumption.
  - rewrite rstrip_slash_fixed.
    + discriminate.
    + change ("/" ++ key)%string with (String "/" key).
      rewrite endswith_slash_cons; assumption.
Qed.

Lemma leaf_path_is_joined_witness :
  current_path_of "secret/b" "c" = "secret/b/c".
Proof.
  apply leaf_path_is_joined; [discriminate | reflexivity | discriminate
                             | reflexivity].
Defined.

(** X7: going down into a directory key extends both the sub-path and the
    listed path by the key without its trailing slashes: for a mount path
    without trailing slash, a clean sub-path and a key that has no leading
    slash and is not made of slashes only, the next listing is sent for
    [full_path/dir], and the new sub-path is clean again and not empty. *)
Theorem directory_path_is_joined (mount_path sub_path key : string) :
  endswith_slash mount_path = false ->
  clean sub_path ->
  startswith key "/" = false ->
  rstrip_slash key <> "" ->
  full_path_of mount_path (sub_path_of sub_path key)
  = (full_path_of mount_path sub_path ++ "/" ++ rstrip_slash key)%string /\
  clean (sub_path_of sub_path key) /\
  sub_path_of sub_path key <> "".
Proof.
  intros Hmount [Hlead Htrail] Hkey Hname.
  assert (Hkey0 : key <> "") by (intros ->; apply Hname; reflexivity).
  assert (Hsub' : sub_path_of sub_path key
                  = if String.eqb sub_path "" then rstrip_slash key
                    else (sub_path ++ "/" ++ rstrip_slash key)%string).
  { unfold sub_path_of, strip_slash, join_slash.
    destruct sub_path as [|c s].
    - simpl. rewrite lstrip_slash_fixed by assumption. reflexivity.
    - rewrite lstrip_slash_fixed
        by (rewrite startswith_slash_app; [assumption | discriminate]).
      rewrite <- (string_app_assoc (String c s) "/" key).
      rewrite rstrip_slash_app by assumption.
      apply string_app_assoc. }
  assert (Hnonempty : sub_path_of sub_path key <> "").
  { rewrite Hsub'. destruct sub_path; simpl; [assumption | discriminate]. }
  assert (Hends : endswith_slash (sub_path_of sub_path key) = false).
  { unfold sub_path_of, strip_slash. apply rstrip_slash_ends. }
  assert (Hstart : startswith (sub_path_of sub_path key) "/" = false).
  { rewrite Hsub'. destruct sub_path as [|c s]; simpl String.eqb; cbv iota.
    - apply startswith_slash_rstrip; assumption.
    - exact Hlead. }
  split; [| split; [split |]]; try assumption.
  unfold full_path_of, join_slash.
  rewrite rstrip_slash_app.
  2: { rewrite rstrip_slash_fixed.
       - discriminate.
       - change ("/" ++ sub_path_of sub_path key)%string
           with (String "/" (sub_path_of sub_path key)).
         rewrite endswith_slash_cons; assumption. }
  rewrite (rstrip_slash_fixed ("/" ++ sub_path_of sub_path key)).
  2: { change ("/" ++ sub_path_of sub_path key)%string
         with (String "/" (sub_path_of sub_path key)).
       rewrite endswith_slash_cons; assumption. }
  rewrite Hsub'. destruct sub_path as [|c s]; simpl String.eqb; cbv iota.
  - change (mount_path ++ "/" ++ "")%string with (mount_path ++ "/")%string.
    rewrite rstrip_slash_app_slash, (rstrip_slash_fixed mount_path Hmount).
    reflexivity.
  - rewrite (rstrip_slash_app mount_path).
    2: { rewrite rstrip_slash_fixed.
         - discriminate.
         - change ("/" ++ String c s)%string with (String "/" (String c s)).
           rewrite endswith_slash_cons; [assumption | discriminate]. }
    rewrite (rstrip_slash_fixed ("/" ++ String c s)).
    2: { change ("/" ++ String c s)%string with (String "/" (String c s)).
         rewrite endswith_slash_cons; [assumption | discriminate]. }
    rewrite !string_app_assoc. reflexivity.
Qed.

Lemma directory_path_is_joined_witness :
  full_path_of "secret" (sub_path_of "b" "c/") = "secret/b/c".
Proof.
  apply (@directory_path_is_joined "secret" "b" "c/");
    [reflexivity | split; reflexivity | reflexivity | discriminate].
Defined.

(** * Configuration *)

Module ConfigFacts.
Import Config.

Lemma dict_get_set_eq d k v : dict_get (dict_set d k v) k = Some v.
Proof.
  induction d as [|[k' v'] d IH]; simpl.
  - rewrite String.eqb_refl. reflexivity.
  - destruct (String.eqb k' k) eqn:Hk; simpl.
    + rewrite String.eqb_refl. reflexivity.
    + rewrite Hk. exact IH.
Qed.

Lemma dict_get_set_ne d k v k' :
  k' <> k -> dict_get (dict_set d k v) k' = dict_get d k'.
Proof.
  intros Hne. induction d as [|[k0 v0] d IH]; simpl.
  - destruct (String.eqb k k') eqn:Hk; [| reflexivity].
    apply String.eqb_eq in Hk. congruence.
  - destruct (String.eqb k0 k) eqn:Hk; simpl.
    + apply String.eqb_eq in Hk. subst k0.
      destruct (String.eqb k k') eqn:Hk'; [| reflexivity].
      apply String.eqb_eq in Hk'. congruence.
    + rewrite IH. reflexivity.
Qed.

Lemma dict_get_none d k : ~ In k (map fst d) -> dict_get d k = None.
Proof.
  induction d as [|[k' v'] d IH]; simpl; [reflexivity |].
  intros Hnot. destruct (String.eqb k' k) eqn:Hk.
  - apply String.eqb_eq in Hk. tauto.
  - apply IH. tauto.
Qed.

Lemma dict_get_some_in d k v : dict_get d k = Some v -> In k (map fst d).
Proof.
  induction d as [|[k' v'] d IH]; simpl; [discriminate |].
  destruct (String.eqb k' k) eqn:Hk.
  - apply String.eqb_eq in Hk. auto.
  - auto.
Qed.

Lemma dict_set_keys d k v :
  map fst (dict_set d k v)
  = map fst d ++ match dict_get d k with Some _ => [] | None => [k] end.
Proof.
  induction d as [|[k' v'] d IH]; simpl; [reflexivity |].
  destruct (String.eqb k' k) eqn:Hk; simpl.
  - apply String.eqb_eq in Hk. subst k'. rewrite app_nil_r. reflexivity.
  - rewrite IH. reflexivity.
Qed.

Lemma merge_config_nil base : _merge_config base [] = base.
Proof. reflexivity. Qed.

Lemma merge_config_cons base k v rest :
  _merge_config base ((k, v) :: rest)
  = _merge_config (merge_item base k v) rest.
Proof.
  unfold _merge_config, merge_item. simpl.
  destruct (dict_get base k) as [[] |]; destruct v; reflexivity.
Qed.

Lemma merge_item_get_eq base k v :
  dict_get (merge_item base k v) k
  = Some (match dict_get base k, v with
          | Some (PyDict b), PyDict o => PyDict (_merge_config b o)
          | _, _ => v
          end).
Proof.
  unfold merge_item.
  destruct (dict_get base k) as [[] |]; destruct v;
    apply dict_get_set_eq.
Qed.

Lemma merge_item_get_ne base k v k' :
  k' <> k -> dict_get (merge_item base k v) k' = dict_get base k'.
Proof.
  intros Hne. unfold merge_item.
  destruct (dict_get base k) as [[] |]; destruct v;
    apply dict_get_set_ne; assumption.
Qed.

Lemma merge_item_keys base k v :
  map fst (merge_item base k v)
  = map fst base ++ match dict_get base k with Some _ => [] | None => [k] end.
Proof.
  unfold merge_item.
  destruct (dict_get base k) as [[] |] eqn:Hg; destruct v;
    rewrite dict_set_keys, Hg; reflexivity.
Qed.

(** X8: what a key holds after [_merge_config]: a key the override does
    not mention keeps the value of the base; a key it mentions takes the
    override's value, except that two dicts are merged key by key in the
    same way. *)
Theorem merge_config_lookup (base override : dict) (k : string) :
  NoDup (map fst override) ->
  dict_get (_merge_config base override) k
  = match dict_get override k with
    | None => dict_get base k
    | Some v =>
        Some (match dict_get base k, v with
              | Some (PyDict b), PyDict o => PyDict (_merge_config b o)
              | _, _ => v
              end)
    end.
Proof.
  revert base. induction override as [|[k0 v0] rest IH]; intros base Hnd.
  - reflexivity.
  - rewrite merge_config_cons. inversion Hnd as [|? ? Hnot Hrest]; subst.
    rewrite (IH _ Hrest). simpl dict_get at 2 4.
    destruct (String.eqb k0 k) eqn:Hk.
    + apply String.eqb_eq in Hk. subst k0.
      rewrite (dict_get_none rest k Hnot). apply merge_item_get_eq.
    + assert (Hne : k <> k0)
        by (intros ->; rewrite String.eqb_refl in Hk; discriminate).
      rewrite (merge_item_get_ne base v0 Hne). reflexivity.
Qed.

Lemma merge_config_lookup_witness :
  dict_get (_merge_config _load_default_config sample_file) "primary"
  = Some (PyDict [("url", PyStr "https://bao-a:8200"); ("token", PyStr "")]).
Proof.
  rewrite (@merge_config_lookup _load_default_config sample_file "primary").
  - reflexivity.
  - repeat constructor; simpl; intuition discriminate.
Defined.

(** X9: [_merge_config] drops and moves nothing: the keys of the base
    stay, in their order, and the keys that only the override has come
    after them. *)
Theorem merge_config_keeps_keys (base override : dict) :
  exists added,
    map fst (_merge_config base override) = map fst base ++ added /\
    Forall (fun k => In k (map fst override) /\ ~ In k (map fst base)) added.
Proof.
  revert base. induction override as [|[k0 v0] rest IH]; intros base.
  - exists []. rewrite app_nil_r. split; [reflexivity | constructor].
  - rewrite merge_config_cons.
    destruct (IH (merge_item base k0 v0)) as [added [Hkeys Hadded]].
    rewrite merge_item_keys in Hkeys.
    rewrite Forall_forall in Hadded.
    destruct (dict_get base k0) as [v |] eqn:Hg.
    + exists added. rewrite app_nil_r in Hkeys. split; [exact Hkeys |].
      rewrite Forall_forall. intros k Hin.
      destruct (Hadded k Hin) as [H1 H2]. split.
      * right. exact H1.
      * rewrite merge_item_keys, Hg, app_nil_r in H2. exact H2.
    + exists (k0 :: added). rewrite <- app_assoc in Hkeys.
      split; [exact Hkeys |]. constructor.
      * split; [left; reflexivity |].
        intros Hin. apply in_map_iff in Hin as [[k v] [Hk Hin]].
        simpl in Hk. subst k.
        clear - Hg Hin. induction base as [|[k' v'] base IH];
          simpl in *; [contradiction |].
        destruct (String.eqb k' k0) eqn:Hk; [discriminate |].
        destruct Hin as [Heq | Hin]; [| auto].
        inversion Heq; subst. rewrite String.eqb_refl in Hk. discriminate.
      * rewrite Forall_forall. intros k Hin.
        destruct (Hadded k Hin) as [H1 H2]. split; [right; exact H1 |].
        rewrite merge_item_keys, Hg in H2.
        intros Hb. apply H2. apply in_or_app. left. exact Hb.
Qed.

End ConfigFacts.

Module ConfigGet.
Import Config ConfigFacts.

Lemma get_from_missing ks2 : forall ks1 v,
  v <> PyNone ->
  get_from v ks1 = Returns PyNone ->
  get_from v (ks1 ++ ks2) = Returns PyNone.
Proof.
  induction ks1 as [|key rest IH]; intros v Hv Hget; simpl in *.
  - congruence.
  - destruct v as [| b | z | s | l | d]; try discriminate.
    destruct (dict_get d key) as [u |]; [| reflexivity].
    destruct u; try reflexivity; apply IH; try discriminate; exact Hget.
Qed.

Lemma get_from_app ks2 : forall ks1 v u,
  u <> PyNone ->
  get_from v ks1 = Returns u ->
  get_from v (ks1 ++ ks2) = get_from u ks2.
Proof.
  induction ks1 as [|key rest IH]; intros v u Hu Hget; simpl in *.
  - congruence.
  - destruct v as [| b | z | s | l | d]; try discriminate.
    destruct (dict_get d key) as [x |]; [| congruence].
    destruct x; try congruence; apply IH; assumption.
Qed.

(** X10: [get] walks the keys from the whole configuration and stops at
    the first key that is missing (or holds [None]): it then returns
    [None] whatever keys follow.  Past a value it found, it goes on from
    that value, so a further key on a value that is not a dict raises. *)
Theorem get_composes (config : dict) (ks1 ks2 : list string) :
  get config [] = Returns (PyDict config) /\
  (get config ks1 = Returns PyNone ->
   get config (ks1 ++ ks2) = Returns PyNone) /\
  (forall u, u <> PyNone -> get config ks1 = Returns u ->
             get config (ks1 ++ ks2) = get_from u ks2) /\
  (forall u key, get config ks1 = Returns u -> u <> PyNone ->
                 ~ is_dict u ->
                 exists e, get config (ks1 ++ key :: ks2) = Raises e).
Proof.
  unfold get. split; [reflexivity |]. split; [| split].
  - apply get_from_missing. discriminate.
  - intros u Hu. apply get_from_app. exact Hu.
  - intros u key Hget Hu Hdict.
    rewrite (@get_from_app (key :: ks2) ks1 _ u Hu Hget).
    destruct u; simpl; eauto; try congruence. elim Hdict. exact I.
Qed.

Lemma get_composes_witness :
  get _load_default_config (["primary"; "port"] ++ ["number"])
  = Returns PyNone.
Proof.
  apply (get_composes _load_default_config ["primary"; "port"] ["number"]).
  reflexivity.
Defined.

Lemma validate_fields_ok config fields :
  (forall b, validate_fields config fields = Returns b -> b = true) /\
  (validate_fields config fields = Returns true <->
   forall section key,
     In (section, key) fields ->
     exists v, get config [section; key] = Returns v /\ truthy v = true).
Proof.
  induction fields as [|[section key] rest [IH1 IH2]]; simpl.
  - split; [intros b H; congruence |]. split; [intros _ s k [] | reflexivity].
  - destruct (get config [section; key]) as [v | e] eqn:Hget.
    + destruct (truthy v) eqn:Hv; simpl.
      * split; [exact IH1 |]. rewrite IH2. split.
        -- intros H s k [Heq | Hin]; [| auto].
           inversion Heq; subst. eauto.
        -- intros H s k Hin. apply H. right. exact Hin.
      * split; [intros b H; discriminate |]. split; [discriminate |].
        intros H. destruct (H section key (or_introl eq_refl)) as [v' [H1 H2]].
        congruence.
    + split; [intros b H; discriminate |]. split; [discriminate |].
      intros H. destruct (H section key (or_introl eq_refl)) as [v' [H1 H2]].
      congruence.
Qed.

(** X11: [validate] never returns false: it returns true exactly when the
    URL and the token of both instances are present and truthy, and
    raises otherwise. *)
Theorem validate_true_or_raises (config : dict) :
  (forall b, validate config = Returns b -> b = true) /\
  (validate config = Returns true <->
   forall section key,
     In (section, key) required_fields ->
     exists v, get config [section; key] = Returns v /\ truthy v = true).
Proof. apply validate_fields_ok. Qed.

Lemma validate_true_or_raises_witness :
  exists v,
    get [("primary", PyDict [("url", PyStr "u"); ("token", PyStr "t")]);
         ("secondary", PyDict [("url", PyStr "v"); ("token", PyStr "w")])]
      ["secondary"; "token"] = Returns v /\ truthy v = true.
Proof.
  destruct (validate_true_or_raises
              [("primary", PyDict [("url", PyStr "u"); ("token", PyStr "t")]);
               ("secondary", PyDict [("url", PyStr "v"); ("token", PyStr "w")])])
    as [_ [H _]].
  apply H; [reflexivity | simpl; auto].
Defined.

End ConfigGet.

Module ConfigEnv.
Import Config ConfigFacts ConfigGet.

Lemma get_two config s k :
  get config [s; k]
  = match dict_get config s with
    | None | Some PyNone => Returns PyNone
    | Some (PyDict d) =>
        match dict_get d k with
        | None | Some PyNone => Returns PyNone
        | Some v => Returns v
        end
    | Some _ => Raises "object has no attribute 'get'"
    end.
Proof.
  unfold get. simpl. destruct (dict_get config s) as [[] |]; try reflexivity;
    try (destruct (dict_get d k) as [[] |]; reflexivity).
Qed.

Lemma set_nested_get_eq config s k v config' :
  set_nested config s k v = Returns config' -> v <> PyNone ->
  get config' [s; k] = Returns v.
Proof.
  unfold set_nested. intros Hset Hv.
  destruct (dict_get config s) as [[| | | | | d] |]; try discriminate.
  inversion Hset; subst. rewrite get_two, dict_get_set_eq, dict_get_set_eq.
  destruct v; congruence.
Qed.

Lemma set_nested_get_ne config s' k' v config' s k :
  set_nested config s' k' v = Returns config' -> (s', k') <> (s, k) ->
  get config' [s; k] = get config [s; k].
Proof.
  unfold set_nested. intros Hset Hne.
  destruct (dict_get config s') as [[| | | | | d] |] eqn:Hs; try discriminate.
  inversion Hset; subst. rewrite !get_two.
  destruct (String.eqb s' s) eqn:Heq.
  - apply String.eqb_eq in Heq. subst s'. rewrite dict_get_set_eq, Hs.
    rewrite dict_get_set_ne; [reflexivity |]. congruence.
  - rewrite dict_get_set_ne; [reflexivity |].
    intros ->. rewrite String.eqb_refl in Heq. discriminate.
Qed.

Section Env.

Variable getenv : string -> option string.
Variable py_int : string -> option Z.
Variable py_lower : string -> string.
Variable read_yaml : string -> option (reply pyval).

Lemma env_value_not_none var value v :
  env_value py_int py_lower var value = Returns v -> v <> PyNone.
Proof.
  unfold env_value.
  destruct (str_in var _); [destruct (py_int value) |
                            destruct (String.eqb var _)];
    intros H; inversion H; discriminate.
Qed.

Lemma load_env_untouched s k mappings : forall config config',
  (forall var pair, In (var, pair) mappings -> pair = (s, k) ->
                    getenv var = None) ->
  load_env getenv py_int py_lower mappings config = Returns config' ->
  get config' [s; k] = get config [s; k].
Proof.
  induction mappings as [|[var [s' k']] rest IH]; intros config config' Hnone;
    simpl.
  - intros H. inversion H. reflexivity.
  - assert (Hrest : forall var pair, In (var, pair) rest -> pair = (s, k) ->
                                     getenv var = None)
      by (intros v p Hin; apply Hnone; right; exact Hin).
    destruct (getenv var) as [value |] eqn:Hvar; [| apply IH; exact Hrest].
    destruct (env_value py_int py_lower var value) as [v | e];
      [| discriminate].
    destruct (set_nested config s' k' v) as [c1 | e] eqn:Hset;
      [| discriminate].
    intros Hload. rewrite (IH _ _ Hrest Hload).
    eapply set_nested_get_ne; [exact Hset |].
    intros Heq. specialize (Hnone var (s', k') (or_introl eq_refl) Heq).
    congruence.
Qed.

Lemma load_env_sets s k var value mappings : forall config config',
  NoDup (map snd mappings) ->
  In (var, (s, k)) mappings ->
  getenv var = Some value ->
  load_env getenv py_int py_lower mappings config = Returns config' ->
  exists v, env_value py_int py_lower var value = Returns v /\
            get config' [s; k] = Returns v.
Proof.
  induction mappings as [|[var0 [s0 k0]] rest IH];
    intros config config' Hnd Hin Hvar; simpl; [contradiction |].
  inversion Hnd as [|? ? Hnot Hnd']; subst.
  destruct Hin as [Heq | Hin].
  - inversion Heq; subst. rewrite Hvar.
    destruct (env_value py_int py_lower var value) as [v | e] eqn:Hv;
      [| discriminate].
    destruct (set_nested config s k v) as [c1 | e] eqn:Hset;
      [| discriminate].
    intros Hload. exists v. split; [reflexivity |].
    rewrite (@load_env_untouched s k rest c1 config').
    + eapply set_nested_get_eq; [exact Hset |].
      eapply env_value_not_none. exact Hv.
    + intros v' p Hin' ->. exfalso. apply Hnot.
      apply in_map_iff. exists (v', (s, k)). auto.
    + exact Hload.
  - destruct (getenv var0) as [value0 |]; [| apply IH; assumption].
    destruct (env_value py_int py_lower var0 value0) as [v0 | e];
      [| discriminate].
    destruct (set_nested config s0 k0 v0) as [c1 | e]; [| discriminate].
    apply IH; assumption.
Qed.

Lemma load_env_raises var pair value e mappings : forall config,
  In (var, pair) mappings ->
  getenv var = Some value ->
  env_value py_int py_lower var value = Raises e ->
  exists e', load_env getenv py_int py_lower mappings config = Raises e'.
Proof.
  induction mappings as [|[var0 [s0 k0]] rest IH]; intros config Hin Hvar Hv;
    simpl; [contradiction |].
  destruct Hin as [Heq | Hin].
  - inversion Heq; subst. rewrite Hvar, Hv. eauto.
  - destruct (getenv var0) as [value0 |]; [| apply IH; assumption].
    destruct (env_value py_int py_lower var0 value0) as [v0 | e0]; [| eauto].
    destruct (set_nested config s0 k0 v0) as [c1 | e1]; [| eauto].
    apply IH; assumption.
Qed.

Lemma env_mappings_nodup : NoDup (map snd env_mappings).
Proof.
  repeat constructor; simpl; intuition discriminate.
Qed.

(** What [__init__] hands to [_load_env_config]. *)
Lemma init_loads_env config_file cfg :
  __init__ getenv py_int py_lower read_yaml config_file = Returns cfg ->
  exists config,
    _load_env_config getenv py_int py_lower config = Returns cfg /\
    (config = _load_default_config \/
     exists path file_config,
       config_file = Some path /\
       read_yaml path = Some (Returns (PyDict file_config)) /\
       config = _merge_config _load_default_config file_config).
Proof.
  unfold __init__. destruct config_file as [path |].
  - destruct (String.eqb path ""); [eauto |].
    destruct (read_yaml path) as [[[| | | | | file_config] | e] |] eqn:Hy;
      try discriminate; eauto 10.
  - eauto.
Qed.

End Env.

Lemma environment_value_set
      (getenv : string -> option string) (py_int : string -> option Z)
      (py_lower : string -> string)
      (read_yaml : string -> option (reply pyval))
      (config_file : option string) (cfg : dict)
      (var section key value : string) :
  __init__ getenv py_int py_lower read_yaml config_file = Returns cfg ->
  In (var, (section, key)) env_mappings ->
  getenv var = Some value ->
  exists v, env_value py_int py_lower var value = Returns v /\
            get cfg [section; key] = Returns v.
Proof.
  intros Hinit Hin Hvar.
  apply init_loads_env in Hinit as [config [Hload _]].
  exact (@load_env_sets getenv py_int py_lower section key var value
           env_mappings config cfg env_mappings_nodup Hin Hvar Hload).
Qed.

(** X12: a setting given in the environment prevails over the file and
    the defaults: when the construction succeeds, each of the nine mapped
    variables that is set is what [get] returns for its section and key,
    as a string, or converted for the two integer settings and for
    [verify_ssl]. *)
Theorem environment_prevails
        (getenv : string -> option string) (py_int : string -> option Z)
        (py_lower : string -> string)
        (read_yaml : string -> option (reply pyval))
        (config_file : option string) (cfg : dict)
        (var section key value : string) :
  __init__ getenv py_int py_lower read_yaml config_file = Returns cfg ->
  In (var, (section, key)) env_mappings ->
  getenv var = Some value ->
  exists v, env_value py_int py_lower var value = Returns v /\
            get cfg [section; key] = Returns v.
Proof. apply environment_value_set. Qed.

Lemma environment_prevails_witness :
  exists cfg,
    __init__ sample_env sample_int sample_lower sample_yaml
      (Some "config.yaml") = Returns cfg /\
    get cfg ["replication"; "timeout"] = Returns (PyInt 10).
Proof.
  eexists. split; [reflexivity |].
  destruct (@environment_prevails sample_env sample_int sample_lower
              sample_yaml (Some "config.yaml") _
              "OPENBAO_TIMEOUT" "replication" "timeout" "10" eq_refl)
    as [v [Hv Hget]].
  - simpl. auto 10.
  - reflexivity.
  - inversion Hv; subst. exact Hget.
Defined.

(** X13: no environment variable reaches the exclusion list:
    [_load_env_config] leaves [replication.exclude_paths] as it finds it,
    so without a configuration file the list is always [sys/],
    [identity/]. *)
Theorem exclude_paths_not_from_environment
        (getenv : string -> option string) (py_int : string -> option Z)
        (py_lower : string -> string)
        (read_yaml : string -> option (reply pyval)) :
  (forall config cfg,
      _load_env_config getenv py_int py_lower config = Returns cfg ->
      get cfg ["replication"; "exclude_paths"]
      = get config ["replication"; "exclude_paths"]) /\
  (forall cfg,
      __init__ getenv py_int py_lower read_yaml None = Returns cfg ->
      get cfg ["replication"; "exclude_paths"]
      = Returns (PyList [PyStr "sys/"; PyStr "identity/"])).
Proof.
  assert (H : forall config cfg,
             _load_env_config getenv py_int py_lower config = Returns cfg ->
             get cfg ["replication"; "exclude_paths"]
             = get config ["replication"; "exclude_paths"]).
  { intros config cfg Hload.
    apply (@load_env_untouched getenv py_int py_lower "replication"
             "exclude_paths" env_mappings config cfg); [| exact Hload].
    intros var pair Hin ->. simpl in Hin.
    repeat (destruct Hin as [Hin | Hin]; [discriminate |]). contradiction. }
  split; [exact H |].
  intros cfg Hinit. unfold __init__ in Hinit. rewrite (H _ _ Hinit).
  reflexivity.
Qed.

Lemma exclude_paths_not_from_environment_witness :
  exists cfg,
    __init__ sample_env sample_int sample_lower sample_yaml None
    = Returns cfg /\
    get cfg ["replication"; "exclude_paths"]
    = Returns (PyList [PyStr "sys/"; PyStr "identity/"]).
Proof.
  eexists. split; [reflexivity |].
  apply (exclude_paths_not_from_environment sample_env sample_int
           sample_lower sample_yaml).
  reflexivity.
Defined.

(** X14: an [OPENBAO_SYNC_INTERVAL] or [OPENBAO_TIMEOUT] that [int]
    rejects makes the construction raise; the default is not used in its
    place. *)
Theorem bad_integer_setting_raises
        (getenv : string -> option string) (py_int : string -> option Z)
        (py_lower : string -> string)
        (read_yaml : string -> option (reply pyval))
        (config_file : option string) (var value : string) :
  var = "OPENBAO_SYNC_INTERVAL" \/ var = "OPENBAO_TIMEOUT" ->
  getenv var = Some value ->
  py_int value = None ->
  exists e,
    __init__ getenv py_int py_lower read_yaml config_file = Raises e.
Proof.
  intros Hvar Hget Hint.
  assert (Hraise : forall config,
             exists e, _load_env_config getenv py_int py_lower config
                       = Raises e).
  { intros config.
    assert (Hv : env_value py_int py_lower var value
                 = Raises "invalid literal for int()").
    { unfold env_value. destruct Hvar as [-> | ->]; simpl; rewrite Hint;
        reflexivity. }
    destruct Hvar as [-> | ->].
    - apply (@load_env_raises getenv py_int py_lower "OPENBAO_SYNC_INTERVAL"
               ("replication", "sync_interval") value
               "invalid literal for int()" env_mappings config);
        [simpl; auto 10 | assumption | assumption].
    - apply (@load_env_raises getenv py_int py_lower "OPENBAO_TIMEOUT"
               ("replication", "timeout") value
               "invalid literal for int()" env_mappings config);
        [simpl; auto 10 | assumption | assumption]. }
  unfold __init__. destruct config_file as [path |]; [| apply Hraise].
  destruct (String.eqb path ""); [apply Hraise |].
  destruct (read_yaml path) as [[[| | | | | file_config] | e] |]; eauto.
Qed.

Lemma bad_integer_setting_raises_witness :
  exists e,
    __init__ (fun name => if String.eqb name "OPENBAO_TIMEOUT"
                          then Some "ten" else None)
      sample_int sample_lower sample_yaml None = Raises e.
Proof.
  apply (@bad_integer_setting_raises _ sample_int sample_lower sample_yaml
           None "OPENBAO_TIMEOUT" "ten").
  - right. reflexivity.
  - reflexivity.
  - reflexivity.
Defined.

(** X15: the tokens have no usable default: without a configuration
    file, a configuration built from an environment in which
    [OPENBAO_PRIMARY_TOKEN] or [OPENBAO_SECONDARY_TOKEN] is unset or empty
    does not validate. *)
Theorem tokens_must_be_given
        (getenv : string -> option string) (py_int : string -> option Z)
        (py_lower : string -> string)
        (read_yaml : string -> option (reply pyval))
        (cfg : dict) (var section : string) :
  __init__ getenv py_int py_lower read_yaml None = Returns cfg ->
  (var, section) = ("OPENBAO_PRIMARY_TOKEN", "primary") \/
  (var, section) = ("OPENBAO_SECONDARY_TOKEN", "secondary") ->
  getenv var = None \/ getenv var = Some "" ->
  exists e, validate cfg = Raises e.
Proof.
  intros Hinit Hwhich Hvar.
  assert (Hin : In (var, (section, "token")) env_mappings)
    by (destruct Hwhich as [H | H]; inversion H; simpl; auto 10).
  assert (Hget : get cfg [section; "token"] = Returns (PyStr "")).
  { destruct Hvar as [Hnone | Hempty].
    - unfold __init__ in Hinit.
      rewrite (@load_env_untouched getenv py_int py_lower section "token"
                 env_mappings _load_default_config cfg);
        [| | exact Hinit].
      + destruct Hwhich as [H | H]; inversion H; reflexivity.
      + intros var' pair Hin' ->. simpl in Hin'.
        destruct Hwhich as [H | H]; inversion H; subst;
          repeat (destruct Hin' as [Hin' | Hin'];
                  [inversion Hin'; subst; try assumption; discriminate |]);
          contradiction.
    - destruct (@environment_value_set getenv py_int py_lower read_yaml
                  None cfg var section "token" "" Hinit Hin Hempty)
        as [v [Hv Hg]].
      unfold env_value in Hv.
      destruct Hwhich as [H | H]; inversion H; subst; simpl in Hv;
        inversion Hv; subst; exact Hg. }
  destruct (validate cfg) as [b | e] eqn:Hval; [| eauto].
  exfalso.
  destruct (validate_fields_ok cfg required_fields) as [Htrue Hiff].
  pose proof (Htrue b Hval). subst b.
  destruct Hiff as [Hfw _]. specialize (Hfw Hval).
  destruct (Hfw section "token") as [v [H1 H2]].
  - destruct Hwhich as [H | H]; inversion H; simpl; auto.
  - rewrite Hget in H1. inversion H1; subst. discriminate.
Qed.

Lemma tokens_must_be_given_witness :
  exists e, validate _load_default_config = Raises e.
Proof.
  apply (@tokens_must_be_given (fun _ => None) sample_int sample_lower
           sample_yaml _load_default_config
           "OPENBAO_PRIMARY_TOKEN" "primary").
  - reflexivity.
  - left. reflexivity.
  - left. reflexivity.
Defined.

End ConfigEnv.

(** * The client over its transport *)

Module ClientFacts.

Import OpenBaoClient.

Section Session.

Variable S : Type.
Variable send : request -> S -> outcome response * S.
Variable urljoin : string -> string -> string.
Variable self : client.

(** What [_make_request] comes to, by the answer of the session. *)
Lemma make_request_run (method path : string) (kw : kwargs) (s : S) :
  let r := build_request urljoin self method path kw in
  exists logs,
    _make_request send urljoin self method path kw s =
      (match fst (send r s) with
       | Value resp =>
           if accepted resp then Value resp
           else Failed (RequestException "HTTPError")
       | Failed e => Failed e
       end,
       snd (send r s),
       Logged DEBUG "{method} {url}" [PyStr method; PyStr (r_url r)]
         :: Sent r :: logs)
    /\ sent logs = [].
Proof.
  cbv zeta. unfold _make_request, hbind, hlog, session_request, accepted.
  destruct (send (build_request urljoin self method path kw) s)
    as [[resp | e] s'] eqn:Hsend; cbn [fst snd].
  - destruct (400 <=? status_code resp)%Z eqn:Hge; cbn [andb negb].
    + unfold hbind, hlog.
      destruct (raises_for_status (status_code resp)); cbn [negb];
        eexists; (split; [reflexivity | reflexivity]).
    + unfold hret. exists []. split; reflexivity.
  - exists []. split; reflexivity.
Qed.


Lemma sent_cons_log l msg args tr :
  sent (Logged l msg args :: tr) = sent tr.
Proof. reflexivity. Qed.

Lemma sent_cons_sent r tr : sent (Sent r :: tr) = r :: sent tr.
Proof. reflexivity. Qed.

Lemma sent_app a b : sent (a ++ b) = sent a ++ sent b.
Proof. unfold sent. apply flat_map_app. Qed.

Lemma accepted_status resp :
  accepted resp = negb (raises_for_status (status_code resp)).
Proof.
  unfold accepted, raises_for_status.
  destruct (400 <=? status_code resp)%Z; reflexivity.
Qed.

Ltac unfold_methods :=
  cbn [perform];
  unfold as_bool, health_check, list_secrets, read_secret, write_secret,
    delete_secret, list_auth_methods, enable_auth_method,
    disable_auth_method, list_secret_engines, enable_secret_engine,
    disable_secret_engine, list_policies, read_policy, write_policy,
    delete_policy, get, post, put, delete;
  unfold except_request, hbind; cbv beta.

Ltac sent_simpl :=
  repeat (rewrite ?sent_cons_log, ?sent_cons_sent, ?sent_app);
  cbn [app].

(** Runs the request of the method in the goal: [k] is given the request;
    afterwards the answer of the session is a variable. *)
Ltac run_request k :=
  unfold_methods;
  match goal with
  | |- context [_make_request ?sd ?uj ?c ?m ?p ?kw ?s] =>
      let logs := fresh "logs" in
      let Hrun := fresh "Hrun" in
      let Hlogs := fresh "Hlogs" in
      destruct (make_request_run m p kw s) as (logs & Hrun & Hlogs);
      cbv zeta in Hrun; rewrite Hrun; clear Hrun;
      k (build_request uj c m p kw)
  end.

(** Splits on what [response.json()] and the [.get] chain give. *)
Ltac decode :=
  unfold json_of;
  repeat match goal with
    | |- context [match json ?r with _ => _ end] =>
        destruct (json r) as [? | [? | ?]]
    | |- context [py_get ?v _ _ _] =>
        destruct v; cbn [py_get]; unfold hret, hfail
    end.

Ltac finish_run Hlogs :=
  cbn -[sent append build_request raises_for_status accepted Z.eqb];
  sent_simpl; rewrite ?Hlogs; cbn [app].

(** X16: a mutating method of the client sends exactly one request and
    never raises a request error: it returns [True] when the session
    answers with a status outside 400..599, [False] when the status is
    in that range or the session raises a request error; any other
    exception of the session leaves the method. *)
Theorem mutation_succeeds_iff_accepted (c : call) (s : S) :
  mutating c = true ->
  exists req,
    sent (snd (perform send urljoin self c s)) = [req] /\
    snd (fst (perform send urljoin self c s)) = snd (send req s) /\
    fst (fst (perform send urljoin self c s)) =
      match fst (send req s) with
      | Value resp =>
          Value (PyBool (negb (raises_for_status (status_code resp))))
      | Failed (RequestException _) => Value (PyBool false)
      | Failed (OtherException e) => Failed (OtherException e)
      end.
Proof.
  intros Hmut. destruct c; try discriminate Hmut; clear Hmut.
  all: run_request ltac:(fun r =>
         exists r; destruct (send r s) as [[resp | [e | e]] s']);
       cbn [fst snd]; try rewrite <- accepted_status;
       try destruct (accepted resp).
  all: finish_run Hlogs.
  all: repeat split; reflexivity.
Qed.


(** X17: [delete_secret] sends exactly one DELETE request and answers by
    the status of the response in the same way: [True] outside 400..599,
    [False] inside or on a request error. *)
Theorem delete_secret_answers_by_status (path : string) (s : S) :
  exists req,
    sent (snd (delete_secret send urljoin self path s)) = [req] /\
    r_method req = "DELETE" /\
    r_json req = None /\
    fst (fst (delete_secret send urljoin self path s)) =
      match fst (send req s) with
      | Value resp => Value (negb (raises_for_status (status_code resp)))
      | Failed (RequestException _) => Value false
      | Failed (OtherException e) => Failed (OtherException e)
      end.
Proof.
  run_request ltac:(fun r =>
    exists r; destruct (send r s) as [[resp | [e | e]] s']);
    cbn [fst snd]; try rewrite <- accepted_status;
    try destruct (accepted resp).
  all: finish_run Hlogs.
  all: repeat split; reflexivity.
Qed.

Lemma accepted_200 resp :
  accepted resp = false -> Z.eqb (status_code resp) 200 = false.
Proof.
  unfold accepted, raises_for_status. intros Hacc.
  destruct (Z.leb_spec 400 (status_code resp)) as [Hge | Hlt];
    [| discriminate Hacc].
  apply Z.eqb_neq. lia.
Qed.

(** X18: [health_check] sends one GET request and is [True] exactly
    when the session answers with status 200; every other status and
    every request error give [False]. *)
Theorem health_check_true_iff_200 (s : S) :
  exists req,
    sent (snd (health_check send urljoin self s)) = [req] /\
    r_method req = "GET" /\
    fst (fst (health_check send urljoin self s)) =
      match fst (send req s) with
      | Value resp => Value (Z.eqb (status_code resp) 200)
      | Failed (RequestException _) => Value false
      | Failed (OtherException e) => Failed (OtherException e)
      end.
Proof.
  run_request ltac:(fun r =>
    exists r; destruct (send r s) as [[resp | [e | e]] s']);
    cbn [fst snd]; try destruct (accepted resp) eqn:Hacc.
  all: finish_run Hlogs.
  all: repeat split; try reflexivity.
  rewrite (accepted_200 _ Hacc). reflexivity.
Qed.

(** X19: when the request fails (the session raises a request error, or
    answers with a status in 400..599), no method raises: the list
    methods return an empty list or dict, the read methods [None], and
    [health_check] and the mutating methods [False]. *)
Theorem failed_request_gives_empty_answer (c : call) (s : S) :
  (forall req,
     match fst (send req s) with
     | Value resp => raises_for_status (status_code resp) = true
     | Failed (RequestException _) => True
     | Failed (OtherException _) => False
     end) ->
  fst (fst (perform send urljoin self c s)) =
    Value (match c with
           | ListSecrets _ | ListPolicies => PyList []
           | ListAuthMethods | ListSecretEngines => PyDict []
           | ReadSecret _ | ReadPolicy _ => PyNone
           | _ => PyBool false
           end).
Proof.
  intros Hfail. destruct c.
  all: run_request ltac:(fun r =>
         pose proof (Hfail r) as Hr;
         destruct (send r s) as [[resp | [e | e]] s'];
         cbn [fst] in Hr; cbn [fst snd];
         [rewrite accepted_status, Hr | | contradiction Hr]).
  all: finish_run Hlogs; reflexivity.
Qed.


Lemma with_json_verify d kw : kw_verify (with_json d kw) = kw_verify kw.
Proof. unfold with_json. destruct (data_truthy d); reflexivity. Qed.

Lemma with_json_timeout d kw : kw_timeout (with_json d kw) = kw_timeout kw.
Proof. unfold with_json. destruct (data_truthy d); reflexivity. Qed.

(** The request that a call sends. *)
Lemma request_shape (c : call) (s : S) :
  exists req,
    sent (snd (perform send urljoin self c s)) = [req] /\
    r_verify req = verify_ssl self /\
    r_timeout req = timeout self /\
    r_headers req = session_headers self /\
    mutating c = negb (String.eqb (r_method req) "GET") /\
    exists rest, r_url req = urljoin (url self ++ "/") ("v1/" ++ rest).
Proof.
  destruct c.
  all: run_request ltac:(fun r =>
         exists r; destruct (send r s) as [[resp | [e | e]] s']);
       cbn [fst snd]; try destruct (accepted resp).
  all: decode.
  all: finish_run Hlogs.
  all: split; [reflexivity |].
  all: unfold build_request;
       cbn [r_verify r_timeout r_headers r_method r_url];
       rewrite ?with_json_verify, ?with_json_timeout;
       cbn [no_kwargs kw_verify kw_timeout].
  all: do 4 (split; [reflexivity |]).
  all: eexists; reflexivity.
Qed.


(** Runs the request of the method in the goal when the session answers
    with the accepted response [resp]. *)
Ltac run_accepted Hsend Hok :=
  run_request ltac:(fun r =>
    let Hr := fresh "Hr" in
    let o := fresh "o" in
    pose proof (Hsend r) as Hr;
    destruct (send r _) as [o ?]; cbn [fst] in Hr; subst o;
    cbn [fst snd]; rewrite accepted_status, Hok; cbn [negb]).

(** X21: on an accepted response whose document is an object without a
    [data] member, the list methods return an empty list or dict and
    [read_policy] returns the empty string (not [None]). *)
Theorem missing_data_gives_default
        (s : S) (resp : response) (d : dict) (path name : string) :
  (forall req, fst (send req s) = Value resp) ->
  raises_for_status (status_code resp) = false ->
  json resp = Value (PyDict d) ->
  dict_get d "data" = None ->
  fst (fst (list_secrets send urljoin self path s)) = Value (PyList []) /\
  fst (fst (list_policies send urljoin self s)) = Value (PyList []) /\
  fst (fst (list_auth_methods send urljoin self s)) = Value (PyDict []) /\
  fst (fst (list_secret_engines send urljoin self s)) = Value (PyDict []) /\
  fst (fst (read_policy send urljoin self name s)) = Value (PyStr "").
Proof.
  intros Hsend Hok Hdoc Hmiss.
  repeat split.
  all: run_accepted Hsend Hok.
  all: unfold json_of; rewrite Hdoc; cbn [py_get]; unfold hret.
  all: unfold dict_get_default; rewrite Hmiss; cbn [py_get]; unfold hret.
  all: reflexivity.
Qed.

(** X22: on an accepted response whose document is not an object, the
    list methods and [read_policy] raise: the error is not a request
    error, so their [except] clause lets it through. *)
Theorem non_object_document_raises
        (s : S) (resp : response) (v : pyval) (path name : string) :
  (forall req, fst (send req s) = Value resp) ->
  raises_for_status (status_code resp) = false ->
  json resp = Value v ->
  (forall d, v <> PyDict d) ->
  let e := Failed (OtherException "object has no attribute 'get'") in
  fst (fst (list_secrets send urljoin self path s)) = e /\
  fst (fst (list_policies send urljoin self s)) = e /\
  fst (fst (list_auth_methods send urljoin self s)) = e /\
  fst (fst (list_secret_engines send urljoin self s)) = e /\
  fst (fst (read_policy send urljoin self name s)) = e.
Proof.
  intros Hsend Hok Hdoc Hobj e. subst e.
  repeat split.
  all: run_accepted Hsend Hok.
  all: unfold json_of; rewrite Hdoc.
  all: destruct v as [| | | | |d]; try (exfalso; apply (Hobj d); reflexivity).
  all: reflexivity.
Qed.

(** X23: [read_secret] returns the whole document of an accepted
    response, and [write_secret] with that document sends it unchanged
    as the body of its POST request: what the synchronizer reads is what
    it writes. *)
Theorem secret_document_is_forwarded_whole
        (s s2 : S) (resp : response) (d : dict) (path : string) :
  (forall req, fst (send req s) = Value resp) ->
  raises_for_status (status_code resp) = false ->
  json resp = Value (PyDict d) ->
  d <> [] ->
  fst (fst (read_secret send urljoin self path s)) = Value (PyDict d) /\
  exists req,
    sent (snd (write_secret send urljoin self path d s2)) = [req] /\
    r_method req = "POST" /\
    r_json req = Some d.
Proof.
  intros Hsend Hok Hdoc Hne. split.
  - run_accepted Hsend Hok. unfold json_of. rewrite Hdoc. reflexivity.
  - destruct d as [|kv d]; [congruence |].
    run_request ltac:(fun r =>
      exists r; destruct (send r s2) as [[resp2 | [e | e]] s']);
      cbn [fst snd]; try destruct (accepted resp2).
    all: finish_run Hlogs.
    all: repeat split; reflexivity.
Qed.


Lemma dict_set_nonempty d k v : Config.dict_set d k v <> [].
Proof.
  destruct d as [|[k' v'] d]; simpl; [discriminate |].
  destruct (String.eqb k' k); discriminate.
Qed.

Lemma dict_update_nonempty d cfg : d <> [] -> dict_update d cfg <> [].
Proof.
  revert d. induction cfg as [|[k v] cfg IH]; intros d Hd; simpl; [exact Hd |].
  apply IH, dict_set_nonempty.
Qed.

Lemma dict_get_update d cfg k :
  NoDup (map fst cfg) ->
  dict_get (dict_update d cfg) k =
    match dict_get cfg k with
    | Some v => Some v
    | None => dict_get d k
    end.
Proof.
  revert d. induction cfg as [|[k0 v0] cfg IH]; intros d Hnd; simpl;
    [reflexivity |].
  inversion Hnd as [|? ? Hnotin Hnd']; subst.
  rewrite (IH _ Hnd').
  destruct (String.eqb k0 k) eqn:Hk.
  - apply String.eqb_eq in Hk. subst k0.
    rewrite (ConfigFacts.dict_get_none _ _ Hnotin).
    apply ConfigFacts.dict_get_set_eq.
  - apply String.eqb_neq in Hk.
    destruct (dict_get cfg k); [reflexivity |].
    apply ConfigFacts.dict_get_set_ne. congruence.
Qed.

Lemma enable_data_truthy ty config :
  data_truthy (Some (enable_data ty config)) = true.
Proof.
  assert (Hne : enable_data ty config <> []).
  { unfold enable_data. destruct (data_truthy config); [| discriminate].
    destruct config as [cfg |]; [| discriminate].
    apply dict_update_nonempty. discriminate. }
  destruct (enable_data ty config); [congruence | reflexivity].
Qed.

Lemma enable_data_get ty cfg k :
  NoDup (map fst cfg) ->
  dict_get (enable_data ty (Some cfg)) k =
    match dict_get cfg k with
    | Some v => Some v
    | None => if String.eqb "type" k then Some ty else None
    end.
Proof.
  intros Hnd. unfold enable_data.
  destruct cfg as [|kv cfg]; [reflexivity |].
  cbn [data_truthy]. rewrite (@dict_get_update _ _ k Hnd). reflexivity.
Qed.

(** X24: the enable methods send one POST request whose body holds every
    member of [config] and, under [type], the type argument unless
    [config] has a [type] of its own, which then prevails. *)
Theorem enable_request_body
        (path : string) (ty : pyval) (cfg : dict) (s : S) :
  NoDup (map fst cfg) ->
  (exists req body,
     sent (snd (enable_secret_engine send urljoin self path ty (Some cfg) s))
       = [req] /\
     r_method req = "POST" /\ r_json req = Some body /\
     forall k, dict_get body k =
                 match dict_get cfg k with
                 | Some v => Some v
                 | None => if String.eqb "type" k then Some ty else None
                 end) /\
  (exists req body,
     sent (snd (enable_auth_method send urljoin self path ty (Some cfg) s))
       = [req] /\
     r_method req = "POST" /\ r_json req = Some body /\
     forall k, dict_get body k =
                 match dict_get cfg k with
                 | Some v => Some v
                 | None => if String.eqb "type" k then Some ty else None
                 end).
Proof.
  intros Hnd. split.
  all: run_request ltac:(fun r =>
         exists r, (enable_data ty (Some cfg));
         destruct (send r s) as [[resp | [e | e]] s']);
       cbn [fst snd]; try destruct (accepted resp).
  all: finish_run Hlogs.
  all: split; [reflexivity |]; split; [reflexivity |].
  all: split; [| intros k; apply enable_data_get; exact Hnd].
  all: unfold build_request, with_json; cbn [r_json];
       rewrite enable_data_truthy; reflexivity.
Qed.

End Session.

Lemma mutation_succeeds_iff_accepted_witness :
  fst (fst (perform (sample_send 404 (Failed (RequestException "no document")))
              sample_urljoin sample_client (WritePolicy "app" "p") 0%nat))
  = Value (PyBool false).
Proof.
  destruct (@mutation_succeeds_iff_accepted nat
              (sample_send 404 (Failed (RequestException "no document")))
              sample_urljoin sample_client (WritePolicy "app" "p") 0%nat
              eq_refl)
    as (req & _ & _ & Hres).
  rewrite Hres. reflexivity.
Defined.

Lemma failed_request_gives_empty_answer_witness :
  fst (fst (perform sample_down sample_urljoin sample_client ListPolicies
              0%nat))
  = Value (PyList []).
Proof.
  apply (@failed_request_gives_empty_answer nat sample_down sample_urljoin
           sample_client ListPolicies 0%nat).
  intros req. exact I.
Defined.

(** X20: a client made with [OpenBaoClient(u, tok, v, t)] sends exactly
    one request per method call, with [verify] set to [v], [timeout] to
    [t] and the token header set to [tok]; the URL joins a [v1/] path to
    [u] without its trailing slashes followed by one slash; the request is
    a GET exactly for the calls that do not mutate. *)
Theorem requests_are_well_formed
        (S : Type) (send : request -> S -> outcome response * S)
        (urljoin : string -> string -> string)
        (u tok : string) (v : bool) (t : Z) (c : call) (s : S) :
  exists req,
    sent (snd (perform send urljoin (__init__ u tok v t) c s)) = [req] /\
    r_verify req = v /\
    r_timeout req = t /\
    r_headers req =
      [("X-Vault-Token", tok); ("Content-Type", "application/json")] /\
    mutating c = negb (String.eqb (r_method req) "GET") /\
    exists rest,
      r_url req = urljoin (rstrip_slash u ++ "/")%string ("v1/" ++ rest)%string.
Proof.
  exact (request_shape send urljoin (__init__ u tok v t) c s).
Qed.

Lemma missing_data_gives_default_witness :
  let send := sample_send 200 (Value (PyDict [("request_id", PyStr "r1")])) in
  fst (fst (list_secrets send sample_urljoin sample_client "kv" 0%nat))
    = Value (PyList []) /\
  fst (fst (list_policies send sample_urljoin sample_client 0%nat))
    = Value (PyList []) /\
  fst (fst (list_auth_methods send sample_urljoin sample_client 0%nat))
    = Value (PyDict []) /\
  fst (fst (list_secret_engines send sample_urljoin sample_client 0%nat))
    = Value (PyDict []) /\
  fst (fst (read_policy send sample_urljoin sample_client "app" 0%nat))
    = Value (PyStr "").
Proof.
  intros send.
  apply (@missing_data_gives_default nat send sample_urljoin sample_client
           0%nat
           (Build_response 200 ""
              (Value (PyDict [("request_id", PyStr "r1")])))
           [("request_id", PyStr "r1")] "kv" "app").
  - intros req. reflexivity.
  - reflexivity.
  - reflexivity.
  - reflexivity.
Defined.

Lemma non_object_document_raises_witness :
  fst (fst (list_policies (sample_send 200 (Value (PyList [])))
              sample_urljoin sample_client 0%nat))
  = Failed (OtherException "object has no attribute 'get'").
Proof.
  apply (@non_object_document_raises nat (sample_send 200 (Value (PyList [])))
           sample_urljoin sample_client 0%nat
           (Build_response 200 "" (Value (PyList []))) (PyList []) "kv" "app").
  - intros req. reflexivity.
  - reflexivity.
  - reflexivity.
  - intros d. discriminate.
Defined.

Lemma secret_document_is_forwarded_whole_witness :
  let doc := [("request_id", PyStr "r1");
              ("data", PyDict [("password", PyStr "x")])] in
  fst (fst (read_secret (sample_send 200 (Value (PyDict doc)))
              sample_urljoin sample_client "kv/app" 0%nat))
  = Value (PyDict doc).
Proof.
  intros doc.
  apply (@secret_document_is_forwarded_whole nat
           (sample_send 200 (Value (PyDict doc)))
           sample_urljoin sample_client 0%nat 1%nat
           (Build_response 200 "" (Value (PyDict doc))) doc "kv/app").
  - intros req. reflexivity.
  - reflexivity.
  - reflexivity.
  - discriminate.
Defined.

Lemma enable_request_body_witness :
  exists req body,
    sent (snd (enable_secret_engine
                 (sample_send 204 (Failed (RequestException "no document")))
                 sample_urljoin sample_client "kv" (PyStr "kv")
                 (Some [("description", PyStr ""); ("type", PyStr "kv-v2")])
                 0%nat))
      = [req] /\
    r_json req = Some body /\
    dict_get body "type" = Some (PyStr "kv-v2").
Proof.
  destruct (@enable_request_body nat
              (sample_send 204 (Failed (RequestException "no document")))
              sample_urljoin sample_client "kv" (PyStr "kv")
              [("description", PyStr ""); ("type", PyStr "kv-v2")] 0%nat)
    as [(req & body & Hsent & _ & Hjson & Hget) _].
  - repeat constructor; simpl; intuition discriminate.
  - exists req, body. split; [exact Hsent |]. split; [exact Hjson |].
    rewrite Hget. reflexivity.
Defined.

End ClientFacts.

(** * The configuration of a run *)

Module MainFacts.

Import Config Main.

Lemma set_if_given_other cfg s k x cfg' s' k' :
  set_if_given cfg s k x = Returns cfg' -> (s, k) <> (s', k') ->
  get cfg' [s'; k'] = get cfg [s'; k'].
Proof.
  unfold set_if_given. intros Hset Hne.
  destruct x as [u |]; [| congruence].
  destruct (given (Some u)); [| congruence].
  eapply ConfigEnv.set_nested_get_ne; eassumption.
Qed.

Lemma set_if_given_set cfg s k u cfg' :
  set_if_given cfg s k (Some u) = Returns cfg' -> u <> "" ->
  get cfg' [s; k] = Returns (PyStr u).
Proof.
  unfold set_if_given, given. intros Hset Hu.
  apply String.eqb_neq in Hu. rewrite Hu in Hset. cbn [negb] in Hset.
  eapply ConfigEnv.set_nested_get_eq; [exact Hset | discriminate].
Qed.

Section Run.

Variable getenv : string -> option string.
Variable py_int : string -> option Z.
Variable py_lower : string -> string.
Variable read_yaml : string -> option (reply pyval).

(** The steps of a run that returns. *)
Lemma main_configuration_steps (p : params) (cfg : dict) :
  main_configuration getenv py_int py_lower read_yaml p = Returns cfg ->
  exists c0 c1 c2 c3 c4 c5 c6 c7,
    set_if_given c0 "primary" "url" (primary_url p) = Returns c1 /\
    set_if_given c1 "primary" "token" (primary_token p) = Returns c2 /\
    set_if_given c2 "secondary" "url" (secondary_url p) = Returns c3 /\
    set_if_given c3 "secondary" "token" (secondary_token p) = Returns c4 /\
    set_nested c4 "replication" "verify_ssl" (PyBool (verify_ssl p))
      = Returns c5 /\
    (if Z.eqb (sync_interval p) 0 then Returns c5
     else set_nested c5 "replication" "sync_interval"
            (PyInt (sync_interval p))) = Returns c6 /\
    set_nested c6 "logging" "level" (PyStr (level_name (log_level p)))
      = Returns c7 /\
    set_if_given c7 "logging" "file" (log_file p) = Returns cfg /\
    validate cfg = Returns true.
Proof.
  unfold main_configuration, rbind. intros Hrun.
  repeat match type of Hrun with
         | match ?x with Returns _ => _ | Raises _ => _ end = _ =>
             let H := fresh "Hstep" in
             destruct x eqn:H; [| discriminate Hrun]
         end.
  inversion Hrun; subst.
  do 8 eexists. repeat (split; [eassumption |]).
  match goal with
  | Hv : validate cfg = Returns ?b |- _ =>
      rewrite Hv; f_equal;
      exact (proj1 (ConfigGet.validate_fields_ok cfg required_fields) b Hv)
  end.
Qed.


Lemma interval_step_other (b : bool) c5 v c6 s k :
  (if b then Returns c5
   else set_nested c5 "replication" "sync_interval" v) = Returns c6 ->
  ("replication", "sync_interval") <> (s, k) ->
  get c6 [s; k] = get c5 [s; k].
Proof.
  destruct b; intros Hstep Hne; [congruence |].
  eapply ConfigEnv.set_nested_get_ne; eassumption.
Qed.

(** Carries a lookup in the goal back over the step [H]. *)
Ltac back H :=
  first [ erewrite set_if_given_other; [| exact H | discriminate]
        | erewrite ConfigEnv.set_nested_get_ne; [| exact H | discriminate]
        | erewrite interval_step_other; [| exact H | discriminate] ].

(** X25: in a run that gets past [validate()], [replication.verify_ssl]
    and [logging.level] are the values of the command line (its defaults
    included) whatever the file and the environment say, and so is
    [replication.sync_interval] unless the command line gives 0. *)
Theorem command_line_settings_prevail (p : params) (cfg : dict) :
  main_configuration getenv py_int py_lower read_yaml p = Returns cfg ->
  get cfg ["replication"; "verify_ssl"] = Returns (PyBool (verify_ssl p)) /\
  get cfg ["logging"; "level"] = Returns (PyStr (level_name (log_level p))) /\
  (sync_interval p = 0%Z \/
   get cfg ["replication"; "sync_interval"]
     = Returns (PyInt (sync_interval p))).
Proof.
  intros Hrun.
  destruct (main_configuration_steps _ Hrun)
    as (c0 & c1 & c2 & c3 & c4 & c5 & c6 & c7 &
        H1 & H2 & H3 & H4 & H5 & H6 & H7 & H8 & Hval).
  split; [| split].
  - back H8. back H7. back H6.
    eapply ConfigEnv.set_nested_get_eq; [exact H5 | discriminate].
  - back H8.
    eapply ConfigEnv.set_nested_get_eq; [exact H7 | discriminate].
  - destruct (Z.eqb_spec (sync_interval p) 0) as [Hz | Hnz]; [left; exact Hz |].
    right. back H8. back H7.
    eapply ConfigEnv.set_nested_get_eq; [exact H6 | discriminate].
Qed.

(** X26: in a run that gets past [validate()], each of the options
    [--primary-url], [--primary-token], [--secondary-url],
    [--secondary-token] and [--log-file] that is given and not empty is
    the value of its setting, whatever the file and the environment
    say. *)
Theorem given_options_prevail
        (p : params) (cfg : dict) (x : option string) (s k u : string) :
  main_configuration getenv py_int py_lower read_yaml p = Returns cfg ->
  In (x, (s, k))
     [(primary_url p, ("primary", "url"));
      (primary_token p, ("primary", "token"));
      (secondary_url p, ("secondary", "url"));
      (secondary_token p, ("secondary", "token"));
      (log_file p, ("logging", "file"))] ->
  x = Some u -> u <> "" ->
  get cfg [s; k] = Returns (PyStr u).
Proof.
  intros Hrun Hin Hx Hu.
  destruct (main_configuration_steps _ Hrun)
    as (c0 & c1 & c2 & c3 & c4 & c5 & c6 & c7 &
        H1 & H2 & H3 & H4 & H5 & H6 & H7 & H8 & Hval).
  simpl in Hin.
  destruct Hin as [Heq | [Heq | [Heq | [Heq | [Heq | []]]]]];
    inversion Heq as [[Hopt Hs Hk]]; clear Heq; subst s k;
    rewrite Hx in Hopt.
  - rewrite Hopt in H1.
    back H8. back H7. back H6. back H5. back H4. back H3. back H2.
    eapply set_if_given_set; [exact H1 | exact Hu].
  - rewrite Hopt in H2.
    back H8. back H7. back H6. back H5. back H4. back H3.
    eapply set_if_given_set; [exact H2 | exact Hu].
  - rewrite Hopt in H3.
    back H8. back H7. back H6. back H5. back H4.
    eapply set_if_given_set; [exact H3 | exact Hu].
  - rewrite Hopt in H4.
    back H8. back H7. back H6. back H5.
    eapply set_if_given_set; [exact H4 | exact Hu].
  - rewrite Hopt in H8.
    eapply set_if_given_set; [exact H8 | exact Hu].
Qed.

(** X27: in a run that gets past [validate()], the URL and the token of
    both clusters are set to values that count as true: no client is
    created with an empty or missing URL or token. *)
Theorem configuration_is_complete
        (p : params) (cfg : dict) (section key : string) :
  main_configuration getenv py_int py_lower read_yaml p = Returns cfg ->
  In (section, key) required_fields ->
  exists v, get cfg [section; key] = Returns v /\ truthy v = true.
Proof.
  intros Hrun Hin.
  destruct (main_configuration_steps _ Hrun)
    as (c0 & c1 & c2 & c3 & c4 & c5 & c6 & c7 &
        H1 & H2 & H3 & H4 & H5 & H6 & H7 & H8 & Hval).
  exact (proj1 (proj2 (ConfigGet.validate_fields_ok cfg required_fields))
           Hval section key Hin).
Qed.

End Run.

Lemma command_line_settings_prevail_witness :
  exists cfg,
    main_configuration sample_env sample_int sample_lower sample_yaml
      sample_params = Returns cfg /\
    get cfg ["replication"; "verify_ssl"] = Returns (PyBool false).
Proof.
  eexists. split; [reflexivity |].
  destruct (@command_line_settings_prevail sample_env sample_int sample_lower
              sample_yaml sample_params _ eq_refl) as [Hverify _].
  exact Hverify.
Defined.

Lemma given_options_prevail_witness :
  exists cfg,
    main_configuration sample_env sample_int sample_lower sample_yaml
      sample_params = Returns cfg /\
    get cfg ["secondary"; "url"] = Returns (PyStr "https://bao-b:8200").
Proof.
  eexists. split; [reflexivity |].
  apply (@given_options_prevail sample_env sample_int sample_lower
           sample_yaml sample_params _
           (Some "https://bao-b:8200") "secondary" "url"
           "https://bao-b:8200" eq_refl).
  - simpl. auto.
  - reflexivity.
  - discriminate.
Defined.

Lemma configuration_is_complete_witness :
  exists cfg v,
    main_configuration sample_env sample_int sample_lower sample_yaml
      sample_params = Returns cfg /\
    get cfg ["primary"; "token"] = Returns v /\ truthy v = true.
Proof.
  destruct (@configuration_is_complete sample_env sample_int sample_lower
              sample_yaml sample_params _ "primary" "token" eq_refl)
    as [v Hv].
  - simpl. auto.
  - eexists. exists v. split; [reflexivity | exact Hv].
Defined.

End MainFacts.

(** * Where the written data comes from *)

Section Provenance.

Variables SP SS : Type.
Variable primary : Client SP.
Variable secondary : Client SS.
Variable exclude_paths : list string.

Lemma sourced_after_nil seen : sourced_after seen [].
Proof. intros pre post c a Heq. destruct pre; discriminate Heq. Qed.

Lemma sourced_after_cons seen ev tr :
  match ev with
  | Call Secondary (WriteSecret path data) _ =>
      In (Call Primary (ReadSecret path) (Secret (Some data))) seen
  | Call Secondary (WritePolicy name content) _ =>
      In (Call Primary (ReadPolicy name) (Policy (Some content))) seen
  | _ => True
  end ->
  sourced_after (seen ++ [ev]) tr ->
  sourced_after seen (ev :: tr).
Proof.
  intros Hev Htr pre post c a Heq.
  destruct pre as [|e pre]; simpl in Heq; inversion Heq; subst.
  - rewrite app_nil_r. destruct c; auto.
  - specialize (Htr pre post c a eq_refl).
    rewrite <- app_assoc in Htr. exact Htr.
Qed.

Lemma sourced_after_app tr1 tr2 :
  sourced_after [] tr1 -> sourced_after [] tr2 ->
  sourced_after [] (tr1 ++ tr2).
Proof.
  intros H1 H2 pre post c a Heq.
  apply app_eq_app in Heq. destruct Heq as [l [[Ht1 Hev] | [Hpre Ht2]]].
  - destruct l as [|e l]; simpl in Hev.
    + specialize (H2 [] post c a (eq_sym Hev)).
      destruct c; auto; contradiction.
    + inversion Hev; subst. exact (H1 pre l c a eq_refl).
  - subst pre. specialize (H2 l post c a Ht2). simpl in *.
    destruct c; auto; apply in_or_app; right; exact H2.
Qed.

Lemma sourced_ret {A} (a : A) : sourced (@ret SP SS A a).
Proof. intros w. apply sourced_after_nil. Qed.

Lemma sourced_raise {A} e : sourced (@raise SP SS A e).
Proof. intros w. apply sourced_after_nil. Qed.

Lemma sourced_out_of_fuel {A} : sourced (@out_of_fuel SP SS A).
Proof. intros w. apply sourced_after_nil. Qed.

Lemma sourced_log l msg args : sourced (@log SP SS l msg args).
Proof.
  intros w. apply sourced_after_cons; [exact I | apply sourced_after_nil].
Qed.

Lemma sourced_bind {A B} (m : M SP SS A) (f : A -> M SP SS B) :
  sourced m -> (forall a, sourced (f a)) -> sourced (bind m f).
Proof.
  intros Hm Hf w. unfold bind. specialize (Hm w).
  destruct (m w) as [[r w1] t1]. unfold tr_of in *. simpl in Hm.
  destruct r as [a | e |]; simpl; auto.
  specialize (Hf a w1). destruct (f a w1) as [[r2 w2] t2]. simpl in *.
  apply sourced_after_app; assumption.
Qed.

Lemma sourced_try_except {A} (m : M SP SS A) (h : string -> M SP SS A) :
  sourced m -> (forall e, sourced (h e)) -> sourced (try_except m h).
Proof.
  intros Hm Hh w. unfold try_except. specialize (Hm w).
  destruct (m w) as [[r w1] t1]. unfold tr_of in *. simpl in Hm.
  destruct r as [a | e |]; simpl; auto.
  specialize (Hh e w1). destruct (h e w1) as [[r2 w2] t2]. simpl in *.
  apply sourced_after_app; assumption.
Qed.

Lemma sourced_for_each {A} (xs : list A) (body : A -> bool -> M SP SS bool) :
  (forall x s, sourced (body x s)) -> forall s, sourced (for_each xs body s).
Proof.
  intros Hb. induction xs as [|x xs IH]; intros s; simpl.
  - apply sourced_ret.
  - apply sourced_bind; auto.
Qed.

Lemma sourced_for_each_ {A} (xs : list A) (body : A -> M SP SS unit) :
  (forall x, sourced (body x)) -> sourced (for_each_ xs body).
Proof.
  intros Hb. induction xs as [|x xs IH]; simpl.
  - apply sourced_ret.
  - apply sourced_bind; auto.
Qed.

Lemma sourced_call_bool_pri c f : sourced (@call_bool_pri SP SS c f).
Proof.
  intros w. unfold call_bool_pri. destruct (f (pri w)) as [b s].
  apply sourced_after_cons; [exact I | apply sourced_after_nil].
Qed.

Lemma sourced_call_bool_sec c f :
  writes_data c = false -> sourced (@call_bool_sec SP SS c f).
Proof.
  intros Hc w. unfold call_bool_sec. destruct (f (sec w)) as [b s].
  apply sourced_after_cons; [| apply sourced_after_nil].
  destruct c; try exact I; discriminate Hc.
Qed.

Lemma sourced_call_read_pri {A} c wrap (f : SP -> reply A * SP) :
  sourced (@call_read_pri SP SS A c wrap f).
Proof.
  intros w. unfold call_read_pri.
  destruct (f (pri w)) as [[a | e] s];
    (apply sourced_after_cons; [exact I | apply sourced_after_nil]).
Qed.

Lemma sourced_call_read_sec {A} c wrap (f : SS -> reply A * SS) :
  writes_data c = false -> sourced (@call_read_sec SP SS A c wrap f).
Proof.
  intros Hc w. unfold call_read_sec.
  destruct (f (sec w)) as [[a | e] s];
    (apply sourced_after_cons; [| apply sourced_after_nil]);
    destruct c; try exact I; discriminate Hc.
Qed.

Lemma sourced_config_get config k : sourced (@config_get SP SS config k).
Proof.
  destruct config; simpl; first [apply sourced_ret | apply sourced_raise].
Qed.

Lemma sourced_config_get_default config k d :
  sourced (@config_get_default SP SS config k d).
Proof.
  destruct config; simpl; first [apply sourced_ret | apply sourced_raise].
Qed.

Ltac sourced_step :=
  first
    [ apply sourced_ret
    | apply sourced_raise
    | apply sourced_out_of_fuel
    | apply sourced_config_get
    | apply sourced_config_get_default
    | apply sourced_log
    | apply sourced_call_bool_pri
    | apply sourced_call_bool_sec; reflexivity
    | apply sourced_call_read_pri
    | apply sourced_call_read_sec; reflexivity
    | apply sourced_bind; [idtac | intros ?]
    | apply sourced_try_except; [idtac | intros ?]
    | apply sourced_for_each; intros ? ?
    | apply sourced_for_each_; intros ?
    | match goal with
      | |- sourced (if ?b then _ else _) => destruct b eqn:?
      | |- sourced (match ?x with _ => _ end) => destruct x eqn:?
      | |- sourced (let '(_, _) := ?x in _) => destruct x eqn:?
      end ].

(** A policy is written right after it was read. *)
Lemma sourced_sync_policy policy_name success :
  sourced (sync_policy primary secondary policy_name success).
Proof.
  unfold sync_policy.
  destruct (in_system_policies policy_name); [apply sourced_ret |].
  intros w. unfold bind, call_read_pri, call_bool_sec, log, ret, tr_of.
  destruct (read_policy primary policy_name (pri w)) as [[[content |] | e] s];
    cbn [snd fst pri sec app].
  - destruct (write_policy secondary policy_name content (sec w)) as [ok s2].
    cbn [snd fst app].
    apply sourced_after_cons; [exact I |].
    apply sourced_after_cons; [exact I |].
    apply sourced_after_cons; [simpl; auto |].
    apply sourced_after_nil.
  - apply sourced_after_cons; [exact I |].
    apply sourced_after_cons; [exact I |].
    apply sourced_after_nil.
  - apply sourced_after_cons; [exact I |].
    apply sourced_after_nil.
Qed.

(** A secret is written right after it was read. *)
Lemma sourced_sync_key recurse mount_path sub_path full_path key success :
  (forall m p, sourced (recurse m p)) ->
  sourced (sync_key primary secondary recurse mount_path sub_path full_path
             key success).
Proof.
  intros Hrec. unfold sync_key.
  destruct (endswith_slash key).
  - apply sourced_bind; [apply Hrec | intros r; apply sourced_ret].
  - intros w. unfold bind, call_read_pri, call_bool_sec, log, ret, tr_of.
    cbn [snd fst pri sec app].
    destruct (read_secret primary _ (pri w)) as [[[d |] | e] s];
      cbn [snd fst pri sec app].
    + destruct (secret_truthy (Some d)); cbn [snd fst pri sec app].
      * destruct (write_secret secondary _ d (sec w)) as [ok s2].
        destruct ok; cbn [snd fst negb app];
          (apply sourced_after_cons; [exact I |]);
          (apply sourced_after_cons; [exact I |]);
          (apply sourced_after_cons; [simpl; auto |]);
          repeat (apply sourced_after_cons; [exact I |]);
          apply sourced_after_nil.
      * repeat (apply sourced_after_cons; [exact I |]).
        apply sourced_after_nil.
    + repeat (apply sourced_after_cons; [exact I |]).
      apply sourced_after_nil.
    + repeat (apply sourced_after_cons; [exact I |]).
      apply sourced_after_nil.
Qed.

Lemma sourced_sync_secrets_recursive fuel : forall mount_path sub_path,
  sourced (_sync_secrets_recursive primary secondary fuel mount_path sub_path).
Proof.
  induction fuel as [|fuel IH]; intros mount_path sub_path; simpl.
  - apply sourced_out_of_fuel.
  - apply sourced_try_except; [| intros e; repeat sourced_step].
    apply sourced_bind; [apply sourced_call_read_pri |].
    intros keys. apply sourced_for_each. intros key success.
    apply sourced_sync_key. exact IH.
Qed.

Lemma sourced_full_sync fuel :
  sourced (full_sync primary secondary exclude_paths fuel).
Proof.
  unfold full_sync, _health_check, _clear_secondary, _sync_secret_engines,
    _sync_auth_methods, _sync_policies, _sync_secrets, clear_engine,
    clear_auth, clear_policy, sync_engine, sync_auth, sync_mount.
  repeat first [ apply sourced_sync_policy
               | apply sourced_sync_secrets_recursive
               | sourced_step ].
Qed.

(** X28: every secret that a full synchronization writes to the
    secondary was read from the primary earlier in the run, at the same
    path and with the same content. *)
Theorem written_secrets_were_read
        (fuel : nat) (w : clusters SP SS) (pre post : trace)
        (path : string) (data : dict) (a : answer) :
  tr_of (full_sync primary secondary exclude_paths fuel w)
    = pre ++ Call Secondary (WriteSecret path data) a :: post ->
  In (Call Primary (ReadSecret path) (Secret (Some data))) pre.
Proof.
  intros Heq. exact (sourced_full_sync fuel w _ _ _ _ Heq).
Qed.

(** X29: every policy that a full synchronization writes to the
    secondary was read from the primary earlier in the run, under the
    same name and with the same text. *)
Theorem written_policies_were_read
        (fuel : nat) (w : clusters SP SS) (pre post : trace)
        (name content : string) (a : answer) :
  tr_of (full_sync primary secondary exclude_paths fuel w)
    = pre ++ Call Secondary (WritePolicy name content) a :: post ->
  In (Call Primary (ReadPolicy name) (Policy (Some content))) pre.
Proof.
  intros Heq. exact (sourced_full_sync fuel w _ _ _ _ Heq).
Qed.

End Provenance.

Lemma written_secrets_were_read_witness :
  In (Call Primary (ReadSecret "secret/b/c")
        (Secret (Some [("value", PyStr "2")])))
     (firstn 40 (tr_of Sample.run)).
Proof.
  apply (@written_secrets_were_read _ _ InMemory.client InMemory.client
           Sample.E 4 Sample.world
           (firstn 40 (tr_of Sample.run)) (skipn 41 (tr_of Sample.run))
           "secret/b/c" [("value", PyStr "2")] (Bool true)).
  reflexivity.
Defined.

Lemma written_policies_were_read_witness :
  In (Call Primary (ReadPolicy "ops") (Policy (Some "path ops {}")))
     (firstn 29 (tr_of Sample.run)).
Proof.
  apply (@written_policies_were_read _ _ InMemory.client InMemory.client
           Sample.E 4 Sample.world
           (firstn 29 (tr_of Sample.run)) (skipn 30 (tr_of Sample.run))
           "ops" "path ops {}" (Bool true)).
  reflexivity.
Defined.
